(** * create-supalite: the setup orchestration, embedded and verified

    A shallow embedding of the TypeScript sources of the [create-supalite]
    command line tool:

    - [constants.ts], [types.ts]
    - [utils/detect-package-managers.ts], [utils/copy-template.ts],
      [utils/install-deps.ts]
    - [utils/supabase-cli.ts] (the platform CLI adapter)
    - [utils/supabase-setup.ts] (the migration applier)
    - [prompts/setup-method.ts], [prompts/collect-info.ts]
    - [create-project.ts] (the materializer) and [cli.ts]

    The program talks to the outside world all the time: it spawns
    subprocesses, reads and writes files, and asks the user questions.
    Every such interaction is an [Event]; a computation receives the
    history of events so far and the user's remaining scripted actions and
    returns an outcome, the events it emitted, and the unread actions.
    What the outside world answers (exit codes, file contents, the result
    of [JSON.parse]) is given by an environment record [Env] of oracles
    that may depend on the whole history.  Theorems quantify over every
    environment and every script. *)

From Stdlib Require Import String Ascii List ZArith Bool Lia DecimalString.
From Stdlib Require Import Sorted Permutation.
Import ListNotations.
Open Scope string_scope.
Open Scope list_scope.

Set Implicit Arguments.
Set Warnings "-register-all".

(* ================================================================== *)
(** * JavaScript strings

    Strings are byte strings; the case conversions and [trim] act on the
    ASCII range, which is the range of every literal the program compares
    against. *)
(* ================================================================== *)

Module Js.

Definition is_space (c : ascii) : bool :=
  (c =? " ")%char || (c =? "009")%char || (c =? "010")%char
  || (c =? "011")%char || (c =? "012")%char || (c =? "013")%char.

Definition is_lower (c : ascii) : bool := ("a" <=? c)%char && (c <=? "z")%char.
Definition is_upper (c : ascii) : bool := ("A" <=? c)%char && (c <=? "Z")%char.
Definition is_digit (c : ascii) : bool := ("0" <=? c)%char && (c <=? "9")%char.

Definition upper_char (c : ascii) : ascii :=
  if is_lower c then ascii_of_nat (nat_of_ascii c - 32) else c.
Definition lower_char (c : ascii) : ascii :=
  if is_upper c then ascii_of_nat (nat_of_ascii c + 32) else c.

Fixpoint map_chars (f : ascii -> ascii) (s : string) : string :=
  match s with
  | EmptyString => EmptyString
  | String c s' => String (f c) (map_chars f s')
  end.

(** [s.toUpperCase()], [s.toLowerCase()] *)
Definition toUpperCase : string -> string := map_chars upper_char.
Definition toLowerCase : string -> string := map_chars lower_char.

(** [s.startsWith(p)] *)
Definition startsWith (s p : string) : bool := String.prefix p s.

(** [s.includes(sub)] *)
Fixpoint includes (s sub : string) : bool :=
  String.prefix sub s
  || match s with
     | EmptyString => false
     | String _ s' => includes s' sub
     end.

Fixpoint trimStart (s : string) : string :=
  match s with
  | EmptyString => EmptyString
  | String c s' => if is_space c then trimStart s' else s
  end.

Fixpoint trimEnd (s : string) : string :=
  match s with
  | EmptyString => EmptyString
  | String c s' =>
      let r := trimEnd s' in
      if is_space c && (r =? "") then "" else String c r
  end.

(** [s.trim()] *)
Definition trim (s : string) : string := trimEnd (trimStart s).

(** [s.split(sep)] for a one-character separator. *)
Fixpoint split (sep : ascii) (s : string) : list string :=
  match s with
  | EmptyString => [""]
  | String c s' =>
      if (c =? sep)%char then "" :: split sep s'
      else match split sep s' with
           | h :: t => String c h :: t
           | [] => [String c ""]
           end
  end.

(** The double quote character and the line feed, as strings. *)
Definition dquote : string := String "034" EmptyString.
Definition nl : string := String "010" EmptyString.

(** A value used as a condition: the empty string is falsy. *)
Definition truthy (s : string) : bool := negb (s =? "").

Definition truthy_opt (s : option string) : bool :=
  match s with
  | Some v => truthy v
  | None => false
  end.

(** [a || b] on strings. *)
Definition or_else (a b : string) : string := if truthy a then a else b.

Fixpoint all_chars (p : ascii -> bool) (s : string) : bool :=
  match s with
  | EmptyString => true
  | String c s' => p c && all_chars p s'
  end.

(** Decimal rendering of an integer, as a template literal prints it. *)
Definition string_of_Z (z : Z) : string := NilZero.string_of_int (Z.to_int z).

Definition digit_val (c : ascii) : option Z :=
  if is_digit c then Some (Z.of_nat (nat_of_ascii c - 48)) else None.

Definition hex_val (c : ascii) : option Z :=
  if is_digit c then Some (Z.of_nat (nat_of_ascii c - 48))
  else if ("a" <=? c)%char && (c <=? "f")%char then Some (Z.of_nat (nat_of_ascii c - 87))
  else if ("A" <=? c)%char && (c <=? "F")%char then Some (Z.of_nat (nat_of_ascii c - 55))
  else None.

(** The longest prefix of digits in the given radix, accumulated. *)
Fixpoint digits_prefix (val : ascii -> option Z) (radix : Z) (acc : option Z)
         (s : string) : option Z :=
  match s with
  | EmptyString => acc
  | String c s' =>
      match val c with
      | Some d =>
          digits_prefix val radix
            (Some (match acc with Some a => (a * radix + d)%Z | None => d end)) s'
      | None => acc
      end
  end.

Definition parse_magnitude (s : string) : option Z :=
  match s with
  | String "0" (String x s') =>
      if (x =? "x")%char || (x =? "X")%char
      then digits_prefix hex_val 16 None s'
      else digits_prefix digit_val 10 None s
  | _ => digits_prefix digit_val 10 None s
  end.

(** [parseInt(s)]; [None] is [NaN]. *)
Definition parseInt (s : string) : option Z :=
  match trimStart s with
  | String "-" s' => option_map Z.opp (parse_magnitude s')
  | String "+" s' => parse_magnitude s'
  | s' => parse_magnitude s'
  end.

End Js.

(* ================================================================== *)
(** * JSON values and the values read out of them *)
(* ================================================================== *)

(** What [JSON.parse] produces.  A number is kept by its rendering, which is
    all the program ever does with one. *)
Inductive JSON : Type :=
| JNull
| JBool (b : bool)
| JNum (rendered : string)
| JStr (s : string)
| JArr (items : list JSON)
| JObj (fields : list (string * JSON)).

(** A JavaScript value read from parsed data: [None] is [undefined]. *)
Definition JsVal : Type := option JSON.

Inductive ParseResult : Type :=
| Parsed (v : JSON)
| SyntaxError (message : string).

Module JsValue.

Fixpoint lookup (k : string) (fields : list (string * JSON)) : JsVal :=
  match fields with
  | [] => None
  | (k', v) :: more => if k' =? k then Some v else lookup k more
  end.

(** [v.k] for a property [k] that only plain objects can carry ([id],
    [name], ...): reading it off [null] raises a TypeError, off any other
    non-object it is [undefined]. *)
Definition prop (v : JSON) (k : string) : option JsVal :=
  match v with
  | JNull => None
  | JObj fields => Some (lookup k fields)
  | _ => Some None
  end.

Fixpoint render (v : JSON) : string :=
  match v with
  | JNull => "null"
  | JBool true => "true"
  | JBool false => "false"
  | JNum r => r
  | JStr s => s
  | JArr items =>
      String.concat ","
        (map (fun i => match i with JNull => "" | _ => render i end) items)
  | JObj _ => "[object Object]"
  end.

(** [String(v)], the coercion applied by template literals and by the
    argument vector of a spawned process. *)
Definition to_string (v : JsVal) : string :=
  match v with
  | None => "undefined"
  | Some j => render j
  end.

(** Truthiness of a value read from parsed data. *)
Definition truthy (v : JsVal) : bool :=
  match v with
  | None | Some JNull | Some (JBool false) => false
  | Some (JStr s) => Js.truthy s
  | Some (JNum r) => negb ((r =? "0") || (r =? "-0") || (r =? "NaN"))
  | Some _ => true
  end.

End JsValue.

(* ================================================================== *)
(** * The outside world: events, the user's script, the environment *)
(* ================================================================== *)

(** Where a line of terminal output goes. *)
Inductive Channel : Type :=
| Intro | Outro | CancelMsg
| LogError | LogInfo | LogWarn | LogSuccess
| Note (title : string)
| SpinnerStart | SpinnerStop
| ConsoleError.

Inductive PromptKind : Type := PText | PPassword | PSelect | PConfirm.

Inductive Event : Type :=
| ESpawn (cmd : string) (args : list string) (cwd : option string)
| ESleep (ms : Z)
| EClear
| ESay (ch : Channel) (msg : string)
| EAsk (kind : PromptKind) (message : string)
| EReject (message : string)
| EExists (path : string)
| ECopyTemplate (targetDir : string)
| EReadFile (path : string)
| EWriteFile (path : string) (content : string)
| EApiClient (url key : string)
| EApiQuery.

(** One completed user interaction at a prompt. *)
Inductive Action : Type :=
| Cancel
| TypeText (value : string)
| Pick (index : nat)
| Answer (yes : bool).

(** What a subprocess reports.  [status = None] when there is no exit code
    (the executable could not be started, or a signal ended it); [stderr]
    then holds the spawn error's message. *)
Record SpawnResult : Type := mkSpawn {
  status : option Z;
  stdout : string;
  stderr : string
}.

Definition succeeded (r : SpawnResult) : bool :=
  match status r with
  | Some 0%Z => true
  | _ => false
  end.

(** A history lists the events so far, the most recent first. *)
Definition History : Type := list Event.

Record Env : Type := mkEnv {
  platform : string;                       (* process.platform *)
  argv : list string;                      (* process.argv.slice(2) *)
  proc : History -> string -> list string -> option string -> SpawnResult;
  existsSync : History -> string -> bool;
  copy_error : History -> string -> option string;
  read_file : History -> string -> string + string;   (* content, or the error *)
  write_error : History -> string -> string -> option string;
  JSON_parse : string -> ParseResult;
  JSON_stringify : JSON -> string;          (* JSON.stringify(v, null, 2) *)
  url_hostname : string -> option string;  (* new URL(s).hostname *)
  resolve_cwd : string -> string;          (* path.resolve(process.cwd(), s) *)
  random_password : History -> string;
  now : History -> Z                       (* Date.now() *)
}.

(** [path.join(dir, rel)] for a directory and a relative path in normal form. *)
Definition join (dir rel : string) : string := dir ++ "/" ++ rel.

(* ================================================================== *)
(** * Computations *)
(* ================================================================== *)

Inductive Outcome (A : Type) : Type :=
| Ret (a : A)             (* normal completion *)
| Throw (message : string) (* a thrown Error, by its message *)
| Exit (code : Z)         (* process.exit(code) *)
| OutOfFuel.              (* the recursion budget of the model ran out *)

Arguments Throw {A} message.
Arguments Exit {A} code.
Arguments OutOfFuel {A}.

Record Res (A : Type) : Type := mkRes {
  outcome : Outcome A;
  emitted : list Event;      (* the events of this computation, most recent first *)
  rest : list Action         (* the actions it left unread *)
}.

Definition M (A : Type) : Type := History -> list Action -> Res A.

Definition ret {A} (a : A) : M A := fun _ s => mkRes (Ret a) [] s.
Definition throw {A} (message : string) : M A := fun _ s => mkRes (Throw message) [] s.
Definition exit {A} (code : Z) : M A := fun _ s => mkRes (Exit code) [] s.
Definition out_of_fuel {A} : M A := fun _ s => mkRes OutOfFuel [] s.

Definition bind {A B} (m : M A) (f : A -> M B) : M B := fun h s =>
  let r := m h s in
  match outcome r with
  | Ret a =>
      let r' := f a (emitted r ++ h)%list (rest r) in
      mkRes (outcome r') (emitted r' ++ emitted r)%list (rest r')
  | Throw e => mkRes (Throw e) (emitted r) (rest r)
  | Exit c => mkRes (Exit c) (emitted r) (rest r)
  | OutOfFuel => mkRes OutOfFuel (emitted r) (rest r)
  end.

(** [try { m } catch (error) { handler(error.message) }] *)
Definition try_catch {A} (m : M A) (handler : string -> M A) : M A := fun h s =>
  let r := m h s in
  match outcome r with
  | Throw e =>
      let r' := handler e (emitted r ++ h)%list (rest r) in
      mkRes (outcome r') (emitted r' ++ emitted r)%list (rest r')
  | _ => r
  end.

Declare Scope comp_scope.
Delimit Scope comp_scope with comp.
Notation "x <- m ;; k" := (bind m (fun x => k))
  (at level 100, m at next level, right associativity) : comp_scope.
Notation "m ;; k" := (bind m (fun _ => k))
  (at level 100, right associativity) : comp_scope.
Open Scope comp_scope.

Definition emit (e : Event) : M unit := fun _ s => mkRes (Ret tt) [e] s.
Definition say (ch : Channel) (msg : string) : M unit := emit (ESay ch msg).
Definition sleep (ms : Z) : M unit := emit (ESleep ms).

(** [if (cond) { block }] where the block may return from the enclosing
    function: the block yields [Some r] to return [r], [None] to fall
    through to what follows. *)
Definition or_continue {A} (block : M (option A)) (k : M A) : M A :=
  r <- block ;;
  match r with
  | Some a => ret a
  | None => k
  end.

Section Primitives.
Variable env : Env.

(** [spawnSync] and [spawn] followed by waiting for [close]. *)
Definition spawn (cmd : string) (args : list string) (cwd : option string)
  : M SpawnResult :=
  fun h s => mkRes (Ret (proc env h cmd args cwd)) [ESpawn cmd args cwd] s.

Definition fs_exists (path : string) : M bool :=
  fun h s => mkRes (Ret (existsSync env h path)) [EExists path] s.

Definition readFile (path : string) : M string :=
  fun h s =>
    match read_file env h path with
    | inl content => mkRes (Ret content) [EReadFile path] s
    | inr e => mkRes (Throw e) [EReadFile path] s
    end.

Definition writeFile (path content : string) : M unit :=
  fun h s =>
    match write_error env h path content with
    | None => mkRes (Ret tt) [EWriteFile path content] s
    | Some e => mkRes (Throw e) [EWriteFile path content] s
    end.

(** [Date.now()] *)
Definition date_now : M Z := fun h s => mkRes (Ret (now env h)) [] s.

Definition json_parse (text : string) : M JSON :=
  match JSON_parse env text with
  | Parsed v => ret v
  | SyntaxError e => throw e
  end.

(** [new URL(url).hostname.split('.')[0]] *)
Definition hostname_label (url : string) : M string :=
  match url_hostname env url with
  | Some host => ret (hd "" (Js.split "." host))
  | None => throw "Invalid URL"
  end.

End Primitives.

(** Reading [k] off a parsed value, inside a [try]. *)
Definition get_prop (v : JSON) (k : string) : M JsVal :=
  match JsValue.prop v k with
  | Some x => ret x
  | None => throw ("Cannot read properties of null (reading '" ++ k ++ "')")
  end.

Fixpoint mapM {A B} (f : A -> M B) (l : list A) : M (list B) :=
  match l with
  | [] => ret []
  | a :: more => b <- f a ;; bs <- mapM f more ;; ret (b :: bs)
  end.

(** [array.filter(pred)] with a predicate that has effects. *)
Fixpoint filterM {A} (pred : A -> M bool) (l : list A) : M (list A) :=
  match l with
  | [] => ret []
  | a :: more =>
      keep <- pred a ;;
      kept <- filterM pred more ;;
      ret (if keep then a :: kept else kept)
  end.

(* ================================================================== *)
(** * The prompt library ([@clack/prompts])

    A prompt shows its message and reads the user's actions until one
    answers it.  An action of another kind is a keystroke the widget
    ignores; a text that fails validation is refused with its message and
    the prompt stays open.  [None] is the cancel symbol ([p.isCancel]);
    the end of the script closes the input, which cancels. *)
(* ================================================================== *)

Module Prompt.

Fixpoint read_text (validate : string -> option string) (s : list Action)
  : option string * list Event * list Action :=
  match s with
  | [] => (None, [], [])
  | Cancel :: s' => (None, [], s')
  | TypeText v :: s' =>
      match validate v with
      | None => (Some v, [], s')
      | Some complaint =>
          let '(r, ev, s'') := read_text validate s' in
          (r, ev ++ [EReject complaint], s'')
      end
  | _ :: s' => read_text validate s'
  end.

Definition text (message : string) (validate : string -> option string)
  : M (option string) := fun _ s =>
  let '(r, ev, s') := read_text validate s in
  mkRes (Ret r) (ev ++ [EAsk PText message]) s'.

Definition password (message : string) (validate : string -> option string)
  : M (option string) := fun _ s =>
  let '(r, ev, s') := read_text validate s in
  mkRes (Ret r) (ev ++ [EAsk PPassword message]) s'.

Fixpoint read_pick {V} (options : list (V * string)) (s : list Action)
  : option V * list Action :=
  match s with
  | [] => (None, [])
  | Cancel :: s' => (None, s')
  | Pick i :: s' =>
      match nth_error options i with
      | Some (v, _) => (Some v, s')
      | None => read_pick options s'
      end
  | _ :: s' => read_pick options s'
  end.

Definition select {V} (message : string) (options : list (V * string))
  : M (option V) := fun _ s =>
  let '(r, s') := read_pick options s in
  mkRes (Ret r) [EAsk PSelect message] s'.

Fixpoint read_answer (s : list Action) : option bool * list Action :=
  match s with
  | [] => (None, [])
  | Cancel :: s' => (None, s')
  | Answer b :: s' => (Some b, s')
  | _ :: s' => read_answer s'
  end.

Definition confirm (message : string) : M (option bool) := fun _ s =>
  let '(r, s') := read_answer s in
  mkRes (Ret r) [EAsk PConfirm message] s'.

End Prompt.

(* ================================================================== *)
(** * [constants.ts] and [types.ts] *)
(* ================================================================== *)

Module Constants.
Definition DEFAULT_PORT : Z := 3000.
Definition MIN_PORT : Z := 1.
Definition MAX_PORT : Z := 65535.
Definition MAX_PROJECT_WAIT_TIME_MS : Z := 300000.
Definition PROJECT_CHECK_INTERVAL_MS : Z := 10000.
Definition MIGRATION_RETRY_BASE_DELAY_MS : Z := 10000.
Definition MAX_MIGRATION_RETRIES : nat := 3.
Definition MIN_DB_PASSWORD_LENGTH : nat := 12.
Definition GENERATED_PASSWORD_LENGTH : nat := 20.
End Constants.
Import Constants.

Inductive PackageManager : Type := npm | pnpm | bun.

Definition pm_name (pm : PackageManager) : string :=
  match pm with
  | npm => "npm"
  | pnpm => "pnpm"
  | bun => "bun"
  end.

Record ProjectConfig : Type := mkConfig {
  projectName : string;
  supabaseUrl : string;
  supabaseAnonKey : string;
  supabaseServiceKey : string;
  targetDir : string;
  packageManager : PackageManager;
  port : option Z;
  dbPassword : option string
}.

(* ================================================================== *)
(** * [utils/detect-package-managers.ts] *)
(* ================================================================== *)

Module DetectPackageManagers.

Record PmOption : Type := mkOption {
  value : PackageManager;
  label : string;
  priority : Z
}.

Definition allOptions : list PmOption :=
  [ mkOption npm "npm (default)" 3;
    mkOption pnpm "pnpm (fast, efficient)" 1;
    mkOption bun "bun (fastest)" 2 ].

(** [array.sort((a, b) => a.priority - b.priority)]: a stable sort by
    ascending priority. *)
Fixpoint insert_by_priority (o : PmOption) (l : list PmOption) : list PmOption :=
  match l with
  | [] => [o]
  | x :: more =>
      if (priority x <=? priority o)%Z then x :: insert_by_priority o more
      else o :: l
  end.

Definition sort_by_priority (l : list PmOption) : list PmOption :=
  fold_right insert_by_priority [] l.

Section WithEnv.
Variable env : Env.

Definition isWindows : bool := platform env =? "win32".

Definition isPackageManagerInstalled (pm : PackageManager) : M bool :=
  if isWindows then
    result <- spawn env (pm_name pm) ["--version"] None ;;
    ret (succeeded result)
  else
    result <- spawn env "which" [pm_name pm] None ;;
    ret (succeeded result).

Definition getAvailablePackageManagers : M (list PmOption) :=
  if isWindows then
    available <- filterM (fun option =>
                   match value option with
                   | npm => ret true
                   | pm => isPackageManagerInstalled pm
                   end) allOptions ;;
    ret (sort_by_priority available)
  else
    available <- filterM (fun option => isPackageManagerInstalled (value option))
                   allOptions ;;
    ret (sort_by_priority available).

Definition no_package_manager : string :=
  "No package manager found. Please install npm, pnpm, or bun.".

Definition getDefaultPackageManager : M PackageManager :=
  available <- getAvailablePackageManagers ;;
  match available with
  | [] => throw no_package_manager
  | first :: _ => ret (value first)
  end.

End WithEnv.
End DetectPackageManagers.

(* ================================================================== *)
(** * [utils/copy-template.ts] *)
(* ================================================================== *)

Module CopyTemplate.

Definition nl : string := Js.nl.

(** The template literal of [writeEnvFile], hole by hole. *)
Definition env_head : string :=
  "# Supabase Configuration" ++ nl ++
  "# Get these from https://app.supabase.com/project/_/settings/api" ++ nl ++
  "NEXT_PUBLIC_SUPABASE_URL=".
Definition env_middle : string := nl ++ "NEXT_PUBLIC_SUPABASE_ANON_KEY=".
Definition env_tail : string :=
  nl ++ nl ++
  "# Note: Service role key NOT needed for runtime" ++ nl ++
  "# Only used during initial setup by create-supalite CLI" ++ nl.

Definition envContent (supabaseUrl supabaseAnonKey : string) : string :=
  env_head ++ supabaseUrl ++ env_middle ++ supabaseAnonKey ++ env_tail.

Definition getPackageManagerVersion (pm : PackageManager) : string :=
  pm_name pm ++ "@" ++
  match pm with
  | npm => "10.9.2"
  | pnpm => "9.15.4"
  | bun => "1.2.0"
  end.

(** [obj.k = v] on a parsed object: the field is replaced where it stands,
    or added at the end. *)
Fixpoint set_field (k : string) (v : JSON) (fields : list (string * JSON))
  : list (string * JSON) :=
  match fields with
  | [] => [(k, v)]
  | (k', v') :: more =>
      if k' =? k then (k, v) :: more else (k', v') :: set_field k v more
  end.

Section WithEnv.
Variable env : Env.

(** [mkdir] and [cp] of the template tree; the copy is one event. *)
Definition copyTemplate (targetDir : string) : M unit :=
  fun h s =>
    match copy_error env h targetDir with
    | None => mkRes (Ret tt) [ECopyTemplate targetDir] s
    | Some e => mkRes (Throw e) [ECopyTemplate targetDir] s
    end.

Definition writeEnvFile (targetDir supabaseUrl supabaseAnonKey : string) : M unit :=
  writeFile env (join targetDir ".env.local") (envContent supabaseUrl supabaseAnonKey).

(** The descriptor of the template is a JSON object with a [scripts]
    object; assigning a property on anything else raises. *)
Definition setPackageManager (targetDir : string) (pm : PackageManager)
           (port : option Z) : M unit :=
  let packageJsonPath := join targetDir "package.json" in
  packageJsonContent <- readFile env packageJsonPath ;;
  packageJson <- json_parse env packageJsonContent ;;
  match packageJson with
  | JObj fields =>
      let fields1 := set_field "packageManager" (JStr (getPackageManagerVersion pm)) fields in
      fields2 <-
        match port with
        | Some p =>
            if negb (p =? 0)%Z && negb (p =? DEFAULT_PORT)%Z then
              match JsValue.lookup "scripts" fields1 with
              | Some (JObj scripts) =>
                  let scripts1 := set_field "dev" (JStr ("next dev -p " ++ Js.string_of_Z p)) scripts in
                  let scripts2 := set_field "start" (JStr ("next start -p " ++ Js.string_of_Z p)) scripts1 in
                  ret (set_field "scripts" (JObj scripts2) fields1)
              | _ => throw "Cannot set properties of undefined (setting 'dev')"
              end
            else ret fields1
        | None => ret fields1
        end ;;
      writeFile env packageJsonPath (JSON_stringify env (JObj fields2) ++ nl)
  | _ => throw "Cannot create property 'packageManager'"
  end.

End WithEnv.
End CopyTemplate.

(* ================================================================== *)
(** * [utils/install-deps.ts] *)
(* ================================================================== *)

Module InstallDeps.
Section WithEnv.
Variable env : Env.

Definition installDependencies (targetDir : string) (pm : PackageManager) : M unit :=
  child <- spawn env (pm_name pm) ["install"] (Some targetDir) ;;
  match status child with
  | None => throw ("Failed to run " ++ pm_name pm ++ ": " ++ stderr child)
  | Some code =>
      if (code =? 0)%Z then ret tt
      else throw (pm_name pm ++ " install failed")
  end.

End WithEnv.
End InstallDeps.

(* ================================================================== *)
(** * [utils/supabase-setup.ts]: the migration applier *)
(* ================================================================== *)

Module SupabaseSetup.

Inductive Method : Type := cli | api | manual.

Definition migration_file : string :=
  "supabase/migrations/20250101000000_initial_schema.sql".

(** The lookahead [(?![^$]*\$\$)]: after any run of characters other than
    a dollar sign come two dollar signs. *)
Fixpoint dollar_block_ahead (s : string) : bool :=
  match s with
  | EmptyString => false
  | String "$" (String "$" _) => true
  | String "$" _ => false
  | String _ s' => dollar_block_ahead s'
  end.

(** [sql.split(/;(?![^$]*\$\$)/g)] *)
Fixpoint split_statements (s : string) : list string :=
  match s with
  | EmptyString => [""]
  | String c s' =>
      if (c =? ";")%char && negb (dollar_block_ahead s') then "" :: split_statements s'
      else match split_statements s' with
           | h :: t => String c h :: t
           | [] => [String c ""]
           end
  end.

Definition statements_of (migrationSQL : string) : list string :=
  filter (fun s => negb (String.length s =? 0)%nat && negb (Js.startsWith s "--"))
         (map Js.trim (split_statements migrationSQL)).

Definition isProvisioningIssue (errorOutput : string) : bool :=
  Js.includes errorOutput "Tenant or user not found"
  || Js.includes errorOutput "no route to host".

Section WithEnv.
Variable env : Env.

Definition hasSupabaseCLI : M bool :=
  result <- spawn env "supabase" ["--version"] None ;;
  ret (succeeded result).

(** One activation of [applyMigrationsViaCLI]; [self] is the function
    itself, for the retry. *)
Definition applyMigrationsViaCLI_body (self : nat -> M unit)
           (targetDir projectRef dbPassword : string) (retryCount : nat) : M unit :=
  (* Step 1: link the project *)
  link <- spawn env "supabase"
            ["link"; "--project-ref"; projectRef; "--password"; dbPassword]
            (Some targetDir) ;;
  if negb (succeeded link) then throw "Failed to link project"
  else
    (* Step 2: push the migrations *)
    push <- spawn env "supabase" ["db"; "push"] (Some targetDir) ;;
    if succeeded push then ret tt
    else
      let errorOutput := stderr push in
      if isProvisioningIssue errorOutput && (retryCount <? MAX_MIGRATION_RETRIES)%nat then
        let delayMs := (Z.of_nat (retryCount + 1) * MIGRATION_RETRY_BASE_DELAY_MS)%Z in
        sleep delayMs ;;
        self (retryCount + 1)%nat
      else throw ("Migration push failed: " ++ errorOutput).

Fixpoint applyMigrationsViaCLI_rec (fuel : nat)
         (targetDir projectRef dbPassword : string) (retryCount : nat) : M unit :=
  match fuel with
  | O => out_of_fuel
  | S fuel' =>
      applyMigrationsViaCLI_body
        (applyMigrationsViaCLI_rec fuel' targetDir projectRef dbPassword)
        targetDir projectRef dbPassword retryCount
  end.

(** The retry counter only grows and stops the recursion at
    [MAX_MIGRATION_RETRIES], which bounds the depth. *)
Definition applyMigrationsViaCLI (targetDir projectRef dbPassword : string)
           (retryCount : nat) : M unit :=
  applyMigrationsViaCLI_rec (S (MAX_MIGRATION_RETRIES - retryCount))
    targetDir projectRef dbPassword retryCount.

Fixpoint execute_statements (statements : list string) : M unit :=
  match statements with
  | [] => ret tt
  | statement :: more =>
      if negb (Js.truthy statement) then execute_statements more
      else
        emit EApiQuery ;;
        throw "Direct SQL execution not supported via API"
  end.

Definition applyMigrationsViaAPI (supabaseUrl serviceKey migrationSQL : string) : M unit :=
  emit (EApiClient supabaseUrl serviceKey) ;;
  execute_statements (statements_of migrationSQL).

Definition applyMigrations (targetDir supabaseUrl serviceKey : string)
           (dbPassword : option string) : M Method :=
  let migrationPath := join targetDir migration_file in
  migrationSQL <- readFile env migrationPath ;;
  projectRef <- hostname_label env supabaseUrl ;;
  hasCLI <- hasSupabaseCLI ;;
  match dbPassword with
  | Some password =>
      if hasCLI && Js.truthy password then
        applied <- try_catch
                     (applyMigrationsViaCLI targetDir projectRef password 0 ;; ret true)
                     (fun _ => ret false) ;;
        if applied then ret cli else ret manual
      else ret manual
  | None => ret manual
  end.

Definition generateTypes (targetDir projectRef : string) : M bool :=
  hasCLI <- hasSupabaseCLI ;;
  if negb hasCLI then ret false
  else
    child <- spawn env "supabase"
               ["gen"; "types"; "typescript"; "--project-id"; projectRef]
               (Some targetDir) ;;
    if succeeded child && Js.truthy (stdout child) then
      try_catch
        (writeFile env (join targetDir "lib/types/database.ts") (stdout child) ;; ret true)
        (fun _ => ret false)
    else ret false.

End WithEnv.
End SupabaseSetup.

(* ================================================================== *)
(** * [utils/supabase-cli.ts]: the platform CLI adapter *)
(* ================================================================== *)

Module SupabaseCli.

Record SupabaseOrganization : Type := mkOrg {
  org_id : JsVal;
  org_name : JsVal
}.

Record SupabaseProject : Type := mkProject {
  id : JsVal;
  name : JsVal;
  organization_id : JsVal;
  region : JsVal;
  created_at : JsVal
}.

Record ProjectCredentials : Type := mkCredentials {
  url : string;
  anonKey : string;
  serviceKey : string
}.

Inductive OS : Type := macos | linux | windows | unknown.

Definition os_name (os : OS) : string :=
  match os with
  | macos => "macos"
  | linux => "linux"
  | windows => "windows"
  | unknown => "unknown"
  end.

Definition linux_install_command : string :=
  "curl -fsSL https://github.com/supabase/cli/releases/latest/download/supabase_linux_amd64.tar.gz | tar -xz && (sudo mv supabase /usr/local/bin/ 2>/dev/null || (mkdir -p ~/.local/bin && mv supabase ~/.local/bin/ && export PATH=" ++ Js.dquote ++ "$HOME/.local/bin:$PATH" ++ Js.dquote ++ "))".

Definition linux_manual_install_command : string :=
  "curl -fsSL https://github.com/supabase/cli/releases/latest/download/supabase_linux_amd64.tar.gz | tar -xz && (sudo mv supabase /usr/local/bin/ 2>/dev/null || (mkdir -p ~/.local/bin && mv supabase ~/.local/bin/))".

(** The PowerShell script of [installViaWindows]: its lines joined by a space. *)
Definition windows_install_script : string :=
  String.concat " "
    [ "$ProgressPreference = " ++ Js.dquote ++ "SilentlyContinue" ++ Js.dquote ++ ";";
      "$url = " ++ Js.dquote ++ "https://github.com/supabase/cli/releases/latest/download/supabase_windows_amd64.tar.gz" ++ Js.dquote ++ ";";
      "$tempDir = " ++ Js.dquote ++ "$env:TEMP\supabase-install" ++ Js.dquote ++ ";";
      "$tarFile = " ++ Js.dquote ++ "$tempDir\supabase.tar.gz" ++ Js.dquote ++ ";";
      "$installDir = " ++ Js.dquote ++ "$env:USERPROFILE\.local\bin" ++ Js.dquote ++ ";";
      "Write-Host " ++ Js.dquote ++ "Downloading Supabase CLI..." ++ Js.dquote ++ ";";
      "New-Item -ItemType Directory -Force -Path $tempDir | Out-Null;";
      "New-Item -ItemType Directory -Force -Path $installDir | Out-Null;";
      "try {";
      "  Invoke-WebRequest -Uri $url -OutFile $tarFile -UseBasicParsing;";
      "  Write-Host " ++ Js.dquote ++ "Extracting..." ++ Js.dquote ++ ";";
      "  tar -xzf $tarFile -C $tempDir;";
      "  Copy-Item " ++ Js.dquote ++ "$tempDir\supabase.exe" ++ Js.dquote ++ " -Destination " ++ Js.dquote ++ "$installDir\supabase.exe" ++ Js.dquote ++ " -Force;";
      "  Write-Host " ++ Js.dquote ++ "Installation complete" ++ Js.dquote ++ ";";
      "  exit 0;";
      "} catch {";
      "  Write-Host " ++ Js.dquote ++ "Installation failed: $_" ++ Js.dquote ++ ";";
      "  exit 1;";
      "}" ]%string.

Definition getAvailableRegions : list (string * string) :=
  [ ("us-east-1", "US East (North Virginia)");
    ("us-west-1", "US West (North California)");
    ("ap-southeast-1", "Asia Pacific (Singapore)");
    ("ap-northeast-1", "Asia Pacific (Tokyo)");
    ("eu-west-1", "Europe (Ireland)");
    ("eu-central-1", "Europe (Frankfurt)") ].

(** The table format of older CLI versions: one organization per line that
    has a pipe and is neither a separator nor, by its text, a header. *)
Definition is_table_row (line : string) : bool :=
  Js.includes line "|"
  && negb (Js.includes line "---")
  && negb (Js.includes (Js.toUpperCase line) "ID")
  && negb (Js.includes (Js.toUpperCase line) "NAME").

Definition parse_table_line (line : string) : list SupabaseOrganization :=
  if is_table_row line then
    match map Js.trim (Js.split "|" line) with
    | part0 :: part1 :: _ =>
        if Js.truthy part0 && Js.truthy part1
        then [mkOrg (Some (JStr part0)) (Some (JStr part1))]
        else []
    | _ => []
    end
  else [].

Definition parse_table (output : string) : list SupabaseOrganization :=
  flat_map parse_table_line (Js.split "010" output).

(** [orgs.map((org) => ({ id: org.id, name: org.name }))] *)
Definition org_of_json (org : JSON) : M SupabaseOrganization :=
  i <- get_prop org "id" ;;
  n <- get_prop org "name" ;;
  ret (mkOrg i n).

Definition project_of_json (project : JSON) : M SupabaseProject :=
  i <- get_prop project "id" ;;
  n <- get_prop project "name" ;;
  o <- get_prop project "organization_id" ;;
  r <- get_prop project "region" ;;
  c <- get_prop project "created_at" ;;
  ret (mkProject i n o r c).

(** [apiKeys.find((key) => key.name === wanted)?.api_key] *)
Fixpoint find_api_key (wanted : string) (apiKeys : list JSON) : M JsVal :=
  match apiKeys with
  | [] => ret None
  | key :: more =>
      n <- get_prop key "name" ;;
      match n with
      | Some (JStr s) =>
          if s =? wanted then get_prop key "api_key" else find_api_key wanted more
      | _ => find_api_key wanted more
      end
  end.

Section WithEnv.
Variable env : Env.

Definition hasSupabaseCLI : M bool :=
  result <- spawn env "supabase" ["--version"] None ;;
  ret (succeeded result).

Definition isAuthenticated : M bool :=
  result <- spawn env "supabase" ["projects"; "list"] None ;;
  ret (succeeded result).

Definition detectOS : OS :=
  if platform env =? "darwin" then macos
  else if platform env =? "linux" then linux
  else if platform env =? "win32" then windows
  else unknown.

Definition installViaBrew : M bool :=
  child <- spawn env "brew" ["install"; "supabase/tap/supabase"] None ;;
  ret (succeeded child).

Definition installViaDirectDownload : M bool :=
  child <- spawn env "sh" ["-c"; linux_manual_install_command] None ;;
  ret (succeeded child).

Definition installViaWindows : M bool :=
  child <- spawn env "powershell" ["-Command"; windows_install_script] None ;;
  ret (succeeded child).

Definition run_installer (os : OS) (command : string) (args : list string) : M bool :=
  child <- spawn env command args None ;;
  if succeeded child then ret true
  else
    (match os with
     | linux =>
         say LogError "" ;;
         say LogError "Automatic installation failed. You can install manually:" ;;
         say LogInfo "" ;;
         say LogInfo "  curl -fsSL https://github.com/supabase/cli/releases/latest/download/supabase_linux_amd64.tar.gz | tar -xz" ;;
         say LogInfo "  sudo mv supabase /usr/local/bin/" ;;
         say LogInfo "" ;;
         say LogInfo "Or continue with manual setup below." ;;
         say LogInfo ""
     | _ => ret tt
     end) ;;
    ret false.

Definition installCLI : M bool :=
  let os := detectOS in
  say LogInfo "Installing Supabase CLI..." ;;
  match os with
  | macos =>
      brew <- spawn env "which" ["brew"] None ;;
      if negb (succeeded brew) then
        say LogError "Homebrew is not installed. Please install Homebrew first:" ;;
        say LogInfo ("/bin/bash -c " ++ Js.dquote ++ "$(curl -fsSL https://raw.githubusercontent.com/Homebrew/install/HEAD/install.sh)" ++ Js.dquote) ;;
        ret false
      else run_installer os "brew" ["install"; "supabase/tap/supabase"]
  | linux => run_installer os "sh" ["-c"; linux_install_command]
  | windows => installViaWindows
  | unknown =>
      say LogError "Unsupported operating system" ;;
      ret false
  end.

Definition installCLIManual : M bool :=
  match detectOS with
  | macos => installViaBrew
  | linux => installViaDirectDownload
  | windows => installViaWindows
  | unknown => ret false
  end.

Definition login : M bool :=
  say LogInfo "Opening browser for authentication..." ;;
  child <- spawn env "supabase" ["login"] None ;;
  ret (succeeded child).

Definition parse_failure : string := "Failed to parse organizations list".

Definition getOrganizations : M (list SupabaseOrganization) :=
  result <- spawn env "supabase" ["orgs"; "list"; "--output"; "json"] None ;;
  if negb (succeeded result) then
    throw ("Failed to get organizations: " ++ stderr result)
  else
    let output := Js.trim (stdout result) in
    (* Try parsing as JSON first *)
    fromJson <- try_catch
                  (orgs <- json_parse env output ;;
                   match orgs with
                   | JArr items => mapped <- mapM org_of_json items ;; ret (Some mapped)
                   | _ => ret None
                   end)
                  (fun _ => ret None) ;;
    match fromJson with
    | Some orgs => ret orgs
    | None =>
        (* Parse table format *)
        let orgs := parse_table output in
        match orgs with
        | [] => throw parse_failure
        | _ => ret orgs
        end
    end.

Definition listProjects : M (list SupabaseProject) :=
  result <- spawn env "supabase" ["projects"; "list"; "--output"; "json"] None ;;
  if negb (succeeded result) then
    throw ("Failed to list projects: " ++ stderr result)
  else
    try_catch
      (projects <- json_parse env (stdout result) ;;
       match projects with
       | JArr items => mapM project_of_json items
       | _ => throw "projects.map is not a function"
       end)
      (fun _ => throw "Failed to parse projects list").

(** [Array.from({ length: GENERATED_PASSWORD_LENGTH }, ...).join('')]: the
    random characters are the environment's. *)
Definition generate_password : M string :=
  fun h s => mkRes (Ret (random_password env h)) [] s.

Definition createProject (name orgId region : string) (dbPassword : option string)
  : M SupabaseProject :=
  password <- match dbPassword with
              | Some p => if Js.truthy p then ret p else generate_password
              | None => generate_password
              end ;;
  result <- spawn env "supabase"
              ["projects"; "create"; name; "--org-id"; orgId;
               "--db-password"; password; "--region"; region;
               "--output"; "json"] None ;;
  if negb (succeeded result) then
    let errorMsg := Js.or_else (stderr result) (Js.or_else (stdout result) "Unknown error") in
    throw ("Failed to create project: " ++ errorMsg)
  else
    try_catch
      (project <- json_parse env (stdout result) ;;
       project_of_json project)
      (fun message => throw ("Failed to parse project creation response: " ++ message)).

Definition getProjectCredentials (projectRef : string) : M ProjectCredentials :=
  result <- spawn env "supabase"
              ["projects"; "api-keys"; "--project-ref"; projectRef; "--output"; "json"]
              None ;;
  if negb (succeeded result) then
    throw ("Failed to get project credentials: " ++ Js.or_else (stderr result) (stdout result))
  else
    try_catch
      (apiKeys <- json_parse env (stdout result) ;;
       match apiKeys with
       | JArr keys =>
           anon <- find_api_key "anon" keys ;;
           service <- find_api_key "service_role" keys ;;
           if negb (JsValue.truthy anon) || negb (JsValue.truthy service) then
             throw "Could not find required API keys"
           else
             ret (mkCredentials ("https://" ++ projectRef ++ ".supabase.co")
                                (JsValue.to_string anon) (JsValue.to_string service))
       | _ => throw "apiKeys.find is not a function"
       end)
      (fun message =>
         if Js.includes message "required API keys" then throw message
         else throw ("Failed to parse project credentials: " ++ message)).

(** The interval timer of [waitForProjectReady]: a check every
    [PROJECT_CHECK_INTERVAL_MS], the probe itself taking no time, so that
    the [checkCount]-th check sees [checkCount] intervals elapsed. *)
Fixpoint poll_ready (ticks : nat) (projectRef : string) (maxWaitTime : Z)
         (checkCount : Z) : M bool :=
  match ticks with
  | O => ret false
  | S ticks' =>
      sleep PROJECT_CHECK_INTERVAL_MS ;;
      let checkCount := (checkCount + 1)%Z in
      result <- spawn env "supabase" ["projects"; "api-keys"; "--project-ref"; projectRef] None ;;
      if succeeded result then
        say SpinnerStop "Project is ready!" ;;
        ret true
      else if (checkCount * PROJECT_CHECK_INTERVAL_MS >? maxWaitTime)%Z then
        say SpinnerStop "Project provisioning timed out" ;;
        ret false
      else poll_ready ticks' projectRef maxWaitTime checkCount
  end.

Definition waitForProjectReady (projectRef : string) : M bool :=
  say SpinnerStart "Waiting for project to be ready (this may take a few minutes)..." ;;
  poll_ready (S (Z.to_nat (MAX_PROJECT_WAIT_TIME_MS / PROJECT_CHECK_INTERVAL_MS)))
    projectRef MAX_PROJECT_WAIT_TIME_MS 0.

End WithEnv.
End SupabaseCli.

(* ================================================================== *)
(** * [create-project.ts]: the materializer *)
(* ================================================================== *)

Module CreateProject.
Import SupabaseSetup.
Section WithEnv.
Variable env : Env.

Definition typeCommand (pm : PackageManager) : string :=
  match pm with
  | npm => "npm run db:types"
  | _ => pm_name pm ++ " db:types"
  end.

(** The body of the [try] block: steps 1 to 6. *)
Definition pipeline (config : ProjectConfig) : M unit :=
  (* Step 1: copy template *)
  say SpinnerStart "Creating project directory" ;;
  CopyTemplate.copyTemplate env (targetDir config) ;;
  say SpinnerStop "Project directory created" ;;
  (* Step 2: set package manager and port *)
  CopyTemplate.setPackageManager env (targetDir config) (packageManager config) (port config) ;;
  (* Step 3: write env file *)
  say SpinnerStart "Writing environment variables" ;;
  CopyTemplate.writeEnvFile env (targetDir config) (supabaseUrl config) (supabaseAnonKey config) ;;
  say SpinnerStop "Environment variables written" ;;
  (* Step 4: apply migrations *)
  say SpinnerStart "Applying database migrations" ;;
  migrationResult <- applyMigrations env (targetDir config) (supabaseUrl config)
                       (supabaseServiceKey config) (dbPassword config) ;;
  (match migrationResult with
   | manual =>
       say SpinnerStop "Database migrations require manual setup" ;;
       say (Note "Manual Migration Required")
           ("Please run the SQL in " ++ migration_file ++ " in your Supabase dashboard")
   | cli => say SpinnerStop "Database migrations applied (CLI)"
   | api => say SpinnerStop "Database migrations applied (API)"
   end) ;;
  (* Step 5: generate types *)
  say SpinnerStart "Generating types" ;;
  projectRef <- try_catch
                  (ref <- hostname_label env (supabaseUrl config) ;;
                   if negb (Js.truthy ref) then throw "Invalid project reference"
                   else ret ref)
                  (fun _ =>
                     say SpinnerStop "Types generation skipped (invalid Supabase URL)" ;;
                     ret "") ;;
  typesGenerated <- (if Js.truthy projectRef
                     then generateTypes env (targetDir config) projectRef
                     else ret false) ;;
  (if negb typesGenerated then
     say SpinnerStop "Types generation skipped (template includes placeholder)" ;;
     say (Note "Type Generation")
         ("Run " ++ typeCommand (packageManager config) ++
          " after installing dependencies to generate types")
   else say SpinnerStop "Types generated") ;;
  (* Step 6: install dependencies *)
  say SpinnerStart "Installing dependencies" ;;
  InstallDeps.installDependencies env (targetDir config) (packageManager config) ;;
  say SpinnerStop "Dependencies installed" ;;
  say (Note "Security Note") "Service role key was used for setup only and was not saved".

Definition createProject (config : ProjectConfig) : M unit :=
  present <- fs_exists env (targetDir config) ;;
  (if present then
     overwrite <- Prompt.confirm
                    ("Directory " ++ projectName config ++ " already exists. Overwrite?") ;;
     match overwrite with
     | Some true => ret tt
     | _ => say CancelMsg "Operation cancelled" ;; exit 0
     end
   else ret tt) ;;
  try_catch (pipeline config)
            (fun error => say SpinnerStop "Setup failed" ;; throw error).

End WithEnv.
End CreateProject.

(* ================================================================== *)
(** * Input validation shared by the prompts *)
(* ================================================================== *)

Module Validate.

Definition is_name_char (c : ascii) : bool :=
  Js.is_lower c || Js.is_digit c || (c =? "-")%char.

(** [/^[a-z0-9-]+$/.test(s)] *)
Definition matches_name_pattern (s : string) : bool :=
  Js.truthy s && Js.all_chars is_name_char s.

Definition name_required : string := "Project name is required".
Definition name_malformed : string :=
  "Project name must be lowercase alphanumeric with hyphens".

(** The [validate] callback of the name prompts of [handleProjectCreation]
    and [handleExistingProject]. *)
Definition project_name (value : string) : option string :=
  if negb (Js.truthy value) then Some name_required
  else if negb (matches_name_pattern value) then Some name_malformed
  else None.

(** The [validate] callback of the name prompt of [collectProjectInfo]. *)
Definition local_project_name (value : string) : option string :=
  if negb (Js.truthy value) then Some name_required
  else
    let trimmed := Js.trim value in
    if negb (matches_name_pattern trimmed) then Some name_malformed
    else None.

Definition port_text (value : string) : option string :=
  match Js.parseInt value with
  | None => Some "Port must be a number"
  | Some port =>
      if (port <? MIN_PORT)%Z || (port >? MAX_PORT)%Z
      then Some ("Port must be between " ++ Js.string_of_Z MIN_PORT ++ " and "
                 ++ Js.string_of_Z MAX_PORT)%string
      else None
  end.

Definition db_password (value : string) : option string :=
  if negb (Js.truthy value) then Some "Password is required"
  else if (String.length value <? MIN_DB_PASSWORD_LENGTH)%nat
  then Some ("Password must be at least "
             ++ Js.string_of_Z (Z.of_nat MIN_DB_PASSWORD_LENGTH) ++ " characters")%string
  else None.

Definition supabase_url (value : string) : option string :=
  if negb (Js.truthy value) then Some "Supabase URL is required"
  else if negb (Js.startsWith value "https://") || negb (Js.includes value "supabase.co")
  then Some "Must be a valid Supabase URL (https://xxxxx.supabase.co)"
  else None.

Definition api_key (required : string) (value : string) : option string :=
  if negb (Js.truthy value) then Some required
  else if (String.length value <? 100)%nat then Some "Key appears invalid (too short)"
  else None.

End Validate.

(* ================================================================== *)
(** * [prompts/collect-info.ts]: manual credentials *)
(* ================================================================== *)

Module CollectInfo.
Import DetectPackageManagers.

Fixpoint take_non_dot (s : string) : string * string :=
  match s with
  | EmptyString => ("", "")
  | String c s' =>
      if (c =? ".")%char then ("", s)
      else let '(run, tail) := take_non_dot s' in (String c run, tail)
  end.

Definition project_ref_at (s : string) : option string :=
  if String.prefix "https://" s then
    let '(run, tail) := take_non_dot (String.substring 8 (String.length s - 8) s) in
    if Js.truthy run && String.prefix ".supabase.co" tail then Some run else None
  else None.

(** [url.match(/https:\/\/([^.]+)\.supabase\.co/)], the captured group. *)
Fixpoint match_project_ref (s : string) : option string :=
  match project_ref_at s with
  | Some ref => Some ref
  | None =>
      match s with
      | EmptyString => None
      | String _ s' => match_project_ref s'
      end
  end.

Definition pm_choices (available : list PmOption) : list (PackageManager * string) :=
  map (fun o => (value o, label o)) available.

Section WithEnv.
Variable env : Env.

Definition setup_guide : string :=
  "Manual setup requires your Supabase project credentials." ++ Js.nl ++ Js.nl ++
  "If you don't have a project yet:" ++ Js.nl ++
  "  1. Go to https://supabase.com/dashboard" ++ Js.nl ++
  "  2. Click " ++ Js.dquote ++ "New project" ++ Js.dquote ++ Js.nl ++
  "  3. Fill in the details and create it" ++ Js.nl ++
  "  4. Come back here with your credentials".

Definition collectProjectInfo (initialProjectName : option string)
  : M (option ProjectConfig) :=
  say Intro "supalite" ;;
  say (Note "Setup Guide") setup_guide ;;
  projectName <- Prompt.text "Project name (for your local folder):"
                   Validate.local_project_name ;;
  match projectName with
  | None => say CancelMsg "Operation cancelled" ;; ret None
  | Some projectName =>
  let trimmedProjectName := Js.trim projectName in
  say LogInfo "" ;;
  say LogInfo "Next: Find your project URL" ;;
  say LogInfo "  1. Go to https://supabase.com/dashboard" ;;
  say LogInfo "  2. Select your project" ;;
  say LogInfo "  3. Scroll down on the project home page" ;;
  say LogInfo ("  4. Copy the " ++ Js.dquote ++ "Project URL" ++ Js.dquote ++
               " (looks like https://xxxxx.supabase.co)") ;;
  say LogInfo "" ;;
  supabaseUrl <- Prompt.text "Supabase project URL:" Validate.supabase_url ;;
  match supabaseUrl with
  | None => say CancelMsg "Operation cancelled" ;; ret None
  | Some supabaseUrl =>
  let projectRef := match_project_ref supabaseUrl in
  say LogInfo "" ;;
  say LogInfo "Next: Find your anon key" ;;
  say LogInfo "  Scroll down on the project home page" ;;
  say LogInfo "  Copy the anon key (it's right below the Project URL)" ;;
  say LogInfo "" ;;
  supabaseAnonKey <- Prompt.text "Supabase anon key (starts with eyJh...):"
                       (Validate.api_key "Anon key is required") ;;
  match supabaseAnonKey with
  | None => say CancelMsg "Operation cancelled" ;; ret None
  | Some supabaseAnonKey =>
  (match projectRef with
   | Some ref =>
       say LogInfo "" ;;
       say LogInfo "Next: Find your service_role key" ;;
       say LogInfo ("  Go to: https://supabase.com/dashboard/project/" ++ ref ++ "/settings/api-keys") ;;
       say LogInfo ("  Click the " ++ Js.dquote ++ "Legacy API Keys" ++ Js.dquote ++ " tab") ;;
       say LogInfo "  Copy the service_role key" ;;
       say LogInfo ""
   | None =>
       say LogInfo "" ;;
       say LogInfo "Next: Find your service_role key" ;;
       say LogInfo "  1. Go to Project Settings > API Keys" ;;
       say LogInfo ("  2. Click the " ++ Js.dquote ++ "Legacy API Keys" ++ Js.dquote ++ " tab") ;;
       say LogInfo "  3. Copy the service_role key" ;;
       say LogInfo ""
   end) ;;
  supabaseServiceKey <- Prompt.text "Supabase service_role key:"
                          (Validate.api_key "Service role key is required for setup") ;;
  match supabaseServiceKey with
  | None => say CancelMsg "Operation cancelled" ;; ret None
  | Some supabaseServiceKey =>
  availablePackageManagers <- getAvailablePackageManagers env ;;
  match availablePackageManagers with
  | [] => say CancelMsg no_package_manager ;; ret None
  | _ =>
  initialValue <- getDefaultPackageManager env ;;
  packageManager <- Prompt.select "Package manager:" (pm_choices availablePackageManagers) ;;
  match packageManager with
  | None => say CancelMsg "Operation cancelled" ;; ret None
  | Some packageManager =>
  portInput <- Prompt.text "Dev server port:" Validate.port_text ;;
  match portInput with
  | None => say CancelMsg "Operation cancelled" ;; ret None
  | Some portInput =>
  let targetDir := resolve_cwd env trimmedProjectName in
  ret (Some (mkConfig trimmedProjectName supabaseUrl supabaseAnonKey supabaseServiceKey
                      targetDir packageManager (Js.parseInt portInput) None))
  end end end end end end end.

End WithEnv.
End CollectInfo.

(* ================================================================== *)
(** * [prompts/setup-method.ts]: the interactive flow controller *)
(* ================================================================== *)

Module SetupMethod.
Import DetectPackageManagers SupabaseCli.

Inductive MethodTag : Type := cli_auto | manual | cancelled.

Record SetupResult : Type := mkResult {
  config : option ProjectConfig;
  method : MethodTag
}.

Definition cancelled_result : SetupResult := mkResult None cancelled.

Inductive Choice : Type :=
| install | manual_credentials | cancel_setup
| do_login | retry | create | existing.

(** [existingProjects.find((p) => p.name.toLowerCase() === name.toLowerCase())] *)
Fixpoint find_duplicate (existingProjects : list SupabaseProject) (projectNameInput : string)
  : M (option SupabaseProject) :=
  match existingProjects with
  | [] => ret None
  | p :: more =>
      match name p with
      | Some (JStr n) =>
          if Js.toLowerCase n =? Js.toLowerCase projectNameInput then ret (Some p)
          else find_duplicate more projectNameInput
      | _ => throw "p.name.toLowerCase is not a function"
      end
  end.

Definition isProjectLimitError (errorMessage : string) : bool :=
  Js.includes errorMessage "maximum limits"
  || Js.includes errorMessage "project limit"
  || Js.includes errorMessage "free projects".

Definition initial_or_default (initialProjectName : option string) : string :=
  match initialProjectName with
  | Some n => Js.or_else n "my-app"
  | None => "my-app"
  end.

Section WithEnv.
Variable env : Env.

Definition collectProjectInfo := CollectInfo.collectProjectInfo env.

(** The trailing prompts shared by both branches: package manager and
    port, then the finished configuration. *)
Definition finish (projectNameInput : string) (credentials : ProjectCredentials)
           (dbPassword : option string) : M SetupResult :=
  availablePackageManagers <- getAvailablePackageManagers env ;;
  match availablePackageManagers with
  | [] => say CancelMsg no_package_manager ;; ret cancelled_result
  | _ =>
  initialValue <- getDefaultPackageManager env ;;
  packageManager <- Prompt.select "Package manager:"
                      (CollectInfo.pm_choices availablePackageManagers) ;;
  match packageManager with
  | None => say CancelMsg "Operation cancelled" ;; ret cancelled_result
  | Some packageManager =>
  portInput <- Prompt.text "Dev server port:" Validate.port_text ;;
  match portInput with
  | None => say CancelMsg "Operation cancelled" ;; ret cancelled_result
  | Some portInput =>
  let targetDir := resolve_cwd env projectNameInput in
  ret (mkResult
         (Some (mkConfig projectNameInput (url credentials) (anonKey credentials)
                         (serviceKey credentials) targetDir packageManager
                         (Js.parseInt portInput) dbPassword))
         cli_auto)
  end end end.

(** [handleProjectCreation] from the duplicate check on (lines 428-541),
    with the answers to the four prompts before it. *)
Definition check_and_create (projectNameInput : string) (selectedOrgId : JsVal)
           (regionChoice dbPassword : string) : M SetupResult :=
  (* Check for duplicate project name *)
  say SpinnerStart "Checking for duplicate project names..." ;;
  existingProjects <- listProjects env ;;
  duplicateProject <- find_duplicate existingProjects projectNameInput ;;
  match duplicateProject with
  | Some _ =>
      say SpinnerStop "" ;;
      say LogError ("A project named " ++ Js.dquote ++ projectNameInput ++ Js.dquote ++
                    " already exists in your organization.") ;;
      say LogInfo "Please delete it from the Supabase dashboard or choose a different name." ;;
      ret cancelled_result
  | None =>
  say SpinnerStop "" ;;
  (* Create the project *)
  say SpinnerStart "Creating Supabase project..." ;;
  project <- try_catch
               (created <- createProject env projectNameInput
                             (JsValue.to_string selectedOrgId) regionChoice
                             (Some dbPassword) ;;
                say SpinnerStop "Project created!" ;;
                ret created)
               (fun error => say SpinnerStop "" ;; throw error) ;;
  (* Wait for project to be ready *)
  isReady <- waitForProjectReady env (JsValue.to_string (id project)) ;;
  if negb isReady then
    say LogWarn "Project is still provisioning. You can check status at https://supabase.com/dashboard" ;;
    say LogInfo "Please wait a few minutes and run the setup again" ;;
    ret cancelled_result
  else
  (* Get credentials *)
  say SpinnerStart "Fetching project credentials..." ;;
  credentials <- try_catch
                   (fetched <- getProjectCredentials env (JsValue.to_string (id project)) ;;
                    say SpinnerStop "Credentials retrieved!" ;;
                    ret fetched)
                   (fun message =>
                      say SpinnerStop "" ;;
                      throw ("Failed to get project credentials: " ++ message)) ;;
  finish projectNameInput credentials (Some dbPassword)
  end.

Definition handleProjectCreation (initialProjectName : option string) : M SetupResult :=
  (* Get project name *)
  projectNameInput <- Prompt.text "Project name:" Validate.project_name ;;
  match projectNameInput with
  | None => say CancelMsg "Operation cancelled" ;; ret cancelled_result
  | Some projectNameInput =>
  (* Get organizations *)
  say SpinnerStart "Loading organizations..." ;;
  orgs <- try_catch
            (fetched <- getOrganizations env ;; say SpinnerStop "" ;; ret fetched)
            (fun _ => say SpinnerStop "" ;; throw "Failed to fetch organizations") ;;
  match orgs with
  | [] =>
      say LogError "No organizations found. Please create one at https://supabase.com" ;;
      config <- collectProjectInfo (Some projectNameInput) ;;
      ret (mkResult config manual)
  | first :: others =>
  (* Select organization *)
  selectedOrgId <-
    match others with
    | [] =>
        say LogInfo ("Using organization: " ++ JsValue.to_string (org_name first)) ;;
        ret (Some (org_id first))
    | _ =>
        Prompt.select "Select an organization:"
          (map (fun org => (org_id org, JsValue.to_string (org_name org))) orgs)
    end ;;
  match selectedOrgId with
  | None => say CancelMsg "Operation cancelled" ;; ret cancelled_result
  | Some selectedOrgId =>
  (* Select region *)
  regionChoice <- Prompt.select "Region:"
                    (map (fun r => (fst r, snd r)) getAvailableRegions) ;;
  match regionChoice with
  | None => say CancelMsg "Operation cancelled" ;; ret cancelled_result
  | Some regionChoice =>
  (* Create database password *)
  dbPassword <- Prompt.password "Database password (min 12 chars):" Validate.db_password ;;
  match dbPassword with
  | None => say CancelMsg "Operation cancelled" ;; ret cancelled_result
  | Some dbPassword =>
  check_and_create projectNameInput selectedOrgId regionChoice dbPassword
  end end end end end.

Definition handleExistingProject (initialProjectName : option string) : M SetupResult :=
  (* Get project name for local folder *)
  projectNameInput <- Prompt.text "Local project name:" Validate.project_name ;;
  match projectNameInput with
  | None => say CancelMsg "Operation cancelled" ;; ret cancelled_result
  | Some projectNameInput =>
  (* Get list of projects *)
  say SpinnerStart "Loading projects..." ;;
  projects <- try_catch
                (fetched <- listProjects env ;; say SpinnerStop "" ;; ret fetched)
                (fun _ => say SpinnerStop "" ;; throw "Failed to fetch projects") ;;
  match projects with
  | [] =>
      say LogWarn "No projects found. Create one at https://supabase.com" ;;
      fallbackChoice <- Prompt.select "What would you like to do?"
                          [ (create, "Create a new project");
                            (manual_credentials, "Enter credentials manually");
                            (cancel_setup, "Cancel setup") ] ;;
      match fallbackChoice with
      | None | Some cancel_setup => say CancelMsg "Setup cancelled" ;; ret cancelled_result
      | Some create => handleProjectCreation (Some projectNameInput)
      | Some _ =>
          config <- collectProjectInfo (Some projectNameInput) ;;
          ret (mkResult config manual)
      end
  | _ =>
  (* Select project *)
  projectChoice <- Prompt.select "Select a Supabase project:"
                     (map (fun project =>
                             (id project,
                              (JsValue.to_string (name project) ++ " (" ++
                               JsValue.to_string (region project) ++ ")")%string))
                          projects) ;;
  match projectChoice with
  | None => say CancelMsg "Operation cancelled" ;; ret cancelled_result
  | Some selectedProjectId =>
  (* Get credentials *)
  say SpinnerStart "Loading credentials..." ;;
  credentials <- try_catch
                   (fetched <- getProjectCredentials env (JsValue.to_string selectedProjectId) ;;
                    say SpinnerStop "" ;;
                    ret fetched)
                   (fun message =>
                      say SpinnerStop "" ;;
                      throw ("Failed to get project credentials: " ++ message)) ;;
  finish projectNameInput credentials None
  end end end.

(** A block inside a function body that may return from the function
    ([Some r]) or fall through ([None]), followed by more of the same. *)
Definition and_then (block next : M (option SetupResult)) : M (option SetupResult) :=
  r <- block ;;
  match r with
  | Some result => ret (Some result)
  | None => next
  end.

Definition limit_note : string :=
  "No worries! You've reached your free project limit." ++ Js.nl ++ Js.nl ++
  "To continue:" ++ Js.nl ++
  "1. Open https://supabase.com/dashboard" ++ Js.nl ++
  "2. Delete, pause, or upgrade a project" ++ Js.nl ++
  "3. Come back here and press Enter to retry".

(** [setupWithSupabaseCLI] calls itself to ask again after a failed
    installation and to retry after a project-limit error; [fuel] bounds
    the depth of these calls. *)
Fixpoint setupWithSupabaseCLI (fuel : nat) (projectName : option string) : M SetupResult :=
  match fuel with
  | O => out_of_fuel
  | S fuel' =>
  say Intro " supalite " ;;
  (* Check if directory already exists before starting setup *)
  or_continue
    (match projectName with
     | Some given =>
         if Js.truthy given then
           present <- fs_exists env (resolve_cwd env given) ;;
           if present then
             overwrite <- Prompt.confirm
                            ("Directory " ++ Js.dquote ++ given ++ Js.dquote ++
                             " already exists. Overwrite?") ;;
             match overwrite with
             | Some true => ret None
             | _ => say CancelMsg "Operation cancelled" ;; ret (Some cancelled_result)
             end
           else ret None
         else ret None
     | None => ret None
     end)
  ((* Step 1: Check if Supabase CLI is installed *)
  hasCLI <- hasSupabaseCLI env ;;
  or_continue
    (if negb hasCLI then
       installChoice <- Prompt.select "Supabase CLI not installed. Setup:"
                          [ (install, "Install automatically (recommended)");
                            (manual_credentials, "Manual credentials");
                            (cancel_setup, "Cancel") ] ;;
       match installChoice with
       | None => say CancelMsg "Operation cancelled" ;; ret (Some cancelled_result)
       | Some cancel_setup => say CancelMsg "Setup cancelled" ;; ret (Some cancelled_result)
       | Some manual_credentials =>
           config <- collectProjectInfo projectName ;;
           ret (Some (mkResult config manual))
       | Some _ =>
           (* Install CLI *)
           say SpinnerStart ("Installing Supabase CLI for " ++ os_name (detectOS env) ++ "...") ;;
           installed <- installCLI env ;;
           say SpinnerStop "" ;;
           and_then
             (if negb installed then
                say LogError "Failed to install Supabase CLI" ;;
                fallbackChoice <- Prompt.select "Installation failed. What would you like to do?"
                                    [ (install, "Help me install it");
                                      (manual_credentials, "Continue with manual setup");
                                      (cancel_setup, "Cancel setup") ] ;;
                match fallbackChoice with
                | None | Some cancel_setup =>
                    say CancelMsg "Setup cancelled" ;; ret (Some cancelled_result)
                | Some install =>
                    say SpinnerStart "Installing Supabase CLI..." ;;
                    installResult <- installCLIManual env ;;
                    say SpinnerStop "" ;;
                    usable <- (if installResult then hasSupabaseCLI env else ret false) ;;
                    if usable then
                      say LogSuccess "Supabase CLI installed successfully!" ;;
                      ret None
                    else
                      say LogError "Installation failed" ;;
                      say LogInfo "You may need to install it manually or continue with manual setup" ;;
                      (* Ask again *)
                      again <- setupWithSupabaseCLI fuel' projectName ;;
                      ret (Some again)
                | Some _ =>
                    config <- collectProjectInfo projectName ;;
                    ret (Some (mkResult config manual))
                end
              else ret None)
             (say LogSuccess "Supabase CLI installed successfully!" ;; ret None)
       end
     else ret None)
  ((* Step 2: Check authentication *)
  authenticated <- isAuthenticated env ;;
  or_continue
    (if negb authenticated then
       authChoice <- Prompt.select "Supabase authentication required:"
                       [ (do_login, "Login (opens browser)");
                         (manual_credentials, "Manual credentials");
                         (cancel_setup, "Cancel") ] ;;
       match authChoice with
       | None => say CancelMsg "Operation cancelled" ;; ret (Some cancelled_result)
       | Some cancel_setup => say CancelMsg "Setup cancelled" ;; ret (Some cancelled_result)
       | Some manual_credentials =>
           config <- collectProjectInfo projectName ;;
           ret (Some (mkResult config manual))
       | Some _ =>
           (* Login *)
           loginSuccess <- login env ;;
           and_then
             (if negb loginSuccess then
                say LogError "Login failed" ;;
                retryChoice <- Prompt.select "What would you like to do?"
                                 [ (retry, "Try logging in again");
                                   (manual_credentials, "Continue with manual setup");
                                   (cancel_setup, "Cancel setup") ] ;;
                match retryChoice with
                | None | Some cancel_setup =>
                    say CancelMsg "Setup cancelled" ;; ret (Some cancelled_result)
                | Some retry =>
                    retryLogin <- login env ;;
                    if negb retryLogin then
                      say LogError "Login failed again" ;;
                      config <- collectProjectInfo projectName ;;
                      ret (Some (mkResult config manual))
                    else ret None
                | Some _ =>
                    config <- collectProjectInfo projectName ;;
                    ret (Some (mkResult config manual))
                end
              else ret None)
             (say LogSuccess "Successfully authenticated!" ;; ret None)
       end
     else ret None)
  ((* Step 3: Project setup choice *)
  setupChoice <- Prompt.select "Supabase setup:"
                   [ (create, "Create new project");
                     (existing, "Use existing project");
                     (manual_credentials, "Manual credentials") ] ;;
  match setupChoice with
  | None => say CancelMsg "Operation cancelled" ;; ret cancelled_result
  | Some manual_credentials =>
      config <- collectProjectInfo projectName ;;
      ret (mkResult config manual)
  | Some setupChoice =>
      (* Step 4: Handle project creation or selection *)
      try_catch
        (match setupChoice with
         | create => handleProjectCreation projectName
         | _ => handleExistingProject projectName
         end)
        (fun errorMessage =>
           if isProjectLimitError errorMessage then
             say LogError "Project limit reached" ;;
             say (Note "Action Required") limit_note ;;
             again <- Prompt.confirm "Ready to retry? (I've fixed it)" ;;
             match again with
             | Some true =>
                 (* Retry the setup *)
                 setupWithSupabaseCLI fuel' projectName
             | _ => say CancelMsg "Setup cancelled" ;; ret cancelled_result
             end
           else
             (* For other errors, show generic fallback *)
             say LogError ("Error: " ++ errorMessage) ;;
             fallbackChoice <- Prompt.select "What would you like to do?"
                                 [ (manual_credentials, "Manual setup");
                                   (cancel_setup, "Cancel") ] ;;
             match fallbackChoice with
             | None | Some cancel_setup =>
                 say CancelMsg "Setup cancelled" ;; ret cancelled_result
             | Some _ =>
                 config <- collectProjectInfo projectName ;;
                 ret (mkResult config manual)
             end)
  end)))
  end.

End WithEnv.
End SetupMethod.

(* ================================================================== *)
(** * [cli.ts]: the entry point *)
(* ================================================================== *)

Module Cli.
Import SetupMethod.
Local Open Scope string_scope.
Section WithEnv.
Variable env : Env.

Definition devCommand (pm : PackageManager) : string :=
  match pm with
  | npm => "npm run dev"
  | _ => pm_name pm ++ " dev"
  end.

(** The redirect-URL reminder shown after an automated setup. *)
Definition redirectSetup (config : ProjectConfig) (method : MethodTag) : string :=
  match method with
  | cli_auto =>
      match url_hostname env (supabaseUrl config) with
      | Some host =>
          let projectRef := hd "" (Js.split "." host) in
          let port := match port config with
                      | Some p => if (p =? 0)%Z then DEFAULT_PORT else p
                      | None => DEFAULT_PORT
                      end in
          let callbackUrl := "http://localhost:" ++ Js.string_of_Z port ++ "/api/auth/callback" in
          CopyTemplate.nl ++ "One manual step:" ++ CopyTemplate.nl ++
          "   1. Open: https://app.supabase.com/project/" ++ projectRef ++
          "/auth/url-configuration" ++ CopyTemplate.nl ++
          "   2. Add this URL:" ++ CopyTemplate.nl ++
          "      " ++ callbackUrl ++ CopyTemplate.nl
      | None => ""
      end
  | _ => ""
  end.

Definition done_message (config : ProjectConfig) (method : MethodTag) (duration : Z)
  : string :=
  "Done (" ++ Js.string_of_Z duration ++ "s)" ++
  redirectSetup config method ++ CopyTemplate.nl ++
  "Then run:" ++ CopyTemplate.nl ++
  "  cd " ++ projectName config ++ " && " ++ devCommand (packageManager config).

Definition main (fuel : nat) : M unit :=
  let projectName := option_map Js.trim (hd_error (argv env)) in
  emit EClear ;;
  (* Run comprehensive setup flow with CLI integration *)
  result <- setupWithSupabaseCLI env fuel projectName ;;
  match config result with
  | None => exit 0
  | Some config =>
      startTime <- date_now env ;;
      try_catch
        (CreateProject.createProject env config ;;
         finished <- date_now env ;;
         (* Math.round((Date.now() - startTime) / 1000) *)
         let duration := ((finished - startTime + 500) / 1000)%Z in
         say Outro (done_message config (method result) duration))
        (fun error =>
           say Outro ("Setup failed: " ++ error) ;;
           exit 1)
  end.

(** [main().catch((error) => { console.error('Error:', error); process.exit(1) })] *)
Definition run (fuel : nat) : M unit :=
  try_catch (main fuel)
            (fun error => say ConsoleError ("Error: " ++ error) ;; exit 1).

End WithEnv.

(** The exit status of the process: [0] when the program runs to its end,
    the argument of [process.exit] otherwise. *)
Definition exit_status (o : Outcome unit) : option Z :=
  match o with
  | Ret _ => Some 0%Z
  | Exit code => Some code
  | Throw _ => Some 1%Z
  | OutOfFuel => None
  end.

End Cli.

(* ================================================================== *)
(** * Specifications of computations *)
(* ================================================================== *)

(** [sat m Q P]: whatever the history and the script, every event [m]
    emits satisfies [P], and a value it returns satisfies [Q]. *)
Definition sat {A} (m : M A) (Q : A -> Prop) (P : Event -> Prop) : Prop :=
  forall h s,
    Forall P (emitted (m h s)) /\
    (forall a, outcome (m h s) = Ret a -> Q a).

(** A computation that neither exits the process nor exhausts the model's
    recursion budget: it returns or throws. *)
Definition settles {A} (o : Outcome A) : Prop :=
  match o with
  | Ret _ | Throw _ => True
  | Exit _ | OutOfFuel => False
  end.

(** The events of a history that start a subprocess. *)
Definition is_spawn (e : Event) : bool :=
  match e with
  | ESpawn _ _ _ => true
  | _ => false
  end.

Unset Implicit Arguments.

(* ================================================================== *)
(** * Scenarios: concrete hosts, accounts and answers *)
(* ================================================================== *)

Module Scenarios.
Import ListNotations.
Open Scope string_scope.
Import Constants SupabaseSetup.

Definition ok : SpawnResult := mkSpawn (Some 0%Z) "" "".
Definition failed (message : string) : SpawnResult := mkSpawn (Some 1%Z) "" message.

Definition hostname_of (url : string) : option string :=
  if String.prefix "https://" url
  then Some (String.substring 8 (String.length url - 8) url)
  else None.

Definition parse_basic (text : string) : ParseResult :=
  if text =? "{}" then Parsed (JObj [])
  else if text =? "[]" then Parsed (JArr [])
  else SyntaxError "Unexpected token".

Definition world (platform : string)
           (proc : History -> string -> list string -> option string -> SpawnResult)
           (parse : string -> ParseResult) : Env :=
  mkEnv platform [] proc
        (fun _ _ => false) (fun _ _ => None) (fun _ _ => inl "{}") (fun _ _ _ => None)
        parse (fun _ => "{}") hostname_of (fun n => "/work/" ++ n)
        (fun _ => "generated-password") (fun _ => 0%Z).

Definition link_refused : Env :=
  world "linux"
        (fun _ cmd args _ =>
           if (cmd =? "supabase") && (hd "" args =? "link") then failed "invalid password"
           else ok)
        parse_basic.

Definition demo_config : ProjectConfig :=
  mkConfig "demo-app" "https://abc.supabase.co" "anon-key" "service-key"
           "/work/demo-app" npm (Some 3000%Z) (Some "correct-horse-battery").

(** The organization listing prints an empty JSON array. *)
Definition no_organizations : Env :=
  world "linux"
        (fun _ cmd args _ =>
           if (cmd =? "supabase") && (hd "" args =? "orgs") then mkSpawn (Some 0%Z) "[]" ""
           else ok)
        parse_basic.

(** A listing in the table format of older CLI versions: header,
    separator, three organizations. *)
Definition three_row_table : string :=
  "   ID                   | NAME" ++ Js.nl ++
  "  ----------------------|----------------" ++ Js.nl ++
  "   azoyksukebdkeaelzlfm | Growth Stories" ++ Js.nl ++
  "   bqpzltvmfcwrgnsxhayk | Video Studio" ++ Js.nl ++
  "   crqamubwgdxshotzjelk | Acme" ++ Js.nl.

Definition table_listing : Env :=
  world "linux"
        (fun _ cmd args _ =>
           if (cmd =? "supabase") && (hd "" args =? "orgs")
           then mkSpawn (Some 0%Z) three_row_table ""
           else ok)
        parse_basic.

(** A host on which every command fails: no platform CLI, no package manager. *)
Definition bare_host : Env :=
  world "linux" (fun _ _ _ _ => failed "command not found") parse_basic.

(** An account with one organization that already holds a project named
    "My-App". *)
Definition parse_account (text : string) : ParseResult :=
  if text =? "<organizations>" then
    Parsed (JArr [JObj [("id", JStr "org-1"); ("name", JStr "Acme")]])
  else if text =? "<projects>" then
    Parsed (JArr [JObj [("id", JStr "ref-1"); ("name", JStr "My-App");
                        ("organization_id", JStr "org-1");
                        ("region", JStr "eu-west-1");
                        ("created_at", JStr "2025-01-01")]])
  else parse_basic text.

Definition taken_name : Env :=
  world "linux"
        (fun _ cmd args _ =>
           if cmd =? "supabase" then
             match args with
             | "orgs" :: _ => mkSpawn (Some 0%Z) "<organizations>" ""
             | "projects" :: "list" :: _ => mkSpawn (Some 0%Z) "<projects>" ""
             | _ => ok
             end
           else ok)
        parse_account.

Definition create_answers : list Action :=
  [TypeText "my-app"; Pick 4; TypeText "correct-horse-battery"].

(** A project still being provisioned: the push fails with a provisioning
    message until the applier has waited once. *)
Definition is_sleep (e : Event) : bool :=
  match e with ESleep _ => true | _ => false end.

Definition slow_tenant : Env :=
  world "linux"
        (fun h cmd args _ =>
           if (cmd =? "supabase") && (hd "" args =? "db") && negb (existsb is_sleep h)
           then failed "Tenant or user not found"
           else ok)
        parse_basic.

End Scenarios.

(* ================================================================== *)
(** * Properties of runs, events and configurations *)
(* ================================================================== *)

Module Properties.
Import Scenarios.
Import ListNotations.
Open Scope string_scope.
Import Constants SupabaseSetup SupabaseCli DetectPackageManagers CopyTemplate SetupMethod Validate.

(** [returns m]: [m] always completes normally. [settling m]: [m] always
    returns or throws. *)
Definition returns {A} (m : M A) : Prop := forall h s, exists a, outcome (m h s) = Ret a.
Definition settling {A} (m : M A) : Prop := forall h s, settles (outcome (m h s)).
Definition always_emits {A} (e : Event) (m : M A) : Prop :=
  forall h s, In e (emitted (m h s)).

(** The command that creates a remote project. *)
Definition is_create (e : Event) : bool :=
  match e with
  | ESpawn cmd (first :: second :: _) _ =>
      (first =? "projects") && (second =? "create") && (cmd =? "supabase")
  | _ => false
  end.

(** What the platform adapter does besides creating a project: it starts
    other processes, talks and waits. *)
Definition adapter_event (e : Event) : Prop :=
  match e with
  | ESpawn _ _ _ => is_create e = false
  | ESay _ _ | ESleep _ => True
  | _ => False
  end.

Definition linkEvent (targetDir projectRef dbPassword : string) : Event :=
  ESpawn "supabase" ["link"; "--project-ref"; projectRef; "--password"; dbPassword]
         (Some targetDir).
Definition pushEvent (targetDir : string) : Event :=
  ESpawn "supabase" ["db"; "push"] (Some targetDir).

Definition is_api_event (e : Event) : bool :=
  match e with
  | EApiClient _ _ | EApiQuery => true
  | _ => false
  end.

(** The migration applier only starts processes, reads the migration
    file and sleeps. *)
Definition applier_event (e : Event) : Prop :=
  match e with
  | ESpawn _ _ _ => is_create e = false
  | ESleep _ | EReadFile _ => True
  | _ => False
  end.

Definition readEvent (targetDir : string) : Event := EReadFile (join targetDir migration_file).
Definition versionEvent : Event := ESpawn "supabase" ["--version"] None.

Definition is_link (e : Event) : bool :=
  match e with
  | ESpawn cmd (first :: _) _ => (first =? "link") && (cmd =? "supabase")
  | _ => false
  end.

Definition installEvent (config : ProjectConfig) : Event :=
  ESpawn (pm_name (packageManager config)) ["install"] (Some (targetDir config)).

Definition head0 : string :=
  "# Supabase Configuration" ++ nl ++
  "# Get these from https://app.supabase.com/project/_/settings/api" ++ nl ++
  "NEXT_PUBLIC_SUPABASE_URL".
Definition middle0 : string := "NEXT_PUBLIC_SUPABASE_ANON_KEY".
Definition tail0 : string :=
  nl ++ "# Note: Service role key NOT needed for runtime" ++ nl ++
  "# Only used during initial setup by create-supalite CLI" ++ nl.

Definition env_write_ok (config : ProjectConfig) (e : Event) : Prop :=
  match e with
  | EWriteFile path content =>
      path = join (targetDir config) ".env.local" ->
      content = envContent (supabaseUrl config) (supabaseAnonKey config)
  | _ => True
  end.

Definition plain_config : ProjectConfig :=
  mkConfig "demo-app" "https://abc.supabase.co" "anon-key" "service-key"
           "/work/demo-app" npm (Some 3000%Z) None.

(** A configuration whose privileged key straddles a fixed part and a value. *)
Definition straddling_config : ProjectConfig :=
  mkConfig "demo-app" "https://abc.supabase.co" "anon-key" "=https"
           "/work/demo-app" npm (Some 3000%Z) None.

(** The JSON reading of a listing: the entries of the array, when the
    output is a JSON array without a [null] element. *)
Definition org_entry (org : JSON) : option SupabaseOrganization :=
  match JsValue.prop org "id", JsValue.prop org "name" with
  | Some i, Some n => Some (mkOrg i n)
  | _, _ => None
  end.

Fixpoint org_entries (items : list JSON) : option (list SupabaseOrganization) :=
  match items with
  | [] => Some []
  | item :: more =>
      match org_entry item, org_entries more with
      | Some o, Some os => Some (o :: os)
      | _, _ => None
      end
  end.

Definition json_organizations (env : Env) (output : string)
  : option (list SupabaseOrganization) :=
  match JSON_parse env output with
  | Parsed (JArr items) => org_entries items
  | _ => None
  end.

Definition orgsListEvent : Event :=
  ESpawn "supabase" ["orgs"; "list"; "--output"; "json"] None.

(** How a candidate is probed, and what the probe answers at a history. *)
Definition probe_event (env : Env) (pm : PackageManager) : Event :=
  if isWindows env then ESpawn (pm_name pm) ["--version"] None
  else ESpawn "which" [pm_name pm] None.

Definition installed_at (env : Env) (h : History) (pm : PackageManager) : bool :=
  if isWindows env then succeeded (proc env h (pm_name pm) ["--version"] None)
  else succeeded (proc env h "which" [pm_name pm] None).

(** The candidates are probed in the order of [allOptions], each probe
    seeing the ones before it; on Windows npm is taken as present. *)
Definition detected (env : Env) (h : History) (pm : PackageManager) : bool :=
  let after_npm := if isWindows env then h else probe_event env npm :: h in
  match pm with
  | npm => if isWindows env then true else installed_at env h npm
  | pnpm => installed_at env after_npm pnpm
  | bun => installed_at env (probe_event env pnpm :: after_npm) bun
  end.

Definition available_at (env : Env) (h : History) : list PmOption :=
  sort_by_priority (filter (fun o => detected env h (value o)) allOptions).

Definition by_priority (a b : PmOption) : Prop := (priority a <= priority b)%Z.

Definition never_installed (env : Env) : Prop :=
  isWindows env = false /\
  forall h pm, succeeded (proc env h "which" [pm_name pm] None) = false.

Definition no_copy (e : Event) : Prop :=
  match e with
  | ECopyTemplate _ => False
  | _ => True
  end.

(** The name carried by a project-creation command. *)
Definition created_name (e : Event) : option string :=
  match e with
  | ESpawn _ (_ :: _ :: name :: _) _ => if is_create e then Some name else None
  | _ => None
  end.

Definition name_safe (e : Event) : Prop :=
  forall name, created_name e = Some name -> matches_name_pattern name = true.

Definition named_well (c : option ProjectConfig) : Prop :=
  forall cfg, c = Some cfg -> matches_name_pattern (projectName cfg) = true.

Definition projectsListEvent : Event :=
  ESpawn "supabase" ["projects"; "list"; "--output"; "json"] None.

Definition is_projects_list (e : Event) : bool :=
  match e with
  | ESpawn cmd [a; b; c; d] None =>
      (a =? "projects") && (b =? "list") && (c =? "--output") && (d =? "json")
      && (cmd =? "supabase")
  | _ => false
  end.

(** The events of the create branch other than fetching the project list
    and creating a project. *)
Definition neither_list_nor_create (e : Event) : Prop :=
  is_projects_list e = false /\ is_create e = false.

(** A run that ends in the cancelled result without a creation command. *)
Definition cancelled_without_creation (r : Res SetupResult) : Prop :=
  outcome r = Ret cancelled_result /\
  Forall (fun e => is_create e = false) (emitted r).

(** A computation that depends on neither the history nor the script and
    emits nothing. *)
Definition pure {A} (m : M A) : Prop :=
  exists o, forall h s, m h s = mkRes o [] s.

(** How an existing project's name compares with the entered one. *)
Definition string_named (p : SupabaseProject) : Prop :=
  exists n, SupabaseCli.name p = Some (JStr n).
Definition same_name (entered : string) (p : SupabaseProject) : Prop :=
  exists n, SupabaseCli.name p = Some (JStr n) /\
            Js.toLowerCase n = Js.toLowerCase entered.
Definition differs (entered : string) (p : SupabaseProject) : Prop :=
  exists n, SupabaseCli.name p = Some (JStr n) /\
            Js.toLowerCase n <> Js.toLowerCase entered.

(** The events that follow the duplicate check: no second fetch of the
    list, and a creation command only for the entered name. *)
Definition after_check (entered : string) (e : Event) : Prop :=
  is_projects_list e = false /\
  (is_create e = true -> created_name e = Some entered).

(** The shape of a run of the create branch, started at history [h]: either
    it never reaches the duplicate check, or it fetches the project list
    once and what follows is decided by the search in the fetched list. *)
Definition check_shape (env : Env) (entered : string) (h : History)
           (r : Res SetupResult) : Prop :=
  Forall neither_list_nor_create (emitted r) \/
  exists post pre,
    emitted r = (post ++ projectsListEvent :: pre)%list /\
    Forall neither_list_nor_create pre /\
    Forall (after_check entered) post /\
    match outcome (listProjects env (pre ++ h)%list []) with
    | Ret projects =>
        match outcome (find_duplicate projects entered [] []) with
        | Ret (Some _) =>
            Forall neither_list_nor_create post /\ outcome r = Ret cancelled_result
        | Ret None => True
        | _ => Forall neither_list_nor_create post
        end
    | _ => Forall neither_list_nor_create post
    end.

Definition checked (env : Env) (entered : string) (m : M SetupResult) : Prop :=
  forall h s, check_shape env entered h (m h s).

End Properties.

(* ================================================================== *)
(** * Measures of runs: counts, waits, order and sound configurations *)
(* ================================================================== *)

Module Measures.
Import Scenarios Properties.
Import ListNotations.
Open Scope string_scope.
Import Constants SupabaseSetup SupabaseCli DetectPackageManagers CopyTemplate SetupMethod Validate.

(** A string without white space at either end. *)
Definition trimmed (s : string) : Prop := Js.trim s = s.

(** The push command of the CLI strategy. *)
Definition is_push (e : Event) : bool :=
  match e with
  | ESpawn cmd [first; second] _ => (first =? "db") && (second =? "push") && (cmd =? "supabase")
  | _ => false
  end.

(** How often an event of a kind occurs, and the time slept in all. *)
Definition occurrences (p : Event -> bool) (events : list Event) : nat :=
  length (filter p events).

Fixpoint slept (events : list Event) : Z :=
  match events with
  | [] => 0
  | ESleep ms :: more => ms + slept more
  | _ :: more => slept more
  end.

(** The command that generates the database types, and where its output
    is written. *)
Definition genTypesEvent (targetDir projectRef : string) : Event :=
  ESpawn "supabase" ["gen"; "types"; "typescript"; "--project-id"; projectRef]
         (Some targetDir).
Definition typesPath (targetDir : string) : string := join targetDir "lib/types/database.ts".

(** Whether [setPackageManager] rewrites the scripts for this port. *)
Definition custom_port (port : option Z) : option Z :=
  match port with
  | Some p => if negb (p =? 0)%Z && negb (p =? DEFAULT_PORT)%Z then Some p else None
  | None => None
  end.

Definition packageJson (targetDir : string) : string := join targetDir "package.json".

(** What the interactive setup does to the outside world: it starts
    processes, waits, talks, asks, and checks whether a path exists. *)
Definition setup_event (e : Event) : Prop :=
  match e with
  | ESpawn _ _ _ | ESleep _ | ESay _ _ | EAsk _ _ | EReject _ | EExists _ => True
  | _ => False
  end.

Definition valid_port (port : option Z) : Prop :=
  exists p, port = Some p /\ (MIN_PORT <= p <= MAX_PORT)%Z.

(** What every configuration the setup returns satisfies. *)
Definition sound_config (env : Env) (cfg : ProjectConfig) : Prop :=
  valid_port (port cfg) /\
  targetDir cfg = resolve_cwd env (projectName cfg) /\
  (forall p, dbPassword cfg = Some p -> (MIN_DB_PASSWORD_LENGTH <= String.length p)%nat).

(** A configuration entered by hand, and one fetched through the CLI. *)
Definition manual_config (cfg : ProjectConfig) : Prop :=
  dbPassword cfg = None /\
  trimmed (projectName cfg) /\
  Js.startsWith (supabaseUrl cfg) "https://" = true /\
  Js.includes (supabaseUrl cfg) "supabase.co" = true /\
  (100 <= String.length (supabaseAnonKey cfg))%nat /\
  (100 <= String.length (supabaseServiceKey cfg))%nat.

Definition automated_config (cfg : ProjectConfig) : Prop :=
  exists ref, supabaseUrl cfg = "https://" ++ ref ++ ".supabase.co".

Definition sound_result (env : Env) (r : SetupResult) : Prop :=
  (method r = cancelled -> config r = None) /\
  (method r = cli_auto -> config r <> None) /\
  (forall cfg, config r = Some cfg ->
               sound_config env cfg /\
               (method r = manual -> manual_config cfg) /\
               (method r = cli_auto -> automated_config cfg)).

(** A key of a hundred characters, and the answers of a manual setup. *)
Definition long_key : string :=
  String.concat "" (repeat "0123456789" 10).

Definition manual_answers : list Action :=
  [Pick 2; TypeText " my-app "; TypeText "https://abc.supabase.co";
   TypeText long_key; TypeText long_key; Pick 0; TypeText "8080"].

Definition manual_demo_config : ProjectConfig :=
  mkConfig "my-app" "https://abc.supabase.co" long_key long_key "/work/my-app" pnpm
           (Some 8080%Z) None.

(** [preceded e0 p m]: in every run of [m], an event of kind [p] comes
    after the event [e0]. *)
Definition preceded {A} (e0 : Event) (p : Event -> bool) (m : M A) : Prop :=
  forall h s post e pre,
    emitted (m h s) = (post ++ e :: pre)%list -> p e = true -> In e0 pre.

Definition envPath (targetDir : string) : string := join targetDir ".env.local".

Definition is_env_write (targetDir : string) (e : Event) : bool :=
  match e with
  | EWriteFile path _ => path =? envPath targetDir
  | _ => false
  end.

(** The write of the environment file, as [writeEnvFile] issues it. *)
Definition envWrite (cfg : ProjectConfig) : Event :=
  EWriteFile (envPath (targetDir cfg)) (envContent (supabaseUrl cfg) (supabaseAnonKey cfg)).

(** The commands that come after the project files are in place: linking,
    pushing, generating types, installing dependencies. *)
Definition uses_project (e : Event) : bool :=
  match e with
  | ESpawn _ _ (Some _) => true
  | _ => false
  end.

(** Events that change nothing: printing, asking, checking a path. *)
Definition harmless (e : Event) : Prop :=
  match e with
  | ESay _ _ | EAsk _ _ | EReject _ | EExists _ => True
  | _ => False
  end.

(** A host on which every path already exists. *)
Definition occupied : Env :=
  mkEnv "linux" [] (fun _ _ _ _ => ok)
        (fun _ _ => true) (fun _ _ => None) (fun _ _ => inl "{}") (fun _ _ _ => None)
        parse_basic (fun _ => "{}") hostname_of (fun n => "/work/" ++ n)
        (fun _ => "generated-password") (fun _ => 0%Z).

(** The readiness probe of [waitForProjectReady]. *)
Definition is_probe (e : Event) : bool :=
  match e with
  | ESpawn cmd [a; b; c; _] None =>
      (a =? "projects") && (b =? "api-keys") && (c =? "--project-ref") && (cmd =? "supabase")
  | _ => false
  end.

Definition is_spawn_event (e : Event) : bool :=
  match e with
  | ESpawn _ _ _ => true
  | _ => false
  end.

(** A string without a dot. *)
Definition dot_free (s : string) : bool := Js.all_chars (fun c => negb (c =? ".")%char) s.

(** An element of the parsed project listing and the entry made of it:
    each field is whatever the element holds under that name. *)
Definition lists_as (item : JSON) (p : SupabaseProject) : Prop :=
  JsValue.prop item "id" = Some (SupabaseCli.id p) /\
  JsValue.prop item "name" = Some (SupabaseCli.name p) /\
  JsValue.prop item "organization_id" = Some (organization_id p) /\
  JsValue.prop item "region" = Some (region p) /\
  JsValue.prop item "created_at" = Some (created_at p).

(** Text that can follow a number without changing what [parseInt] reads:
    nothing, or something that starts with neither a digit nor the [x] of
    a hexadecimal prefix. *)
Definition ends_number (t : string) : bool :=
  match t with
  | EmptyString => true
  | String c _ => negb (Js.is_digit c) && negb (c =? "x")%char && negb (c =? "X")%char
  end.

End Measures.

Set Implicit Arguments.

(* ================================================================== *)
(** * Basic facts about computations *)
(* ================================================================== *)

Section SatRules.
Context {A B : Type}.
Variable P : Event -> Prop.

Lemma sat_ret (a : A) (Q : A -> Prop) : Q a -> sat (ret a) Q P.
Proof.
  intros Ha h s; split; [constructor|].
  simpl; intros a' E; inversion E; subst; exact Ha.
Qed.

Lemma sat_throw (e : string) (Q : A -> Prop) : sat (throw e) Q P.
Proof. intros h s; split; [constructor | simpl; discriminate]. Qed.

Lemma sat_exit (c : Z) (Q : A -> Prop) : sat (exit c) Q P.
Proof. intros h s; split; [constructor | simpl; discriminate]. Qed.

Lemma sat_out_of_fuel (Q : A -> Prop) : sat out_of_fuel Q P.
Proof. intros h s; split; [constructor | simpl; discriminate]. Qed.

Lemma sat_bind (m : M A) (f : A -> M B) (Q1 : A -> Prop) (Q : B -> Prop) :
  sat m Q1 P ->
  (forall a, Q1 a -> sat (f a) Q P) ->
  sat (bind m f) Q P.
Proof.
  intros Hm Hf h s. unfold bind.
  destruct (Hm h s) as [Ev Val].
  destruct (outcome (m h s)) as [a| | |] eqn:E; simpl;
    try (split; [exact Ev | discriminate]).
  destruct (Hf a (Val a eq_refl) (emitted (m h s) ++ h)%list (rest (m h s))) as [Ev' Val'].
  split; [apply Forall_app; split; assumption | exact Val'].
Qed.

Lemma sat_weaken (m : M A) (Q1 Q : A -> Prop) :
  sat m Q1 P -> (forall a, Q1 a -> Q a) -> sat m Q P.
Proof.
  intros Hm HQ h s. destruct (Hm h s) as [Ev Val]. split; auto.
Qed.

Lemma sat_try_catch (m : M A) (handler : string -> M A) (Q : A -> Prop) :
  sat m Q P ->
  (forall e, sat (handler e) Q P) ->
  sat (try_catch m handler) Q P.
Proof.
  intros Hm Hh h s. unfold try_catch.
  destruct (Hm h s) as [Ev Val].
  destruct (outcome (m h s)) as [a| e | |] eqn:E; simpl.
  - split; [exact Ev|]. rewrite E. exact Val.
  - destruct (Hh e (emitted (m h s) ++ h)%list (rest (m h s))) as [Ev' Val'].
    split; [apply Forall_app; split; assumption | exact Val'].
  - split; [exact Ev|]. rewrite E. discriminate.
  - split; [exact Ev|]. rewrite E. discriminate.
Qed.

End SatRules.

Lemma sat_emit (P : Event -> Prop) (e : Event) (Q : unit -> Prop) :
  P e -> Q tt -> sat (emit e) Q P.
Proof.
  intros He Hq h s; split; [repeat constructor; exact He|].
  simpl; intros [] _; exact Hq.
Qed.

Unset Implicit Arguments.

(* ================================================================== *)
(** * Rules for primitives, prompts and evaluation *)
(* ================================================================== *)

Module Rules.
Import Scenarios Properties.
Import ListNotations.
Open Scope string_scope.
Import Constants.

Section SatPrimitives.
Variable env : Env.
Variable P : Event -> Prop.

Lemma sat_bind_wp {A B} (m : M A) (f : A -> M B) (Q : B -> Prop) :
  sat m (fun a => sat (f a) Q P) P -> sat (bind m f) Q P.
Proof. intros Hm. eapply sat_bind; [exact Hm | auto]. Qed.

Lemma sat_spawn cmd args cwd (Q : SpawnResult -> Prop) :
  P (ESpawn cmd args cwd) ->
  (forall r, (exists h, r = proc env h cmd args cwd) -> Q r) ->
  sat (spawn env cmd args cwd) Q P.
Proof.
  intros He Hq h s; split; [repeat constructor; exact He|].
  simpl; intros a E; inversion E; subst. apply Hq. eauto.
Qed.

Lemma sat_fs_exists path (Q : bool -> Prop) :
  P (EExists path) -> (forall b, Q b) -> sat (fs_exists env path) Q P.
Proof.
  intros He Hq h s; split; [repeat constructor; exact He | intros; apply Hq].
Qed.

Lemma sat_readFile path (Q : string -> Prop) :
  P (EReadFile path) -> (forall c, Q c) -> sat (readFile env path) Q P.
Proof.
  intros He Hq h s; unfold readFile.
  destruct (read_file env h path); split; try (repeat constructor; exact He);
    intros; apply Hq.
Qed.

Lemma sat_writeFile path content (Q : unit -> Prop) :
  P (EWriteFile path content) -> Q tt -> sat (writeFile env path content) Q P.
Proof.
  intros He Hq h s; unfold writeFile.
  destruct (write_error env h path content); split; try (repeat constructor; exact He);
    intros []; intros; exact Hq.
Qed.

Lemma sat_json_parse text (Q : JSON -> Prop) :
  (forall v, JSON_parse env text = Parsed v -> Q v) -> sat (json_parse env text) Q P.
Proof.
  intros Hq. unfold json_parse. destruct (JSON_parse env text) eqn:E.
  - apply sat_ret. auto.
  - apply sat_throw.
Qed.

Lemma sat_hostname_label url (Q : string -> Prop) :
  (forall l, Q l) -> sat (hostname_label env url) Q P.
Proof.
  intros Hq. unfold hostname_label. destruct (url_hostname env url).
  - apply sat_ret. auto.
  - apply sat_throw.
Qed.

Lemma sat_copyTemplate targetDir (Q : unit -> Prop) :
  P (ECopyTemplate targetDir) -> Q tt -> sat (CopyTemplate.copyTemplate env targetDir) Q P.
Proof.
  intros He Hq h s; unfold CopyTemplate.copyTemplate.
  destruct (copy_error env h targetDir); split; try (repeat constructor; exact He);
    intros []; intros; exact Hq.
Qed.

End SatPrimitives.

Lemma sat_get_prop P v k (Q : JsVal -> Prop) :
  (forall x, Q x) -> sat (get_prop v k) Q P.
Proof.
  intros Hq. unfold get_prop. destruct (JsValue.prop v k).
  - apply sat_ret. auto.
  - apply sat_throw.
Qed.

Lemma sat_mapM {A B} P (f : A -> M B) (l : list A) (R : B -> Prop) :
  (forall a, In a l -> sat (f a) R P) ->
  sat (mapM f l) (Forall R) P.
Proof.
  induction l as [|a l IH]; intros Hf; simpl.
  - apply sat_ret. constructor.
  - apply sat_bind_wp. eapply sat_weaken; [apply Hf; left; reflexivity|].
    intros b Hb. apply sat_bind_wp. eapply sat_weaken; [apply IH; intros; apply Hf; right; assumption|].
    intros bs Hbs. apply sat_ret. constructor; assumption.
Qed.

Ltac prompt_crush :=
  repeat split; simpl in *; intros;
  repeat match goal with
         | H : Some _ = Some _ |- _ => inversion H; clear H; subst
         | H : ?x <> None -> _ |- _ =>
             let K := fresh in
             assert (K : x <> None) by congruence; specialize (H K); clear K
         end;
  auto; try lia; try congruence.

Lemma read_text_spec validate s :
  let '(r, ev, s') := Prompt.read_text validate s in
  (forall v, r = Some v -> validate v = None) /\
  Forall (fun e => exists c, e = EReject c) ev /\
  (length s' <= length s)%nat /\
  (r <> None -> length s' < length s)%nat.
Proof.
  induction s as [|a s IH]; simpl.
  - prompt_crush.
  - destruct a; [prompt_crush | | |].
    + destruct (validate value) eqn:V; [|prompt_crush].
      destruct (Prompt.read_text validate s) as [[r ev] s'].
      destruct IH as (I1 & I2 & I3 & I4). prompt_crush.
      apply Forall_app; split; auto. repeat constructor. eauto.
    + destruct (Prompt.read_text validate s) as [[r ev] s'].
      destruct IH as (I1 & I2 & I3 & I4). prompt_crush.
    + destruct (Prompt.read_text validate s) as [[r ev] s'].
      destruct IH as (I1 & I2 & I3 & I4). prompt_crush.
Qed.

Lemma read_pick_spec {V} (options : list (V * string)) s :
  let '(r, s') := Prompt.read_pick options s in
  (forall v, r = Some v -> In v (map fst options)) /\
  (length s' <= length s)%nat /\
  (r <> None -> length s' < length s)%nat.
Proof.
  induction s as [|a s IH]; simpl.
  - prompt_crush.
  - destruct a; [prompt_crush | | |].
    + destruct (Prompt.read_pick options s) as [r s'].
      destruct IH as (I1 & I2 & I3). prompt_crush.
    + destruct (nth_error options index) as [[v l]|] eqn:N.
      * prompt_crush. apply nth_error_In in N.
        apply (in_map fst) in N. exact N.
      * destruct (Prompt.read_pick options s) as [r s'].
        destruct IH as (I1 & I2 & I3). prompt_crush.
    + destruct (Prompt.read_pick options s) as [r s'].
      destruct IH as (I1 & I2 & I3). prompt_crush.
Qed.

Section SatPrompts.
Variable P : Event -> Prop.

Lemma sat_text message validate (Q : option string -> Prop) :
  P (EAsk PText message) ->
  (forall c, P (EReject c)) ->
  Q None ->
  (forall v, validate v = None -> Q (Some v)) ->
  sat (Prompt.text message validate) Q P.
Proof.
  intros Ha Hr Hn Hs h s. unfold Prompt.text.
  pose proof (read_text_spec validate s) as Sp.
  destruct (Prompt.read_text validate s) as [[r ev] s'].
  destruct Sp as (S1 & S2 & _). simpl. split.
  - apply Forall_app; split; [|repeat constructor; exact Ha].
    eapply Forall_impl; [|exact S2]. intros e [c ->]. apply Hr.
  - intros a E; inversion E; subst. destruct a; auto.
Qed.

Lemma sat_password message validate (Q : option string -> Prop) :
  P (EAsk PPassword message) ->
  (forall c, P (EReject c)) ->
  Q None ->
  (forall v, validate v = None -> Q (Some v)) ->
  sat (Prompt.password message validate) Q P.
Proof.
  intros Ha Hr Hn Hs h s. unfold Prompt.password.
  pose proof (read_text_spec validate s) as Sp.
  destruct (Prompt.read_text validate s) as [[r ev] s'].
  destruct Sp as (S1 & S2 & _). simpl. split.
  - apply Forall_app; split; [|repeat constructor; exact Ha].
    eapply Forall_impl; [|exact S2]. intros e [c ->]. apply Hr.
  - intros a E; inversion E; subst. destruct a; auto.
Qed.

Lemma sat_select {V} message (options : list (V * string)) (Q : option V -> Prop) :
  P (EAsk PSelect message) ->
  Q None ->
  (forall v, In v (map fst options) -> Q (Some v)) ->
  sat (Prompt.select message options) Q P.
Proof.
  intros Ha Hn Hs h s. unfold Prompt.select.
  pose proof (read_pick_spec options s) as Sp.
  destruct (Prompt.read_pick options s) as [r s'].
  destruct Sp as (S1 & _). simpl. split.
  - repeat constructor; exact Ha.
  - intros a E; inversion E; subst. destruct a; auto.
Qed.

Lemma sat_confirm message (Q : option bool -> Prop) :
  P (EAsk PConfirm message) ->
  (forall b, Q b) ->
  sat (Prompt.confirm message) Q P.
Proof.
  intros Ha Hq h s. unfold Prompt.confirm.
  destruct (Prompt.read_answer s) as [r s']. simpl. split.
  - repeat constructor; exact Ha.
  - intros a E; inversion E; subst. apply Hq.
Qed.

End SatPrompts.

Lemma run_spawn_bind {B} env cmd args cwd (f : SpawnResult -> M B) h s :
  bind (spawn env cmd args cwd) f h s =
  let r := f (proc env h cmd args cwd) (ESpawn cmd args cwd :: h) s in
  mkRes (outcome r) (emitted r ++ [ESpawn cmd args cwd])%list (rest r).
Proof. reflexivity. Qed.

Lemma run_emit_bind {B} e (f : unit -> M B) h s :
  bind (emit e) f h s =
  let r := f tt (e :: h) s in
  mkRes (outcome r) (emitted r ++ [e])%list (rest r).
Proof. reflexivity. Qed.

Lemma res_eta {A} (r : Res A) : mkRes (outcome r) (emitted r) (rest r) = r.
Proof. destruct r; reflexivity. Qed.

Lemma run_ret_bind {A B} (a : A) (f : A -> M B) h s : bind (ret a) f h s = f a h s.
Proof.
  unfold bind, ret; cbn [outcome emitted rest app]. rewrite app_nil_r. apply res_eta.
Qed.

Lemma run_bind_assoc {A B C} (m : M A) (f : A -> M B) (g : B -> M C) h s :
  bind (bind m f) g h s = bind m (fun x => bind (f x) g) h s.
Proof.
  unfold bind. destruct (m h s) as [o ev rs]; cbn [outcome emitted rest].
  destruct o; cbn [outcome emitted rest]; try reflexivity.
  destruct (f a (ev ++ h)%list rs) as [o' ev' rs']; cbn [outcome emitted rest].
  destruct o'; cbn [outcome emitted rest]; try reflexivity.
  rewrite <- !app_assoc. reflexivity.
Qed.

Lemma run_readFile_bind {B} env path content (f : string -> M B) h s :
  read_file env h path = inl content ->
  bind (readFile env path) f h s =
  let r := f content (EReadFile path :: h) s in
  mkRes (outcome r) (emitted r ++ [EReadFile path])%list (rest r).
Proof. intros E. unfold bind, readFile. rewrite E. reflexivity. Qed.

Lemma run_hostname_bind {B} env url host (f : string -> M B) h s :
  url_hostname env url = Some host ->
  bind (hostname_label env url) f h s = f (hd "" (Js.split "." host)) h s.
Proof. intros E. unfold hostname_label. rewrite E. apply run_ret_bind. Qed.

Lemma run_try_catch {A} (m : M A) handler h s :
  try_catch m handler h s =
  let r := m h s in
  match outcome r with
  | Throw e =>
      let r' := handler e (emitted r ++ h)%list (rest r) in
      mkRes (outcome r') (emitted r' ++ emitted r)%list (rest r')
  | _ => r
  end.
Proof. reflexivity. Qed.

Lemma returns_settling {A} (m : M A) : returns m -> settling m.
Proof. intros R h s. destruct (R h s) as [a ->]. exact I. Qed.

Lemma settling_ret {A} (a : A) : settling (ret a).
Proof. intros h s; exact I. Qed.

Lemma settling_throw {A} e : settling (@throw A e).
Proof. intros h s; exact I. Qed.

Lemma settling_bind {A B} (m : M A) (f : A -> M B) :
  settling m -> (forall a, settling (f a)) -> settling (bind m f).
Proof.
  intros Hm Hf h s. unfold bind. specialize (Hm h s).
  destruct (outcome (m h s)); cbn [outcome]; try exact Hm. apply Hf.
Qed.

Lemma settling_try_catch {A} (m : M A) handler :
  settling m -> (forall e, settling (handler e)) -> settling (try_catch m handler).
Proof.
  intros Hm Hh h s. unfold try_catch. specialize (Hm h s).
  destruct (outcome (m h s)) eqn:E; cbn [outcome]; rewrite ?E; try exact Hm; try exact I.
  apply Hh.
Qed.

Lemma returns_ret {A} (a : A) : returns (ret a).
Proof. intros h s; eexists; reflexivity. Qed.

Lemma returns_emit e : returns (emit e).
Proof. intros h s; eexists; reflexivity. Qed.

Lemma returns_spawn env cmd args cwd : returns (spawn env cmd args cwd).
Proof. intros h s; eexists; reflexivity. Qed.

Lemma returns_fs_exists env path : returns (fs_exists env path).
Proof. intros h s; eexists; reflexivity. Qed.

Lemma returns_bind {A B} (m : M A) (f : A -> M B) :
  returns m -> (forall a, returns (f a)) -> returns (bind m f).
Proof.
  intros Hm Hf h s. unfold bind. destruct (Hm h s) as [a ->]. cbn [outcome]. apply Hf.
Qed.

Lemma returns_try_catch {A} (m : M A) handler :
  settling m -> (forall e, returns (handler e)) -> returns (try_catch m handler).
Proof.
  intros Hm Hh h s. unfold try_catch. specialize (Hm h s).
  destruct (outcome (m h s)) eqn:E; cbn [outcome]; rewrite ?E; try contradiction; eauto.
  apply Hh.
Qed.

Lemma settling_readFile env path : settling (readFile env path).
Proof. intros h s. unfold readFile. destruct (read_file env h path); exact I. Qed.

Lemma settling_writeFile env path content : settling (writeFile env path content).
Proof. intros h s. unfold writeFile. destruct (write_error env h path content); exact I. Qed.

Lemma settling_hostname_label env url : settling (hostname_label env url).
Proof. intros h s. unfold hostname_label. destruct (url_hostname env url); exact I. Qed.

Lemma settling_json_parse env text : settling (json_parse env text).
Proof. intros h s. unfold json_parse. destruct (JSON_parse env text); exact I. Qed.

Lemma settling_get_prop v k : settling (get_prop v k).
Proof. intros h s. unfold get_prop. destruct (JsValue.prop v k); exact I. Qed.

Lemma always_emits_emit e : always_emits e (emit e).
Proof. intros h s. left. reflexivity. Qed.

Lemma always_emits_spawn env cmd args cwd :
  always_emits (ESpawn cmd args cwd) (spawn env cmd args cwd).
Proof. intros h s. left. reflexivity. Qed.

Lemma always_emits_bind_l {A B} e (m : M A) (f : A -> M B) :
  always_emits e m -> always_emits e (bind m f).
Proof.
  intros Hm h s. unfold bind. specialize (Hm h s).
  destruct (outcome (m h s)); cbn [emitted]; auto. apply in_or_app; auto.
Qed.

Lemma always_emits_bind_r {A B} e (m : M A) (f : A -> M B) :
  returns m -> (forall a, always_emits e (f a)) -> always_emits e (bind m f).
Proof.
  intros Hm Hf h s. unfold bind. destruct (Hm h s) as [a ->]. cbn [emitted].
  apply in_or_app; left. apply Hf.
Qed.

Ltac settle_step :=
  lazymatch goal with
  | |- returns (bind _ _) => apply returns_bind; [ | intros ? ]
  | |- returns (ret _) => apply returns_ret
  | |- returns (emit _) => apply returns_emit
  | |- returns (say _ _) => apply returns_emit
  | |- returns (sleep _) => apply returns_emit
  | |- returns (spawn _ _ _ _) => apply returns_spawn
  | |- returns (fs_exists _ _) => apply returns_fs_exists
  | |- returns (try_catch _ _) => apply returns_try_catch; [ | intros ? ]
  | |- returns (if ?b then _ else _) => destruct b
  | |- returns (match ?x with _ => _ end) => destruct x
  | |- settling (bind _ _) => apply settling_bind; [ | intros ? ]
  | |- settling (ret _) => apply settling_ret
  | |- settling (throw _) => apply settling_throw
  | |- settling (try_catch _ _) => apply settling_try_catch; [ | intros ? ]
  | |- settling (readFile _ _) => apply settling_readFile
  | |- settling (writeFile _ _ _) => apply settling_writeFile
  | |- settling (hostname_label _ _) => apply settling_hostname_label
  | |- settling (json_parse _ _) => apply settling_json_parse
  | |- settling (get_prop _ _) => apply settling_get_prop
  | |- settling (if ?b then _ else _) => destruct b
  | |- settling (match ?x with _ => _ end) => destruct x
  | |- settling _ => apply returns_settling
  end.

Lemma sat_events_weaken {A} (m : M A) Q (P1 P2 : Event -> Prop) :
  sat m Q P1 -> (forall e, P1 e -> P2 e) -> sat m Q P2.
Proof.
  intros Hm Hp h s. destruct (Hm h s) as [Ev Val]. split; [|exact Val].
  eapply Forall_impl; eauto.
Qed.

Lemma sat_generate_password env P (Q : string -> Prop) :
  (forall p, Q p) -> sat (SupabaseCli.generate_password env) Q P.
Proof. intros Hq h s; split; [constructor | intros a _; apply Hq]. Qed.

Lemma sat_or_continue {A} P (block : M (option A)) (k : M A) (Q : A -> Prop) :
  sat block (fun o => match o with Some r => Q r | None => True end) P ->
  sat k Q P ->
  sat (or_continue block k) Q P.
Proof.
  intros Hb Hk. unfold or_continue. eapply sat_bind; [exact Hb|].
  intros [r|] Hr; [apply sat_ret; exact Hr | exact Hk].
Qed.

Lemma sat_and_then P (block next : M (option SetupMethod.SetupResult))
      (Q : option SetupMethod.SetupResult -> Prop) :
  sat block (fun o => match o with Some r => Q (Some r) | None => True end) P ->
  sat next Q P ->
  sat (SetupMethod.and_then block next) Q P.
Proof.
  intros Hb Hk. unfold SetupMethod.and_then. eapply sat_bind; [exact Hb|].
  intros [r|] Hr; [apply sat_ret; exact Hr | exact Hk].
Qed.

Lemma sat_date_now env P (Q : Z -> Prop) :
  (forall t, Q t) -> sat (date_now env) Q P.
Proof. intros Hq h s; split; [constructor | intros a _; apply Hq]. Qed.

Ltac sat_event := first [ exact I | reflexivity | discriminate | (simpl; trivial; fail) | (simpl; congruence) ].

Ltac sat_step :=
  lazymatch goal with
  | |- sat (bind (if _ then _ else _) _) _ _ =>
      apply (@sat_bind _ _ _ _ _ (fun _ => True)); [ | intros ? _ ]
  | |- sat (bind (match _ with _ => _ end) _) _ _ =>
      apply (@sat_bind _ _ _ _ _ (fun _ => True)); [ | intros ? _ ]
  | |- sat (bind (try_catch _ _) _) _ _ =>
      apply (@sat_bind _ _ _ _ _ (fun _ => True)); [ | intros ? _ ]
  | |- sat (bind _ _) _ _ => apply sat_bind_wp
  | |- sat (ret _) _ _ => apply sat_ret
  | |- sat (throw _) _ _ => apply sat_throw
  | |- sat (exit _) _ _ => apply sat_exit
  | |- sat out_of_fuel _ _ => apply sat_out_of_fuel
  | |- sat (try_catch _ _) _ _ => apply sat_try_catch; [ | intros ? ]
  | |- sat (emit _) _ _ => apply sat_emit; [ sat_event | ]
  | |- sat (say _ _) _ _ => apply sat_emit; [ sat_event | ]
  | |- sat (sleep _) _ _ => apply sat_emit; [ sat_event | ]
  | |- sat (spawn _ _ _ _) _ _ => apply sat_spawn; [ sat_event | intros ? ? ]
  | |- sat (fs_exists _ _) _ _ => apply sat_fs_exists; [ sat_event | intros ? ]
  | |- sat (readFile _ _) _ _ => apply sat_readFile; [ sat_event | intros ? ]
  | |- sat (writeFile _ _ _) _ _ => apply sat_writeFile; [ sat_event | ]
  | |- sat (json_parse _ _) _ _ => apply sat_json_parse; intros ? ?
  | |- sat (hostname_label _ _) _ _ => apply sat_hostname_label; intros ?
  | |- sat (get_prop _ _) _ _ => apply sat_get_prop; intros ?
  | |- sat (date_now _) _ _ => apply sat_date_now; intros ?
  | |- sat (SupabaseCli.generate_password _) _ _ => apply sat_generate_password; intros ?
  | |- sat (CopyTemplate.copyTemplate _ _) _ _ => apply sat_copyTemplate; [ sat_event | ]
  | |- sat (Prompt.text _ _) _ _ =>
      apply sat_text; [ sat_event | intros ?; sat_event | | intros ? ? ]
  | |- sat (Prompt.password _ _) _ _ =>
      apply sat_password; [ sat_event | intros ?; sat_event | | intros ? ? ]
  | |- sat (Prompt.select _ _) _ _ => apply sat_select; [ sat_event | | intros ? ? ]
  | |- sat (Prompt.confirm _) _ _ => apply sat_confirm; [ sat_event | intros ? ]
  | |- sat (if ?b then _ else _) _ _ => destruct b eqn:?
  | |- sat (match ?x with _ => _ end) _ _ => destruct x eqn:?
  | |- sat (or_continue _ _) _ _ => apply sat_or_continue
  | |- sat (SetupMethod.and_then _ _) _ _ => apply sat_and_then
  | |- sat (let _ := _ in _) _ _ => cbv zeta
  end.

(** Running a computation that emits nothing and reads nothing. *)
Lemma bind_pure {A B} (m : M A) (f : A -> M B) o h s :
  m h s = mkRes o [] s ->
  bind m f h s =
  match o with
  | Ret a => f a h s
  | Throw e => mkRes (Throw e) [] s
  | Exit c => mkRes (Exit c) [] s
  | OutOfFuel => mkRes OutOfFuel [] s
  end.
Proof.
  intros E. unfold bind. rewrite E. destruct o; cbn [outcome emitted rest app]; try reflexivity.
  rewrite app_nil_r. apply res_eta.
Qed.

Create HintDb flows discriminated.

(** A call of a function with a proven specification in [flows]. *)
Ltac sat_call :=
  lazymatch goal with
  | |- sat _ _ _ =>
      first [ eapply sat_weaken; [ solve [ eauto with flows ] | intros ? ? ]
            | eapply sat_weaken;
              [ eapply sat_events_weaken; [ solve [ eauto with flows ] | solve [ eauto with flows ] ]
              | intros ? ? ] ]
  end.

End Rules.

(* ================================================================== *)
(** * The events of the platform adapter *)
(* ================================================================== *)

Module AdapterFlows.
Import Scenarios Properties Rules.
Import ListNotations.
Open Scope string_scope.
Import SupabaseCli.

Ltac flow := repeat (first [ sat_step | sat_call ]; try discriminate; try congruence; auto).

Lemma org_of_json_events org : sat (org_of_json org) (fun _ => True) adapter_event.
Proof. unfold org_of_json. flow. Qed.

Lemma project_of_json_events project :
  sat (project_of_json project) (fun _ => True) adapter_event.
Proof. unfold project_of_json. flow. Qed.

Lemma mapM_events {A B} (f : A -> M B) l :
  (forall a, sat (f a) (fun _ => True) adapter_event) ->
  sat (mapM f l) (fun _ => True) adapter_event.
Proof.
  intros Hf. eapply sat_weaken; [apply sat_mapM with (R := fun _ => True); auto|auto].
Qed.

Lemma find_api_key_events wanted keys :
  sat (find_api_key wanted keys) (fun _ => True) adapter_event.
Proof. induction keys; simpl; flow. Qed.

#[export] Hint Resolve org_of_json_events project_of_json_events mapM_events
  find_api_key_events : flows.

Section Adapter.
Variable env : Env.

Lemma hasSupabaseCLI_events : sat (hasSupabaseCLI env) (fun _ => True) adapter_event.
Proof. unfold hasSupabaseCLI. flow. Qed.

Lemma isAuthenticated_events : sat (isAuthenticated env) (fun _ => True) adapter_event.
Proof. unfold isAuthenticated. flow. Qed.

Lemma login_events : sat (login env) (fun _ => True) adapter_event.
Proof. unfold login. flow. Qed.

Lemma installCLI_events : sat (installCLI env) (fun _ => True) adapter_event.
Proof. unfold installCLI, run_installer, installViaWindows. flow. Qed.

Lemma installCLIManual_events : sat (installCLIManual env) (fun _ => True) adapter_event.
Proof.
  unfold installCLIManual, installViaBrew, installViaDirectDownload, installViaWindows. flow.
Qed.

Lemma getOrganizations_events : sat (getOrganizations env) (fun _ => True) adapter_event.
Proof. unfold getOrganizations. flow. Qed.

Lemma listProjects_events : sat (listProjects env) (fun _ => True) adapter_event.
Proof. unfold listProjects. flow. Qed.

Lemma getProjectCredentials_events projectRef :
  sat (getProjectCredentials env projectRef) (fun _ => True) adapter_event.
Proof. unfold getProjectCredentials. flow. Qed.

Lemma poll_ready_events ticks projectRef maxWaitTime :
  forall checkCount,
    sat (poll_ready env ticks projectRef maxWaitTime checkCount) (fun _ => True) adapter_event.
Proof. induction ticks; intros; simpl; flow. Qed.

Lemma waitForProjectReady_events projectRef :
  sat (waitForProjectReady env projectRef) (fun _ => True) adapter_event.
Proof. unfold waitForProjectReady. flow. apply poll_ready_events. Qed.

End Adapter.

#[export] Hint Resolve hasSupabaseCLI_events isAuthenticated_events login_events
  installCLI_events installCLIManual_events getOrganizations_events listProjects_events
  getProjectCredentials_events waitForProjectReady_events : flows.

Import DetectPackageManagers.

Lemma getAvailable_events env :
  sat (getAvailablePackageManagers env) (fun _ => True) adapter_event.
Proof.
  unfold getAvailablePackageManagers, isPackageManagerInstalled.
  destruct (isWindows env); cbn [filterM allOptions value]; flow.
Qed.
#[export] Hint Resolve getAvailable_events : flows.

Lemma getDefault_events env :
  sat (getDefaultPackageManager env) (fun _ => True) adapter_event.
Proof. unfold getDefaultPackageManager. flow. Qed.
#[export] Hint Resolve getDefault_events : flows.

End AdapterFlows.

(* ================================================================== *)
(** * The retry policy of the CLI migration strategy *)
(* ================================================================== *)

Module RetryPolicy.
Import Scenarios Properties Rules.
Import ListNotations.
Open Scope string_scope.
Import Constants SupabaseSetup.

Lemma viaCLI_unfold env targetDir projectRef dbPassword fuel retryCount :
  applyMigrationsViaCLI_rec env (S fuel) targetDir projectRef dbPassword retryCount =
  applyMigrationsViaCLI_body env
    (applyMigrationsViaCLI_rec env fuel targetDir projectRef dbPassword)
    targetDir projectRef dbPassword retryCount.
Proof. reflexivity. Qed.

Lemma viaCLI_starts_with_link env targetDir projectRef dbPassword retryCount h s :
  exists more,
    emitted (applyMigrationsViaCLI env targetDir projectRef dbPassword retryCount h s)
    = (more ++ [linkEvent targetDir projectRef dbPassword])%list.
Proof.
  unfold applyMigrationsViaCLI. rewrite viaCLI_unfold.
  unfold applyMigrationsViaCLI_body, bind at 1. simpl.
  eexists. reflexivity.
Qed.

Lemma viaCLI_after_push_failure env targetDir projectRef dbPassword retryCount h s :
  let linkEv := linkEvent targetDir projectRef dbPassword in
  let pushEv := pushEvent targetDir in
  let push := proc env (linkEv :: h) "supabase" ["db"; "push"] (Some targetDir) in
  succeeded (proc env h "supabase"
               ["link"; "--project-ref"; projectRef; "--password"; dbPassword]
               (Some targetDir)) = true ->
  succeeded push = false ->
  applyMigrationsViaCLI env targetDir projectRef dbPassword retryCount h s =
  if isProvisioningIssue (stderr push) && (retryCount <? 3)%nat then
    let delay := ESleep (Z.of_nat (retryCount + 1) * 10000) in
    let r' := applyMigrationsViaCLI env targetDir projectRef dbPassword (retryCount + 1)
                (delay :: pushEv :: linkEv :: h) s in
    mkRes (outcome r') (emitted r' ++ [delay; pushEv; linkEv])%list (rest r')
  else mkRes (Throw ("Migration push failed: " ++ stderr push)) [pushEv; linkEv] s.
Proof.
  intros linkEv pushEv push Hl Hp.
  subst linkEv pushEv push. unfold linkEvent, pushEvent in *.
  assert (Far : forall n, (S (S (S n)) <? 3)%nat = false) by (intros; apply Nat.ltb_ge; lia).
  destruct retryCount as [|[|[|n]]];
    unfold applyMigrationsViaCLI, MAX_MIGRATION_RETRIES;
    rewrite ?Far, ?andb_false_r;
    cbn [Nat.sub Nat.add applyMigrationsViaCLI_rec Nat.ltb Nat.leb andb];
    unfold applyMigrationsViaCLI_body at 1;
    rewrite run_spawn_bind; cbv zeta; rewrite Hl; cbn [negb];
    rewrite run_spawn_bind; cbv zeta; rewrite Hp;
    unfold MAX_MIGRATION_RETRIES, MIGRATION_RETRY_BASE_DELAY_MS;
    rewrite ?Far, ?andb_false_r, ?andb_true_r;
    cbn [Nat.sub Nat.add Nat.ltb Nat.leb andb];
    try match goal with
        | |- context [if ?c then _ else _] => destruct c eqn:C
        end;
    unfold sleep; rewrite ?run_emit_bind; cbv zeta;
    unfold throw; cbn [outcome emitted rest app];
    rewrite <- ?app_assoc; cbn [app]; reflexivity.
Qed.

(** C2. When the link succeeds and the push fails, the applier retries
    exactly when the push's stderr names a provisioning issue and
    [retryCount < 3]: it sleeps [(retryCount+1) * 10000] ms and runs the
    whole CLI strategy again with [retryCount+1], which begins with the
    link step; otherwise it throws an error that carries the push's stderr,
    having spawned the link and the push once. *)
Theorem push_failure_retry_policy :
  forall env targetDir projectRef dbPassword retryCount h s,
    let linkEv := linkEvent targetDir projectRef dbPassword in
    let pushEv := pushEvent targetDir in
    let link := proc env h "supabase"
                  ["link"; "--project-ref"; projectRef; "--password"; dbPassword]
                  (Some targetDir) in
    let push := proc env (linkEv :: h) "supabase" ["db"; "push"] (Some targetDir) in
    let r := applyMigrationsViaCLI env targetDir projectRef dbPassword retryCount h s in
    succeeded link = true ->
    succeeded push = false ->
    if isProvisioningIssue (stderr push) && (retryCount <? 3)%nat then
      let delay := ESleep (Z.of_nat (retryCount + 1) * 10000) in
      let r' := applyMigrationsViaCLI env targetDir projectRef dbPassword (retryCount + 1)
                  (delay :: pushEv :: linkEv :: h) s in
      outcome r = outcome r' /\
      emitted r = (emitted r' ++ [delay; pushEv; linkEv])%list /\
      (exists more, emitted r' = (more ++ [linkEv])%list)
    else
      outcome r = Throw ("Migration push failed: " ++ stderr push) /\
      emitted r = [pushEv; linkEv].
Proof.
  intros env targetDir projectRef dbPassword retryCount h s linkEv pushEv link push r Hl Hp.
  subst r. rewrite (viaCLI_after_push_failure env _ _ _ retryCount h s Hl Hp).
  fold linkEv pushEv push.
  destruct (isProvisioningIssue (stderr push) && (retryCount <? 3)%nat).
  - cbn [outcome emitted]. repeat split. apply viaCLI_starts_with_link.
  - split; reflexivity.
Qed.

Lemma push_failure_retry_policy_witness :
  let r := applyMigrationsViaCLI slow_tenant "/work/demo-app" "abc" "correct-horse-battery"
             0 [] [] in
  let r' := applyMigrationsViaCLI slow_tenant "/work/demo-app" "abc" "correct-horse-battery"
              1 [ESleep 10000; pushEvent "/work/demo-app";
                 linkEvent "/work/demo-app" "abc" "correct-horse-battery"] [] in
  outcome r = outcome r' /\
  emitted r = (emitted r' ++ [ESleep 10000; pushEvent "/work/demo-app";
                              linkEvent "/work/demo-app" "abc" "correct-horse-battery"])%list /\
  (exists more,
      emitted r' = (more ++ [linkEvent "/work/demo-app" "abc" "correct-horse-battery"])%list).
Proof.
  exact (push_failure_retry_policy slow_tenant "/work/demo-app" "abc"
           "correct-horse-battery" 0 [] [] eq_refl eq_refl).
Defined.

(** C2, counterexample. A push that fails once with a provisioning issue
    is retried together with the link step: the link is spawned twice. *)
Lemma retry_repeats_the_link_step :
  rev (emitted (applyMigrationsViaCLI slow_tenant "/work/demo-app" "abc"
                  "correct-horse-battery" 0 [] []))
  = [linkEvent "/work/demo-app" "abc" "correct-horse-battery";
     pushEvent "/work/demo-app";
     ESleep 10000;
     linkEvent "/work/demo-app" "abc" "correct-horse-battery";
     pushEvent "/work/demo-app"].
Proof. vm_compute. reflexivity. Qed.

End RetryPolicy.

(* ================================================================== *)
(** * The outcomes of [applyMigrations] *)
(* ================================================================== *)

Module MigrationOutcome.
Import Scenarios Properties Rules.
Import ListNotations.
Open Scope string_scope.
Import Constants SupabaseSetup.

Lemma viaCLI_events env targetDir projectRef dbPassword fuel :
  forall retryCount,
  sat (applyMigrationsViaCLI_rec env fuel targetDir projectRef dbPassword retryCount)
      (fun _ => True) applier_event.
Proof.
  induction fuel as [|fuel IH]; intros retryCount; simpl.
  - apply sat_out_of_fuel.
  - unfold applyMigrationsViaCLI_body. repeat sat_step; auto.
Qed.

Lemma applyMigrations_events env targetDir supabaseUrl serviceKey dbPassword :
  sat (applyMigrations env targetDir supabaseUrl serviceKey dbPassword)
      (fun m => m = cli \/ m = manual) applier_event.
Proof.
  unfold applyMigrations, hasSupabaseCLI. repeat sat_step; auto.
  eapply sat_weaken; [apply viaCLI_events|]. intros. repeat sat_step. auto.
Qed.

#[export] Hint Resolve applyMigrations_events : flows.

Lemma applyMigrations_no_api env targetDir supabaseUrl serviceKey dbPassword :
  sat (applyMigrations env targetDir supabaseUrl serviceKey dbPassword)
      (fun m => m = cli \/ m = manual) (fun e => is_api_event e = false).
Proof.
  eapply sat_events_weaken; [apply applyMigrations_events|].
  intros [] H; try contradiction; reflexivity.
Qed.

Lemma viaCLI_rec_settles env targetDir projectRef dbPassword fuel :
  forall retryCount h s,
    (MAX_MIGRATION_RETRIES - retryCount < fuel)%nat ->
    settles (outcome (applyMigrationsViaCLI_rec env fuel targetDir projectRef dbPassword
                        retryCount h s)).
Proof.
  induction fuel as [|fuel IH]; intros retryCount h s Hf; [lia|].
  cbn [applyMigrationsViaCLI_rec]. unfold applyMigrationsViaCLI_body.
  rewrite run_spawn_bind. cbv zeta. cbn [outcome].
  destruct (succeeded (proc env h _ _ _)); cbn [negb]; [|exact I].
  rewrite run_spawn_bind. cbv zeta. cbn [outcome].
  destruct (succeeded (proc env _ "supabase" ["db"; "push"] _)); [exact I|].
  destruct (isProvisioningIssue _ && (retryCount <? MAX_MIGRATION_RETRIES)%nat) eqn:C;
    [|exact I].
  apply andb_prop in C. destruct C as [_ C]. apply Nat.ltb_lt in C.
  unfold sleep. rewrite run_emit_bind. cbv zeta. cbn [outcome].
  apply IH. lia.
Qed.

Lemma viaCLI_settles env targetDir projectRef dbPassword retryCount h s :
  settles (outcome (applyMigrationsViaCLI env targetDir projectRef dbPassword retryCount h s)).
Proof. apply viaCLI_rec_settles. lia. Qed.

Lemma applyMigrations_eval env targetDir supabaseUrl serviceKey dbPassword h s sql host :
  read_file env h (join targetDir migration_file) = inl sql ->
  url_hostname env supabaseUrl = Some host ->
  applyMigrations env targetDir supabaseUrl serviceKey dbPassword h s =
  if succeeded (proc env (readEvent targetDir :: h) "supabase" ["--version"] None)
     && Js.truthy_opt dbPassword
  then
    let c := applyMigrationsViaCLI env targetDir (hd "" (Js.split "." host))
               (match dbPassword with Some p => p | None => "" end) 0
               (versionEvent :: readEvent targetDir :: h) s in
    mkRes (match outcome c with
           | Ret _ => Ret cli
           | Throw _ => Ret manual
           | Exit k => Exit k
           | OutOfFuel => OutOfFuel
           end)
          (emitted c ++ [versionEvent; readEvent targetDir])%list (rest c)
  else mkRes (Ret manual) [versionEvent; readEvent targetDir] s.
Proof.
  intros Hr Hu. unfold applyMigrations, readEvent, versionEvent.
  erewrite run_readFile_bind by exact Hr. cbv zeta.
  erewrite run_hostname_bind by exact Hu.
  unfold hasSupabaseCLI. rewrite run_bind_assoc, run_spawn_bind. cbv zeta.
  rewrite run_ret_bind.
  destruct (succeeded (proc env _ "supabase" ["--version"] None)); cbn [andb].
  2:{ destruct dbPassword; reflexivity. }
  destruct dbPassword as [p|]; [|reflexivity]. cbn [Js.truthy_opt].
  destruct (Js.truthy p); [|reflexivity].
  unfold try_catch, bind, ret.
  destruct (applyMigrationsViaCLI env targetDir (hd "" (Js.split "." host)) p 0 _ s)
    as [o ev rs]; cbn [outcome emitted rest].
  destruct o; cbn [outcome emitted rest app];
    rewrite ?app_nil_l, <- ?app_assoc; reflexivity.
Qed.

Lemma execute_statements_throws statements h s :
  Forall (fun st => Js.truthy st = true) statements ->
  statements <> [] ->
  execute_statements statements h s
  = mkRes (Throw "Direct SQL execution not supported via API") [EApiQuery] s.
Proof.
  intros Hall Hne. destruct statements as [|st more]; [congruence|].
  inversion Hall as [|? ? Hst _]; subst. simpl. rewrite Hst. reflexivity.
Qed.

Lemma statements_of_truthy sql :
  Forall (fun st => Js.truthy st = true) (statements_of sql).
Proof.
  unfold statements_of. apply Forall_forall. intros st Hin.
  apply filter_In in Hin. destruct Hin as [_ Hk].
  apply andb_prop in Hk. destruct Hk as [Hlen _].
  destruct st; [discriminate|reflexivity].
Qed.

Lemma applyMigrations_not_api env targetDir supabaseUrl serviceKey dbPassword h s :
  outcome (applyMigrations env targetDir supabaseUrl serviceKey dbPassword h s) <> Ret api.
Proof.
  destruct (applyMigrations_no_api env targetDir supabaseUrl serviceKey dbPassword h s)
    as [_ Val].
  intros E. destruct (Val _ E); discriminate.
Qed.

Lemma applyMigrations_cli_or_manual env targetDir supabaseUrl serviceKey dbPassword h s
      sql host :
  read_file env h (join targetDir migration_file) = inl sql ->
  url_hostname env supabaseUrl = Some host ->
  outcome (applyMigrations env targetDir supabaseUrl serviceKey dbPassword h s) = Ret cli \/
  outcome (applyMigrations env targetDir supabaseUrl serviceKey dbPassword h s) = Ret manual.
Proof.
  intros Hr Hu. erewrite applyMigrations_eval by eassumption.
  destruct (succeeded _ && Js.truthy_opt dbPassword); [|right; reflexivity].
  cbv zeta. cbn [outcome].
  pose proof (viaCLI_settles env targetDir (hd "" (Js.split "." host))
                (match dbPassword with Some p => p | None => "" end) 0
                (versionEvent :: readEvent targetDir :: h) s) as St.
  destruct (outcome (applyMigrationsViaCLI _ _ _ _ _ _ _)); simpl in St;
    try contradiction; [left|right]; reflexivity.
Qed.



End MigrationOutcome.

(* ================================================================== *)
(** * A failing CLI strategy and the pipeline *)
(* ================================================================== *)

Module CliFallback.
Import Scenarios Properties Rules MigrationOutcome.
Import ListNotations.
Open Scope string_scope.
Import Constants SupabaseSetup.

Lemma in_bind {A B} (m : M A) (f : A -> M B) h s e :
  In e (emitted (bind m f h s)) ->
  In e (emitted (m h s)) \/
  exists a, outcome (m h s) = Ret a /\
            In e (emitted (f a (emitted (m h s) ++ h)%list (rest (m h s)))).
Proof.
  unfold bind. destruct (outcome (m h s)) as [a| | |] eqn:E; cbn [emitted]; auto.
  intros Hin. apply in_app_or in Hin. destruct Hin; eauto.
Qed.

Lemma in_bind_right {A B} (m : M A) (f : A -> M B) h s e a :
  outcome (m h s) = Ret a ->
  In e (emitted (f a (emitted (m h s) ++ h)%list (rest (m h s)))) ->
  In e (emitted (bind m f h s)).
Proof.
  unfold bind. intros ->. cbn [emitted]. intros. apply in_or_app. auto.
Qed.

Lemma in_try_catch {A} (m : M A) handler h s e :
  In e (emitted (try_catch m handler h s)) ->
  In e (emitted (m h s)) \/
  exists x, outcome (m h s) = Throw x /\
            In e (emitted (handler x (emitted (m h s) ++ h)%list (rest (m h s)))).
Proof.
  unfold try_catch. destruct (outcome (m h s)) as [a|x| |] eqn:E; cbn [emitted]; auto.
  intros Hin. apply in_app_or in Hin. destruct Hin; eauto.
Qed.

Lemma in_try_catch_left {A} (m : M A) handler h s e :
  In e (emitted (m h s)) -> In e (emitted (try_catch m handler h s)).
Proof.
  unfold try_catch. destruct (outcome (m h s)); cbn [emitted]; auto.
  intros. apply in_or_app. auto.
Qed.

Lemma sat_not_in {A} (m : M A) Q (p : Event -> bool) h s e :
  sat m Q (fun x => p x = false) -> p e = true -> ~ In e (emitted (m h s)).
Proof.
  intros Hs He Hin. destruct (Hs h s) as [Ev _].
  rewrite Forall_forall in Ev. specialize (Ev _ Hin). congruence.
Qed.

Ltac sat_event ::=
  first [ exact I | reflexivity | discriminate
        | (match goal with pm : PackageManager |- _ => destruct pm end; reflexivity)
        | (simpl; trivial; fail) | (simpl; congruence) ].

Lemma applyMigrations_after_link env targetDir supabaseUrl serviceKey dbPassword h s e :
  is_link e = true ->
  In e (emitted (applyMigrations env targetDir supabaseUrl serviceKey dbPassword h s)) ->
  outcome (applyMigrations env targetDir supabaseUrl serviceKey dbPassword h s) = Ret cli \/
  outcome (applyMigrations env targetDir supabaseUrl serviceKey dbPassword h s) = Ret manual.
Proof.
  intros He Hin.
  destruct (read_file env h (join targetDir migration_file)) as [sql|err] eqn:Hr.
  2:{ exfalso. unfold applyMigrations, bind at 1, readFile in Hin. rewrite Hr in Hin.
      cbn [outcome emitted] in Hin. destruct Hin as [<-|[]]. discriminate. }
  destruct (url_hostname env supabaseUrl) as [host|] eqn:Hu.
  2:{ exfalso. unfold applyMigrations in Hin.
      erewrite run_readFile_bind in Hin by exact Hr. cbv zeta in Hin.
      unfold bind at 1, hostname_label in Hin. rewrite Hu in Hin.
      cbn [outcome emitted throw app] in Hin. destruct Hin as [<-|[]]. discriminate. }
  exact (applyMigrations_cli_or_manual env targetDir supabaseUrl serviceKey dbPassword
           h s sql host Hr Hu).
Qed.

Lemma in_bind_right2 {A B} (m : M A) (f : A -> M B) h s e1 e2 a :
  outcome (m h s) = Ret a ->
  In e1 (emitted (f a (emitted (m h s) ++ h)%list (rest (m h s)))) /\
  In e2 (emitted (f a (emitted (m h s) ++ h)%list (rest (m h s)))) ->
  In e1 (emitted (bind m f h s)) /\ In e2 (emitted (bind m f h s)).
Proof. intros E [H1 H2]. split; eapply in_bind_right; eauto. Qed.

Lemma walk_bind {A B} (m : M A) (f : A -> M B) (p : Event -> bool) h s e e1 e2 :
  sat m (fun _ => True) (fun x => p x = false) ->
  p e = true ->
  (forall a h' s',
      In e (emitted (f a h' s')) ->
      In e1 (emitted (f a h' s')) /\ In e2 (emitted (f a h' s'))) ->
  In e (emitted (bind m f h s)) ->
  In e1 (emitted (bind m f h s)) /\ In e2 (emitted (bind m f h s)).
Proof.
  intros Hs He Hk Hin. apply in_bind in Hin. destruct Hin as [Hin | (a & Ea & Hin)].
  - exfalso. eapply sat_not_in; eauto.
  - destruct (Hk _ _ _ Hin). split; eapply in_bind_right; eauto.
Qed.

Ltac walk :=
  lazymatch goal with
  | |- In _ (emitted (bind _ _ ?h ?s)) -> _ =>
      apply (@walk_bind _ _ _ _ is_link);
      [ | assumption | intros ?; clear h s; intros h s ]
  end.

Lemma generateTypes_returns env targetDir projectRef :
  returns (generateTypes env targetDir projectRef).
Proof. unfold generateTypes, hasSupabaseCLI. repeat settle_step. Qed.

Ltac as_always_emits :=
  lazymatch goal with
  | |- In ?e (emitted (?m ?h ?s)) =>
      let AE := fresh "AE" in
      cut (always_emits e m); [ intros AE; apply AE | ]
  end.

Lemma pipeline_after_link env config h s e :
  is_link e = true ->
  In e (emitted (CreateProject.pipeline env config h s)) ->
  In (ESay SpinnerStart "Generating types") (emitted (CreateProject.pipeline env config h s)) /\
  In (installEvent config) (emitted (CreateProject.pipeline env config h s)).
Proof.
  intros He. unfold CreateProject.pipeline. revert h s.
  intros h s.
  walk. { repeat sat_step; auto. }
  walk. { repeat sat_step; auto. }
  walk. { repeat sat_step; auto. }
  walk. { unfold CopyTemplate.setPackageManager. repeat sat_step; auto. }
  walk. { repeat sat_step; auto. }
  walk. { unfold CopyTemplate.writeEnvFile. repeat sat_step; auto. }
  walk. { repeat sat_step; auto. }
  walk. { repeat sat_step; auto. }
  intros Hin.
  match type of Hin with
  | In _ (emitted (bind (applyMigrations ?e ?t ?u ?k ?p) _ ?hh ?ss)) =>
      assert (R : outcome (applyMigrations e t u k p hh ss) = Ret cli \/
                  outcome (applyMigrations e t u k p hh ss) = Ret manual)
  end.
  { apply in_bind in Hin. destruct Hin as [Hin | (m & Em & Hin)].
    - eapply applyMigrations_after_link; eauto.
    - pose proof (applyMigrations_not_api env (targetDir config) (supabaseUrl config)
                    (supabaseServiceKey config) (dbPassword config) h s) as Na.
      rewrite Em in *. destruct m; auto. congruence. }
  clear Hin.
  destruct R as [R|R]; (eapply in_bind_right2; [exact R|]); split; as_always_emits.
  all: apply always_emits_bind_r; [repeat settle_step | intros _].
  all: try (apply always_emits_bind_l; apply always_emits_emit).
  all: apply always_emits_bind_r; [repeat settle_step | intros _].
  all: apply always_emits_bind_r; [repeat settle_step | intros projectRef].
  all: apply always_emits_bind_r;
    [destruct (Js.truthy projectRef); [apply generateTypes_returns | apply returns_ret]
    | intros typesGenerated].
  all: apply always_emits_bind_r; [repeat settle_step | intros _].
  all: apply always_emits_bind_r; [repeat settle_step | intros _].
  all: apply always_emits_bind_l; unfold InstallDeps.installDependencies.
  all: apply always_emits_bind_l; apply always_emits_spawn.
Qed.

Lemma createProject_after_link env config h s e :
  is_link e = true ->
  In e (emitted (CreateProject.createProject env config h s)) ->
  In (ESay SpinnerStart "Generating types")
     (emitted (CreateProject.createProject env config h s)) /\
  In (installEvent config) (emitted (CreateProject.createProject env config h s)).
Proof.
  intros He. unfold CreateProject.createProject.
  walk. { repeat sat_step; auto. }
  walk. { repeat sat_step; auto. }
  intros Hin. apply in_try_catch in Hin. destruct Hin as [Hin | (x & _ & Hin)].
  - destruct (pipeline_after_link env config h s e He Hin).
    split; apply in_try_catch_left; assumption.
  - exfalso. revert Hin. apply (@sat_not_in _ _ (fun _ => True) is_link); [|assumption].
    repeat sat_step; auto.
Qed.




End CliFallback.

(* ================================================================== *)
(** * The environment file *)
(* ================================================================== *)

Module EnvFile.
Import Scenarios Properties Rules.
Import ListNotations.
Open Scope string_scope.
Import CopyTemplate.

Lemma prefix_app (p s : string) :
  String.prefix p s = true <-> exists t, s = p ++ t.
Proof.
  revert s. induction p as [|c p IH]; intros s; simpl.
  - destruct s; simpl; (split; [intros _; eexists; reflexivity | reflexivity]).
  - destruct s as [|d s]; simpl.
    + split; [discriminate | intros [t E]; discriminate].
    + destruct (ascii_dec c d) as [->|N].
      * rewrite IH. split; intros [t E]; exists t;
          [rewrite E; reflexivity | simpl in E; congruence].
      * split; [discriminate | intros [t E]; simpl in E; congruence].
Qed.

Lemma includes_cons c s k :
  Js.includes (String c s) k = String.prefix k (String c s) || Js.includes s k.
Proof. reflexivity. Qed.

Lemma includes_app (s k : string) :
  Js.includes s k = true <-> exists a b, s = a ++ k ++ b.
Proof.
  induction s as [|c s IH].
  - change (Js.includes "" k) with (String.prefix k "" || false).
    rewrite orb_false_r, prefix_app. split.
    + intros [t E]. exists "", t. exact E.
    + intros (a & b & E). destruct a; simpl in E; [eauto | discriminate].
  - rewrite includes_cons, orb_true_iff, IH, prefix_app. split.
    + intros [[t E] | (a & b & E)].
      * exists "", t. exact E.
      * exists (String c a), b. simpl. congruence.
    + intros (a & b & E). destruct a as [|d a]; simpl in E.
      * left. eauto.
      * right. exists a, b. congruence.
Qed.

Lemma append_assoc (a b c : string) : (a ++ b) ++ c = a ++ b ++ c.
Proof. induction a; simpl; congruence. Qed.

(** A substring that does not contain [c] lies on one side of an
    occurrence of [c]. *)
Lemma prefix_before_char k b x c y :
  k ++ b = x ++ String c y ->
  Js.includes k (String c "") = false ->
  exists b', x = k ++ b'.
Proof.
  revert x. induction k as [|d k IH]; intros x E Hc.
  - exists x. reflexivity.
  - rewrite includes_cons in Hc. apply orb_false_elim in Hc. destruct Hc as [Hd Hk].
    destruct x as [|x0 x]; simpl in E.
    + injection E as -> _. simpl in Hd. destruct (ascii_dec c c); [|congruence].
      destruct k; discriminate.
    + injection E as -> E. destruct (IH x E Hk) as [b' ->]. exists b'. reflexivity.
Qed.

Lemma includes_split x c y k :
  Js.includes (x ++ String c y) k = true ->
  Js.includes k (String c "") = false ->
  Js.includes x k = true \/ Js.includes y k = true.
Proof.
  rewrite !includes_app. intros (a & b & E) Hc. symmetry in E. revert a E.
  induction x as [|x0 x IH]; intros a E.
  - simpl in E. destruct a as [|a0 a]; simpl in E.
    + destruct (prefix_before_char k b "" c y E Hc) as [b' Eb].
      left. exists "", b'. exact Eb.
    + injection E as _ E. right. eauto.
  - destruct a as [|a0 a]; simpl in E.
    + destruct (prefix_before_char k b (String x0 x) c y E Hc) as [b' Eb].
      left. exists "", b'. exact Eb.
    + injection E as E0 E. destruct (IH a E) as [(a' & b' & ->) | R].
      * left. exists (String x0 a'), b'. reflexivity.
      * right. exact R.
Qed.

Lemma includes_mono_l a x k : Js.includes x k = true -> Js.includes (a ++ x) k = true.
Proof.
  rewrite !includes_app. intros (p & q & ->). exists (a ++ p), q.
  rewrite append_assoc. reflexivity.
Qed.

Lemma includes_mono_r x b k : Js.includes x k = true -> Js.includes (x ++ b) k = true.
Proof.
  rewrite !includes_app. intros (p & q & ->). exists p, (q ++ b).
  rewrite !append_assoc. reflexivity.
Qed.

Lemma envContent_shape url anon :
  envContent url anon =
  head0 ++ String "=" (url ++ String "010" (middle0 ++ String "=" (anon ++ String "010" tail0))).
Proof. reflexivity. Qed.

Lemma env_file_excludes_key url anon key :
  Js.includes key "=" = false ->
  Js.includes key Js.nl = false ->
  Js.includes url key = false ->
  Js.includes anon key = false ->
  Js.includes (envContent "" "") key = false ->
  Js.includes (envContent url anon) key = false.
Proof.
  intros Heq Hnl Hurl Hanon Hfixed.
  destruct (Js.includes (envContent url anon) key) eqn:Hin; [exfalso|reflexivity].
  rewrite envContent_shape in Hin. rewrite envContent_shape in Hfixed.
  apply includes_split in Hin; [|exact Heq]. destruct Hin as [Hin|Hin].
  { apply (includes_mono_r _ (String "=" ("" ++ String "010" (middle0 ++ String "=" ("" ++ String "010" tail0))))) in Hin.
    congruence. }
  apply includes_split in Hin; [|exact Hnl]. destruct Hin as [Hin|Hin]; [congruence|].
  apply includes_split in Hin; [|exact Heq]. destruct Hin as [Hin|Hin].
  { apply (includes_mono_r _ (String "=" ("" ++ String "010" tail0))) in Hin.
    apply (includes_mono_l (head0 ++ String "=" (String "010" ""))) in Hin.
    exact (eq_true_false_abs _ Hin Hfixed). }
  apply includes_split in Hin; [|exact Hnl]. destruct Hin as [Hin|Hin]; [congruence|].
  apply (includes_mono_l (head0 ++ String "=" (String "010" (middle0 ++ String "=" (String "010" ""))))) in Hin.
  exact (eq_true_false_abs _ Hin Hfixed).
Qed.

Import SupabaseSetup.
Import MigrationOutcome.

Lemma append_inj_l (a x y : string) : a ++ x = a ++ y -> x = y.
Proof. induction a; simpl; intros E; [exact E | injection E; auto]. Qed.

Lemma join_inj dir x y : join dir x = join dir y -> x = y.
Proof.
  unfold join. intros E. apply append_inj_l in E. simpl in E. congruence.
Qed.

Ltac sat_event ::=
  first [ exact I | reflexivity
        | (simpl; intros; reflexivity)
        | (simpl; let E := fresh in intros E; apply join_inj in E; discriminate) ].

Lemma createProject_env_write env config :
  sat (CreateProject.createProject env config) (fun _ => True) (env_write_ok config).
Proof.
  unfold CreateProject.createProject, CreateProject.pipeline,
    CopyTemplate.setPackageManager, CopyTemplate.writeEnvFile,
    generateTypes, hasSupabaseCLI, InstallDeps.installDependencies.
  repeat sat_step; auto.
  all: try (eapply sat_events_weaken; [eapply sat_weaken; [apply applyMigrations_events|] | ]).
  all: try (intros []; simpl; intros; try contradiction; exact I).
  all: intros; repeat sat_step; auto.
Qed.

(** C3. The environment file the materializer writes is the fixed text
    around the URL and the anonymous key; it does not contain the service
    key when that key holds no '=' and no line feed and occurs neither in
    the URL, nor in the anonymous key, nor in the fixed text. *)
Theorem env_file_never_contains_service_key :
  forall env config h s path content,
    In (EWriteFile path content) (emitted (CreateProject.createProject env config h s)) ->
    path = join (targetDir config) ".env.local" ->
    content = env_head ++ supabaseUrl config ++ env_middle ++ supabaseAnonKey config ++ env_tail /\
    (Js.includes (supabaseServiceKey config) "=" = false ->
     Js.includes (supabaseServiceKey config) Js.nl = false ->
     Js.includes (supabaseUrl config) (supabaseServiceKey config) = false ->
     Js.includes (supabaseAnonKey config) (supabaseServiceKey config) = false ->
     Js.includes (envContent "" "") (supabaseServiceKey config) = false ->
     Js.includes content (supabaseServiceKey config) = false).
Proof.
  intros env config h s path content Hin Hpath.
  destruct (createProject_env_write env config h s) as [Ev _].
  rewrite Forall_forall in Ev. specialize (Ev _ Hin Hpath). subst content.
  split; [reflexivity|]. apply env_file_excludes_key.
Qed.

Lemma env_file_never_contains_service_key_witness :
  Js.includes (envContent "https://abc.supabase.co" "anon-key") "service-key" = false.
Proof.
  refine (proj2 (env_file_never_contains_service_key link_refused plain_config [] []
                   "/work/demo-app/.env.local"
                   (envContent "https://abc.supabase.co" "anon-key") _ eq_refl)
                eq_refl eq_refl eq_refl eq_refl eq_refl).
  vm_compute. tauto.
Defined.

(** C3, counterexample. A service key that occurs in none of the three
    parts can still occur in the file, across the boundary between the
    fixed text and a value. *)
Lemma service_key_can_straddle_fixed_text :
  let key := supabaseServiceKey straddling_config in
  Js.includes (supabaseUrl straddling_config) key = false /\
  Js.includes (supabaseAnonKey straddling_config) key = false /\
  Js.includes (envContent "" "") key = false /\
  exists content,
    In (EWriteFile "/work/demo-app/.env.local" content)
       (emitted (CreateProject.createProject link_refused straddling_config [] [])) /\
    Js.includes content key = true.
Proof.
  repeat split; try reflexivity.
  exists (envContent "https://abc.supabase.co" "anon-key").
  split; [vm_compute; tauto | reflexivity].
Qed.

End EnvFile.

(* ================================================================== *)
(** * Listing organizations *)
(* ================================================================== *)

Module Organizations.
Import Scenarios Properties Rules.
Import ListNotations.
Open Scope string_scope.
Import SupabaseCli.

Lemma get_prop_run v k h s :
  get_prop v k h s =
  mkRes (match JsValue.prop v k with
         | Some x => Ret x
         | None => Throw ("Cannot read properties of null (reading '" ++ k ++ "')")
         end) [] s.
Proof. unfold get_prop. destruct (JsValue.prop v k); reflexivity. Qed.

Lemma org_of_json_run org h s :
  exists e,
    org_of_json org h s =
    mkRes (match org_entry org with
           | Some o => Ret o
           | None => Throw e
           end) [] s.
Proof.
  unfold org_of_json, org_entry.
  exists ("Cannot read properties of null (reading '" ++
          (match JsValue.prop org "id" with Some _ => "name" | None => "id" end) ++ "')").
  erewrite bind_pure by apply get_prop_run.
  destruct (JsValue.prop org "id") as [i|]; [|reflexivity].
  erewrite bind_pure by apply get_prop_run.
  destruct (JsValue.prop org "name") as [n|]; reflexivity.
Qed.

Lemma mapM_org_run items h s :
  exists e,
    mapM org_of_json items h s =
    mkRes (match org_entries items with
           | Some os => Ret os
           | None => Throw e
           end) [] s.
Proof.
  induction items as [|item more IH]; cbn [mapM org_entries].
  - exists "". reflexivity.
  - destruct (org_of_json_run item h s) as [e1 E1]. destruct IH as [e2 E2].
    destruct (org_entry item) as [o|].
    + destruct (org_entries more) as [os|]; [exists ""|exists e2];
        erewrite bind_pure by exact E1; cbv iota;
        erewrite bind_pure by exact E2; reflexivity.
    + exists e1. erewrite bind_pure by exact E1. reflexivity.
Qed.

Lemma json_reading_run env output h s :
  try_catch
    (orgs <- json_parse env output ;;
     match orgs with
     | JArr items => mapped <- mapM org_of_json items ;; ret (Some mapped)
     | _ => ret None
     end)
    (fun _ => ret None) h s
  = mkRes (Ret (json_organizations env output)) [] s.
Proof.
  rewrite run_try_catch. cbv zeta. unfold json_organizations, json_parse.
  destruct (JSON_parse env output) as [v|msg]; [|reflexivity].
  rewrite run_ret_bind.
  destruct v; try reflexivity.
  destruct (mapM_org_run items h s) as [e E].
  erewrite bind_pure by exact E.
  destruct (org_entries items); reflexivity.
Qed.

Lemma getOrganizations_run env h s :
  let result := proc env h "supabase" ["orgs"; "list"; "--output"; "json"] None in
  let output := Js.trim (stdout result) in
  getOrganizations env h s =
  if succeeded result then
    match json_organizations env output with
    | Some orgs => mkRes (Ret orgs) [orgsListEvent] s
    | None =>
        match parse_table output with
        | [] => mkRes (Throw parse_failure) [orgsListEvent] s
        | orgs => mkRes (Ret orgs) [orgsListEvent] s
        end
    end
  else mkRes (Throw ("Failed to get organizations: " ++ stderr result)) [orgsListEvent] s.
Proof.
  intros result output. unfold getOrganizations. rewrite run_spawn_bind. cbv zeta.
  fold result. destruct (succeeded result); cbn [negb]; [|reflexivity].
  fold output. erewrite bind_pure by apply json_reading_run.
  destruct (json_organizations env output); [reflexivity|].
  destruct (parse_table output); reflexivity.
Qed.




(** C6. At a table with a header, a separator and three data rows, the
    parser returns two organizations: the row of "Video Studio" is dropped
    because its upper-cased text contains "ID". *)
Theorem table_row_naming_a_header_word_is_dropped :
  parse_table (Js.trim three_row_table) =
  [ mkOrg (Some (JStr "azoyksukebdkeaelzlfm")) (Some (JStr "Growth Stories"));
    mkOrg (Some (JStr "crqamubwgdxshotzjelk")) (Some (JStr "Acme")) ] /\
  outcome (getOrganizations table_listing [] []) =
  Ret [ mkOrg (Some (JStr "azoyksukebdkeaelzlfm")) (Some (JStr "Growth Stories"));
        mkOrg (Some (JStr "crqamubwgdxshotzjelk")) (Some (JStr "Acme")) ].
Proof. split; vm_compute; reflexivity. Qed.

End Organizations.

(* ================================================================== *)
(** * Detecting package managers *)
(* ================================================================== *)

Module PackageManagers.
Import Scenarios Properties Rules AdapterFlows.
Import ListNotations.
Open Scope string_scope.
Import DetectPackageManagers.

Lemma insert_sorted o l :
  StronglySorted by_priority l -> StronglySorted by_priority (insert_by_priority o l).
Proof.
  induction 1 as [|x l Hs IH Hx]; simpl.
  - repeat constructor.
  - destruct (priority x <=? priority o)%Z eqn:C.
    + constructor; [exact IH|].
      assert (In_ins : forall y, In y (insert_by_priority o l) -> y = o \/ In y l).
      { clear. induction l as [|z l IH]; simpl; intros y Hy.
        - destruct Hy as [<-|[]]; auto.
        - destruct (priority z <=? priority o)%Z; simpl in Hy.
          + destruct Hy as [<-|Hy]; auto. destruct (IH _ Hy); auto.
          + destruct Hy as [<-|[<-|Hy]]; auto. }
      apply Forall_forall. intros y Hy. destruct (In_ins _ Hy) as [->|Hl].
      * apply Z.leb_le. exact C.
      * rewrite Forall_forall in Hx. auto.
    + apply Z.leb_gt in C. constructor; [constructor; assumption|].
      constructor; [unfold by_priority; lia|].
      eapply Forall_impl; [|exact Hx]. unfold by_priority. intros; lia.
Qed.

Lemma sort_sorted l : StronglySorted by_priority (sort_by_priority l).
Proof.
  induction l; simpl; [constructor | apply insert_sorted; assumption].
Qed.

Lemma insert_perm o l : Permutation (o :: l) (insert_by_priority o l).
Proof.
  induction l as [|x l IH]; simpl; [reflexivity|].
  destruct (priority x <=? priority o)%Z; [|reflexivity].
  rewrite perm_swap. constructor. exact IH.
Qed.

Lemma sort_perm l : Permutation l (sort_by_priority l).
Proof.
  induction l; simpl; [constructor|].
  rewrite <- insert_perm. constructor. assumption.
Qed.

Lemma getAvailablePackageManagers_run env h s :
  exists events,
    getAvailablePackageManagers env h s = mkRes (Ret (available_at env h)) events s /\
    Forall (fun e => exists pm, e = probe_event env pm) events.
Proof.
  unfold getAvailablePackageManagers, available_at, detected, installed_at, probe_event,
    isPackageManagerInstalled.
  destruct (isWindows env) eqn:W.
  - cbn [filterM allOptions value].
    rewrite run_bind_assoc, run_ret_bind.
    repeat (rewrite ?run_bind_assoc, ?run_spawn_bind, ?run_ret_bind; cbv zeta).
    cbn [filter allOptions value pm_name outcome emitted rest app].
    eexists. split; [reflexivity|].
    apply Forall_forall; intros e Hin; simpl in Hin;
      destruct Hin as [<-|[<-|[]]]; [exists bun|exists pnpm]; reflexivity.
  - cbn [filterM allOptions value].
    repeat (rewrite ?run_bind_assoc, ?run_spawn_bind, ?run_ret_bind; cbv zeta).
    cbn [filter allOptions value pm_name outcome emitted rest app].
    eexists. split; [reflexivity|].
    apply Forall_forall; intros e Hin; simpl in Hin;
      destruct Hin as [<-|[<-|[<-|[]]]]; [exists bun|exists pnpm|exists npm];
      reflexivity.
Qed.

Import SetupMethod.

Lemma adapter_no_copy e : adapter_event e -> no_copy e.
Proof. destruct e; simpl; auto. Qed.
#[export] Hint Resolve adapter_no_copy : flows.

Section NothingInstalled.
Variable env : Env.
Hypothesis nothing : never_installed env.

Lemma available_none h : available_at env h = [].
Proof.
  destruct nothing as [W N]. unfold available_at, detected, installed_at.
  rewrite W. cbn [filter allOptions value]. rewrite !N. reflexivity.
Qed.

Lemma getAvailable_none :
  sat (getAvailablePackageManagers env) (fun l => l = []) no_copy.
Proof.
  intros h s. destruct (getAvailablePackageManagers_run env h s) as (events & E & Ev).
  rewrite E. cbn [outcome emitted]. split.
  - eapply Forall_impl; [|exact Ev]. intros e [pm ->]. unfold probe_event.
    destruct (isWindows env); exact I.
  - intros a Ha. injection Ha as <-. apply available_none.
Qed.
Hint Resolve getAvailable_none : flows.

Lemma collectProjectInfo_none initialProjectName :
  sat (CollectInfo.collectProjectInfo env initialProjectName) (fun c => c = None) no_copy.
Proof. unfold CollectInfo.collectProjectInfo. flow. Qed.
Hint Resolve collectProjectInfo_none : flows.

Lemma finish_none name credentials password :
  sat (finish env name credentials password) (fun r => config r = None) no_copy.
Proof. unfold finish. flow. Qed.
Hint Resolve finish_none : flows.

Lemma find_duplicate_no_copy projects name :
  sat (find_duplicate projects name) (fun _ => True) no_copy.
Proof. induction projects; simpl; flow. Qed.
Hint Resolve find_duplicate_no_copy : flows.

Lemma createRemote_no_copy name orgId region password :
  sat (SupabaseCli.createProject env name orgId region password) (fun _ => True) no_copy.
Proof. unfold SupabaseCli.createProject. flow. Qed.
Hint Resolve createRemote_no_copy : flows.

Lemma check_and_create_none name orgId region password :
  sat (check_and_create env name orgId region password) (fun r => config r = None) no_copy.
Proof. unfold check_and_create. flow. Qed.
Hint Resolve check_and_create_none : flows.

Lemma handleProjectCreation_none initial :
  sat (handleProjectCreation env initial) (fun r => config r = None) no_copy.
Proof. unfold handleProjectCreation, collectProjectInfo. flow. Qed.
Hint Resolve handleProjectCreation_none : flows.

Lemma handleExistingProject_none initial :
  sat (handleExistingProject env initial) (fun r => config r = None) no_copy.
Proof. unfold handleExistingProject, collectProjectInfo. flow. Qed.
Hint Resolve handleExistingProject_none : flows.

Lemma setup_none fuel :
  forall projectName,
    sat (setupWithSupabaseCLI env fuel projectName) (fun r => config r = None) no_copy.
Proof.
  induction fuel as [|fuel IH]; intros projectName; cbn [setupWithSupabaseCLI].
  - apply sat_out_of_fuel.
  - unfold collectProjectInfo. flow.
Qed.

End NothingInstalled.

Lemma main_no_copy env fuel :
  never_installed env -> sat (Cli.main env fuel) (fun _ => True) no_copy.
Proof.
  intros N. unfold Cli.main. cbv zeta.
  apply sat_bind_wp. apply sat_emit; [exact I|].
  apply sat_bind_wp. eapply sat_weaken; [apply setup_none; exact N|].
  intros r Hr. rewrite Hr. apply sat_exit.
Qed.

Lemma run_no_copy env fuel :
  never_installed env -> sat (Cli.run env fuel) (fun _ => True) no_copy.
Proof.
  intros N. unfold Cli.run. apply sat_try_catch; [apply main_no_copy; exact N|].
  intros e. flow.
Qed.

Lemma getDefault_run env h s :
  outcome (getDefaultPackageManager env h s) =
  match available_at env h with
  | [] => Throw no_package_manager
  | first :: _ => Ret (value first)
  end.
Proof.
  unfold getDefaultPackageManager, bind.
  destruct (getAvailablePackageManagers_run env h s) as (events & -> & _).
  cbn [outcome emitted rest]. destruct (available_at env h); reflexivity.
Qed.



End PackageManagers.

(* ================================================================== *)
(** * Project-name validation *)
(* ================================================================== *)

Module NameValidation.
Import Scenarios Properties Rules AdapterFlows MigrationOutcome.
Import ListNotations.
Open Scope string_scope.
Import SetupMethod Validate.

Lemma project_name_accepts value :
  project_name value = None <-> matches_name_pattern value = true.
Proof.
  unfold project_name, matches_name_pattern.
  destruct (Js.truthy value); simpl; [|split; discriminate].
  destruct (Js.all_chars is_name_char value); simpl; split; congruence.
Qed.

Lemma local_project_name_accepts value :
  local_project_name value = None <->
  value <> "" /\ matches_name_pattern (Js.trim value) = true.
Proof.
  unfold local_project_name, Js.truthy.
  destruct (String.eqb_spec value ""); simpl.
  - split; [discriminate | intros [N _]; congruence].
  - destruct (matches_name_pattern (Js.trim value)); simpl; split;
      try discriminate; try tauto. intros [_ ?]; discriminate.
Qed.

Lemma adapter_name_safe e : adapter_event e -> name_safe e.
Proof.
  destruct e; cbn [adapter_event]; try contradiction; intros H name;
    unfold created_name; try discriminate.
  destruct args as [|? [|? [|? ?]]]; try discriminate. rewrite H. discriminate.
Qed.
#[export] Hint Resolve adapter_name_safe : flows.

Ltac sat_event ::=
  first [ exact I | reflexivity | discriminate
        | (intros ?; unfold created_name; simpl; discriminate)
        | (let E := fresh in
           intros ? E; unfold created_name in E; simpl in E; injection E as <-; assumption)
        | (simpl; trivial; fail) ].

Section Names.
Variable env : Env.

Lemma collectProjectInfo_names initial :
  sat (CollectInfo.collectProjectInfo env initial) named_well name_safe.
Proof.
  unfold CollectInfo.collectProjectInfo, named_well. flow.
  intros cfg E. injection E as <-. cbn [projectName].
  apply local_project_name_accepts. assumption.
Qed.
Hint Resolve collectProjectInfo_names : flows.

Lemma finish_names name credentials password :
  matches_name_pattern name = true ->
  sat (finish env name credentials password) (fun r => named_well (config r)) name_safe.
Proof.
  intros V. unfold finish, named_well. flow.
  intros cfg E. injection E as <-. exact V.
Qed.
Hint Resolve finish_names : flows.

Lemma find_duplicate_names projects name :
  sat (find_duplicate projects name) (fun _ => True) name_safe.
Proof. induction projects; simpl; flow. Qed.
Hint Resolve find_duplicate_names : flows.

Lemma createRemote_names name orgId region password :
  matches_name_pattern name = true ->
  sat (SupabaseCli.createProject env name orgId region password) (fun _ => True) name_safe.
Proof.
  intros V. unfold SupabaseCli.createProject. flow.
Qed.
Hint Resolve createRemote_names : flows.

Lemma check_and_create_names name orgId region password :
  matches_name_pattern name = true ->
  sat (check_and_create env name orgId region password)
      (fun r => named_well (config r)) name_safe.
Proof.
  intros V. unfold check_and_create. flow.
Qed.
Hint Resolve check_and_create_names : flows.

Lemma project_name_valid value :
  project_name value = None -> matches_name_pattern value = true.
Proof. apply project_name_accepts. Qed.
Hint Resolve project_name_valid : flows.

Lemma handleProjectCreation_names initial :
  sat (handleProjectCreation env initial) (fun r => named_well (config r)) name_safe.
Proof.
  unfold handleProjectCreation, collectProjectInfo. flow.
  all: try (intros cfg E; discriminate).
Qed.
Hint Resolve handleProjectCreation_names : flows.

Lemma handleExistingProject_names initial :
  sat (handleExistingProject env initial) (fun r => named_well (config r)) name_safe.
Proof.
  unfold handleExistingProject, collectProjectInfo. flow.
  all: try (intros cfg E; discriminate).
Qed.
Hint Resolve handleExistingProject_names : flows.

Lemma setup_names fuel :
  forall projectName,
    sat (setupWithSupabaseCLI env fuel projectName) (fun r => named_well (config r)) name_safe.
Proof.
  induction fuel as [|fuel IH]; intros projectName; cbn [setupWithSupabaseCLI].
  - apply sat_out_of_fuel.
  - unfold collectProjectInfo. flow.
    all: try (intros cfg E; discriminate).
Qed.

End Names.

Import SupabaseSetup.

Lemma applier_name_safe e : applier_event e -> name_safe e.
Proof.
  destruct e; cbn [applier_event]; try contradiction; intros H name;
    unfold created_name; try discriminate.
  destruct args as [|? [|? [|? ?]]]; try discriminate. rewrite H. discriminate.
Qed.
#[export] Hint Resolve applier_name_safe : flows.

Lemma materializer_names env config :
  sat (CreateProject.createProject env config) (fun _ => True) name_safe.
Proof.
  unfold CreateProject.createProject, CreateProject.pipeline,
    CopyTemplate.setPackageManager, CopyTemplate.writeEnvFile,
    generateTypes, hasSupabaseCLI, InstallDeps.installDependencies.
  flow.
Qed.

#[export] Hint Resolve materializer_names : flows.

Lemma main_names env fuel : sat (Cli.main env fuel) (fun _ => True) name_safe.
Proof.
  unfold Cli.main. cbv zeta.
  apply sat_bind_wp. apply sat_emit; [sat_event|].
  apply sat_bind_wp. eapply sat_weaken; [apply setup_names|].
  intros r _. destruct (config r) as [cfg|]; [|apply sat_exit].
  flow.
Qed.

Lemma run_names env fuel : sat (Cli.run env fuel) (fun _ => True) name_safe.
Proof. unfold Cli.run. apply sat_try_catch; [apply main_names|]. intros e. flow. Qed.

Lemma text_refuses message validate h v s complaint :
  validate v = Some complaint ->
  exists later,
    emitted (Prompt.text message validate h (TypeText v :: s))
    = (later ++ [EReject complaint; EAsk PText message])%list.
Proof.
  intros V. unfold Prompt.text. cbn [Prompt.read_text]. rewrite V.
  destruct (Prompt.read_text validate s) as [[r ev] s']. cbn [emitted].
  exists ev. rewrite <- app_assoc. reflexivity.
Qed.

Lemma bind_emitted_suffix {A B} (m : M A) (f : A -> M B) h s :
  exists later, emitted (bind m f h s) = (later ++ emitted (m h s))%list.
Proof.
  unfold bind. destruct (outcome (m h s)); cbn [emitted];
    first [ eexists; reflexivity | exists []; reflexivity ].
Qed.




End NameValidation.

(* ================================================================== *)
(** * The duplicate-name check *)
(* ================================================================== *)

Module DuplicateNames.
Import Scenarios Properties Rules AdapterFlows.
Import ListNotations.
Open Scope string_scope.
Import SupabaseCli SetupMethod Validate.

(** Splitting a list at an event that its second half does not hold. *)
Lemma split_at_event (p : Event -> bool) (x y post pre : list Event) e :
  p e = true ->
  Forall (fun a => p a = false) y ->
  (x ++ y = post ++ e :: pre)%list ->
  exists pre', x = (post ++ e :: pre')%list /\ pre = (pre' ++ y)%list.
Proof.
  intros He Hy. revert post. induction x as [|a x IH]; intros post E.
  - exfalso. simpl in E. subst y. rewrite Forall_forall in Hy.
    specialize (Hy e (in_elt _ _ _)). congruence.
  - destruct post as [|b post]; simpl in E; injection E as -> E.
    + exists x. split; [reflexivity | exact (eq_sym E)].
    + destruct (IH _ E) as (pre' & -> & ->). exists pre'. split; reflexivity.
Qed.

(** Splitting at an event that occurs once. *)
Lemma split_unique (p : Event -> bool) (x y post pre : list Event) e :
  p e = true ->
  Forall (fun a => p a = false) x ->
  Forall (fun a => p a = false) y ->
  (x ++ e :: y = post ++ e :: pre)%list ->
  post = x /\ pre = y.
Proof.
  intros He Hx Hy. revert post. induction x as [|a x IH]; intros post E.
  - destruct post as [|b post]; simpl in E.
    + injection E as E. auto.
    + exfalso. injection E as _ E. rewrite Forall_forall in Hy.
      assert (In e y) by (rewrite E; apply in_elt). specialize (Hy e H). congruence.
  - inversion Hx as [|? ? Ha Hx']; subst.
    destruct post as [|b post]; simpl in E.
    + injection E as E _. congruence.
    + injection E as E1 E2. destruct (IH Hx' post E2) as [-> ->]. subst. auto.
Qed.

Lemma pure_ret {A} (a : A) : pure (ret a).
Proof. exists (Ret a). reflexivity. Qed.

Lemma pure_throw {A} e : pure (@throw A e).
Proof. exists (Throw e). reflexivity. Qed.

Lemma pure_bind {A B} (m : M A) (f : A -> M B) :
  pure m -> (forall a, pure (f a)) -> pure (bind m f).
Proof.
  intros [o Hm] Hf. destruct o as [a|e|c|].
  - destruct (Hf a) as [o' Hfa]. exists o'. intros h s.
    erewrite bind_pure by apply Hm. apply Hfa.
  - exists (Throw e). intros h s. erewrite bind_pure by apply Hm. reflexivity.
  - exists (Exit c). intros h s. erewrite bind_pure by apply Hm. reflexivity.
  - exists OutOfFuel. intros h s. erewrite bind_pure by apply Hm. reflexivity.
Qed.

Lemma pure_get_prop v k : pure (get_prop v k).
Proof. unfold get_prop. destruct (JsValue.prop v k); [apply pure_ret | apply pure_throw]. Qed.

Lemma pure_project_of_json project : pure (project_of_json project).
Proof.
  unfold project_of_json.
  repeat (apply pure_bind; [apply pure_get_prop | intros ?]). apply pure_ret.
Qed.

Lemma pure_mapM {A B} (f : A -> M B) l : (forall a, pure (f a)) -> pure (mapM f l).
Proof.
  intros Hf. induction l as [|a l IH]; cbn [mapM]; [apply pure_ret|].
  apply pure_bind; [apply Hf | intros b].
  apply pure_bind; [apply IH | intros bs]. apply pure_ret.
Qed.

Lemma pure_find_duplicate projects name : pure (find_duplicate projects name).
Proof.
  induction projects as [|p more IH]; cbn [find_duplicate]; [apply pure_ret|].
  destruct (SupabaseCli.name p) as [[]|]; try apply pure_throw.
  destruct (_ =? _); [apply pure_ret | exact IH].
Qed.

Lemma pure_find_api_key wanted keys : pure (find_api_key wanted keys).
Proof.
  induction keys as [|key more IH]; cbn [find_api_key]; [apply pure_ret|].
  apply pure_bind; [apply pure_get_prop | intros [[| | |n| |]|]]; try exact IH.
  destruct (n =? wanted); [apply pure_get_prop | exact IH].
Qed.

Lemma pure_try_catch {A} (m : M A) handler :
  pure m -> (forall e, pure (handler e)) -> pure (try_catch m handler).
Proof.
  intros [o Hm] Hh. destruct o as [a|e|c|].
  - exists (Ret a). intros h s. rewrite run_try_catch. cbv zeta. rewrite Hm. reflexivity.
  - destruct (Hh e) as [o' Hhe]. exists o'. intros h s.
    rewrite run_try_catch. cbv zeta. rewrite Hm. cbn [outcome emitted rest app].
    rewrite Hhe. reflexivity.
  - exists (Exit c). intros h s. rewrite run_try_catch. cbv zeta. rewrite Hm. reflexivity.
  - exists OutOfFuel. intros h s. rewrite run_try_catch. cbv zeta. rewrite Hm. reflexivity.
Qed.

Lemma listProjects_run env h :
  exists o, forall s, listProjects env h s = mkRes o [projectsListEvent] s.
Proof.
  unfold listProjects.
  set (result := proc env h "supabase" ["projects"; "list"; "--output"; "json"] None).
  assert (P : pure (if negb (succeeded result)
                    then throw ("Failed to list projects: " ++ stderr result)
                    else try_catch
                           (projects <- json_parse env (stdout result) ;;
                            match projects with
                            | JArr items => mapM project_of_json items
                            | _ => throw "projects.map is not a function"
                            end)
                           (fun _ => throw "Failed to parse projects list"))).
  { destruct (negb (succeeded result)); [apply pure_throw|].
    apply pure_try_catch; [|intros; apply pure_throw].
    apply pure_bind.
    - unfold json_parse. destruct (JSON_parse env _); [apply pure_ret|apply pure_throw].
    - intros [] ; try apply pure_throw. apply pure_mapM, pure_project_of_json. }
  destruct P as [o Po]. exists o. intros s.
  rewrite run_spawn_bind. cbv zeta. fold result. rewrite Po. reflexivity.
Qed.

Lemma pure_sat {A} (m : M A) (Q : A -> Prop) P : pure m -> (forall a, Q a) -> sat m Q P.
Proof.
  intros [o Ho] Hq h s. rewrite Ho. cbn [emitted outcome]. split; [constructor|].
  intros; apply Hq.
Qed.

Ltac pure_step :=
  repeat first [ apply pure_mapM; intros ? | apply pure_bind; [|intros ?]
               | apply pure_get_prop | apply pure_ret | apply pure_throw ].

Lemma find_duplicate_none projects entered :
  outcome (find_duplicate projects entered [] []) = Ret None ->
  Forall (differs entered) projects.
Proof.
  induction projects as [|p more IH]; cbn [find_duplicate]; intros E; [constructor|].
  destruct (SupabaseCli.name p) as [[| | |n| |]|] eqn:En; try discriminate.
  destruct (String.eqb_spec (Js.toLowerCase n) (Js.toLowerCase entered)); [discriminate|].
  constructor; [exists n; auto | auto].
Qed.

Lemma find_duplicate_some projects entered :
  Forall string_named projects -> Exists (same_name entered) projects ->
  exists p, outcome (find_duplicate projects entered [] []) = Ret (Some p).
Proof.
  intros Hn Hex. induction Hn as [|p more [n En] Hn IH]; [inversion Hex|].
  cbn [find_duplicate]. rewrite En.
  destruct (String.eqb_spec (Js.toLowerCase n) (Js.toLowerCase entered)); [eexists; reflexivity|].
  apply IH. inversion Hex as [? ? (n' & En' & Same)|]; subst; [|assumption].
  congruence.
Qed.

Lemma find_duplicate_match projects entered :
  Exists (same_name entered) projects ->
  outcome (find_duplicate projects entered [] []) <> Ret None.
Proof.
  intros Hex E. apply find_duplicate_none in E. rewrite Forall_forall in E.
  apply Exists_exists in Hex. destruct Hex as (p & Hin & n & En & Same).
  destruct (E p Hin) as (n' & En' & Diff). congruence.
Qed.

Ltac sat_event ::=
  first [ exact I | reflexivity | discriminate
        | (split; [reflexivity | first [reflexivity | discriminate
                                       | (intros _; reflexivity)]])
        | (simpl; trivial; fail) | (simpl; congruence) ].

Lemma quiet_after entered e : neither_list_nor_create e -> after_check entered e.
Proof. intros [L C]. split; [exact L | congruence]. Qed.

Section DuplicateCheck.
Variable env : Env.
Variable entered : string.

Lemma getOrganizations_quiet :
  sat (getOrganizations env) (fun _ => True) neither_list_nor_create.
Proof.
  unfold getOrganizations. flow.
  apply pure_sat; [unfold org_of_json; pure_step | intros; flow].
Qed.

Lemma getProjectCredentials_quiet projectRef :
  sat (getProjectCredentials env projectRef) (fun _ => True) neither_list_nor_create.
Proof.
  unfold getProjectCredentials. flow.
  apply pure_sat; [apply pure_find_api_key | intros].
  flow. apply pure_sat; [apply pure_find_api_key | intros]. flow.
Qed.

Lemma poll_ready_quiet ticks projectRef maxWaitTime :
  forall checkCount,
    sat (poll_ready env ticks projectRef maxWaitTime checkCount) (fun _ => True)
        neither_list_nor_create.
Proof. induction ticks; intros; simpl; flow. Qed.

Lemma waitForProjectReady_quiet projectRef :
  sat (waitForProjectReady env projectRef) (fun _ => True) neither_list_nor_create.
Proof. unfold waitForProjectReady. flow. apply poll_ready_quiet. Qed.

Lemma getAvailable_quiet :
  sat (DetectPackageManagers.getAvailablePackageManagers env) (fun _ => True)
      neither_list_nor_create.
Proof.
  unfold DetectPackageManagers.getAvailablePackageManagers,
    DetectPackageManagers.isPackageManagerInstalled.
  destruct (DetectPackageManagers.isWindows env);
    cbn [filterM DetectPackageManagers.allOptions DetectPackageManagers.value]; flow.
Qed.
Hint Resolve getOrganizations_quiet getProjectCredentials_quiet waitForProjectReady_quiet
  getAvailable_quiet : flows.

Lemma getDefault_quiet :
  sat (DetectPackageManagers.getDefaultPackageManager env) (fun _ => True)
      neither_list_nor_create.
Proof. unfold DetectPackageManagers.getDefaultPackageManager. flow. Qed.
Hint Resolve getDefault_quiet : flows.

Lemma collectProjectInfo_quiet initial :
  sat (CollectInfo.collectProjectInfo env initial) (fun _ => True) neither_list_nor_create.
Proof. unfold CollectInfo.collectProjectInfo. flow. Qed.

Lemma finish_quiet name credentials password :
  sat (finish env name credentials password) (fun _ => True) neither_list_nor_create.
Proof. unfold finish. flow. Qed.
Hint Resolve collectProjectInfo_quiet finish_quiet : flows.

Lemma check_shape_bind {A} (m : M A) (f : A -> M SetupResult) h s :
  Forall neither_list_nor_create (emitted (m h s)) ->
  (forall a, outcome (m h s) = Ret a -> checked env entered (f a)) ->
  check_shape env entered h (bind m f h s).
Proof.
  intros Hm Hf. unfold bind.
  destruct (outcome (m h s)) as [a| | |] eqn:Eo; try (left; exact Hm).
  destruct (Hf a eq_refl (emitted (m h s) ++ h)%list (rest (m h s)))
    as [Q | (post & pre & E & Hpre & Hpost & Hd)].
  - left. cbn [emitted]. apply Forall_app; split; assumption.
  - right. exists post, (pre ++ emitted (m h s))%list. cbn [emitted outcome].
    rewrite E, <- !app_assoc. split; [reflexivity|].
    split; [apply Forall_app; split; assumption|]. split; [assumption | exact Hd].
Qed.

Lemma checked_bind {A} (m : M A) (f : A -> M SetupResult) :
  sat m (fun _ => True) neither_list_nor_create ->
  (forall a, checked env entered (f a)) ->
  checked env entered (bind m f).
Proof.
  intros Hm Hf h s. apply check_shape_bind; [apply Hm | intros; apply Hf].
Qed.

Lemma checked_quiet (m : M SetupResult) :
  sat m (fun _ => True) neither_list_nor_create -> checked env entered m.
Proof. intros Hm h s. left. apply Hm. Qed.

Lemma createRemote_after orgId region password :
  sat (SupabaseCli.createProject env entered orgId region password) (fun _ => True)
      (after_check entered).
Proof.
  unfold SupabaseCli.createProject. flow.
  all: apply pure_sat; [apply pure_project_of_json | intros; exact I].
Qed.

Lemma adapters_after projectRef name credentials password :
  sat (waitForProjectReady env projectRef) (fun _ => True) (after_check entered) /\
  sat (getProjectCredentials env projectRef) (fun _ => True) (after_check entered) /\
  sat (finish env name credentials password) (fun _ => True) (after_check entered).
Proof.
  split; [|split]; (eapply sat_events_weaken; [|apply quiet_after]); auto with flows.
Qed.

Lemma waitForProjectReady_after projectRef :
  sat (waitForProjectReady env projectRef) (fun _ => True) (after_check entered).
Proof. apply (adapters_after projectRef "" (mkCredentials "" "" "") None). Qed.

Lemma getProjectCredentials_after projectRef :
  sat (getProjectCredentials env projectRef) (fun _ => True) (after_check entered).
Proof. apply (adapters_after projectRef "" (mkCredentials "" "" "") None). Qed.

Lemma finish_after name credentials password :
  sat (finish env name credentials password) (fun _ => True) (after_check entered).
Proof. apply (adapters_after "" name credentials password). Qed.
Hint Resolve createRemote_after waitForProjectReady_after getProjectCredentials_after
  finish_after : flows.

Lemma check_and_create_checked orgId region password :
  checked env entered (check_and_create env entered orgId region password).
Proof.
  intros h s. unfold check_and_create. unfold say at 1. rewrite run_emit_bind. cbv zeta.
  set (e0 := ESay SpinnerStart "Checking for duplicate project names...").
  destruct (listProjects_run env (e0 :: h)) as [o Ho].
  right.
  match goal with
  | |- context [bind (listProjects env) ?k] => set (after := k)
  end.
  assert (Run : forall s',
    bind (listProjects env) after (e0 :: h) s' =
    match o with
    | Ret projects =>
        let r := after projects (projectsListEvent :: e0 :: h) s' in
        mkRes (outcome r) (emitted r ++ [projectsListEvent])%list (rest r)
    | Throw x => mkRes (Throw x) [projectsListEvent] s'
    | Exit c => mkRes (Exit c) [projectsListEvent] s'
    | OutOfFuel => mkRes OutOfFuel [projectsListEvent] s'
    end).
  { intros s'. unfold bind. rewrite Ho. destruct o; reflexivity. }
  rewrite Run. cbn [emitted outcome].
  assert (L : outcome (listProjects env ([e0] ++ h)%list []) = o) by (cbn [app]; rewrite Ho; reflexivity).
  assert (Q0 : Forall neither_list_nor_create [e0]) by (repeat constructor).
  destruct o as [projects|x|c|].
  - cbv zeta. cbn [emitted outcome].
    exists (emitted (after projects (projectsListEvent :: e0 :: h) s)), [e0].
    rewrite <- app_assoc. split; [reflexivity|]. split; [exact Q0|].
    rewrite L. subst after. cbv beta.
    destruct (pure_find_duplicate projects entered) as [d Hd].
    rewrite (Hd [] []). cbn [outcome].
    erewrite bind_pure by apply Hd.
    destruct d as [[dup|]|x|c|]; cbn [emitted outcome].
    + assert (Q : Forall neither_list_nor_create
                    [ESay LogInfo "Please delete it from the Supabase dashboard or choose a different name.";
                     ESay LogError ("A project named " ++ Js.dquote ++ entered ++ Js.dquote ++
                                    " already exists in your organization.");
                     ESay SpinnerStop ""]) by (repeat constructor).
      split; [|split; [exact Q | reflexivity]].
      exact (Forall_impl _ (quiet_after entered) Q).
    + split; [|exact I].
      match goal with |- Forall _ (emitted (?m _ _)) => 
         assert (S : sat m (fun _ => True) (after_check entered)) end.
      { flow. }
      apply S.
    + split; constructor.
    + split; constructor.
    + split; constructor.
  - exists [], [e0]. rewrite L. cbn [emitted app]. repeat split; auto.
  - exists [], [e0]. rewrite L. cbn [emitted app]. repeat split; auto.
  - exists [], [e0]. rewrite L. cbn [emitted app]. repeat split; auto.
Qed.

Ltac check_step :=
  lazymatch goal with
  | |- checked _ _ (check_and_create _ _ _ _ _) => apply check_and_create_checked
  | |- checked _ _ (bind _ _) => apply checked_bind; [ solve [flow] | intros ? ]
  | |- checked _ _ (match ?x with _ => _ end) => destruct x
  | |- checked _ _ _ => apply checked_quiet; solve [flow]
  end.

Lemma handleProjectCreation_shape initial h s :
  outcome (Prompt.text "Project name:" Validate.project_name h s) = Ret (Some entered) ->
  check_shape env entered h (handleProjectCreation env initial h s).
Proof.
  intros Entered. unfold handleProjectCreation. apply check_shape_bind.
  - assert (S : sat (Prompt.text "Project name:" project_name) (fun _ => True)
                    neither_list_nor_create) by flow.
    apply S.
  - intros a Ea. rewrite Entered in Ea. injection Ea as <-.
    unfold collectProjectInfo. repeat check_step.
Qed.

End DuplicateCheck.



End DuplicateNames.

(* ================================================================== *)
(** * The exit status of the process *)
(* ================================================================== *)

Module ExitStatus.
Import Scenarios Properties Rules AdapterFlows MigrationOutcome.
Import ListNotations.
Open Scope string_scope.
Import SetupMethod SupabaseSetup.

Lemma run_bind {A B} (m : M A) (f : A -> M B) h s :
  bind m f h s =
  let r := m h s in
  match outcome r with
  | Ret a =>
      let r' := f a (emitted r ++ h)%list (rest r) in
      mkRes (outcome r') (emitted r' ++ emitted r)%list (rest r')
  | Throw e => mkRes (Throw e) (emitted r) (rest r)
  | Exit c => mkRes (Exit c) (emitted r) (rest r)
  | OutOfFuel => mkRes OutOfFuel (emitted r) (rest r)
  end.
Proof. reflexivity. Qed.

Lemma materialize_run env cfg method h s :
  (startTime <- date_now env ;;
   try_catch
     (CreateProject.createProject env cfg ;;
      finished <- date_now env ;;
      say Outro (Cli.done_message env cfg method ((finished - startTime + 500) / 1000)))
     (fun error => say Outro ("Setup failed: " ++ error) ;; exit 1)) h s =
  let build := CreateProject.createProject env cfg h s in
  match outcome build with
  | Ret _ =>
      mkRes (Ret tt)
            (ESay Outro (Cli.done_message env cfg method
                           ((now env (emitted build ++ h)%list - now env h + 500) / 1000))
               :: emitted build)
            (rest build)
  | Throw error =>
      mkRes (Exit 1%Z) (ESay Outro ("Setup failed: " ++ error) :: emitted build) (rest build)
  | Exit code => mkRes (Exit code) (emitted build) (rest build)
  | OutOfFuel => mkRes OutOfFuel (emitted build) (rest build)
  end.
Proof.
  erewrite bind_pure by reflexivity. cbv beta iota zeta.
  rewrite run_try_catch. cbv zeta. rewrite run_bind. cbv zeta.
  destruct (outcome (CreateProject.createProject env cfg h s)); reflexivity.
Qed.

Lemma applyMigrations_settling env targetDir supabaseUrl serviceKey dbPassword :
  settling (applyMigrations env targetDir supabaseUrl serviceKey dbPassword).
Proof.
  intros h s.
  destruct (read_file env h (join targetDir migration_file)) as [sql|err] eqn:Hr.
  - destruct (url_hostname env supabaseUrl) as [host|] eqn:Hu.
    + destruct (applyMigrations_cli_or_manual env targetDir supabaseUrl serviceKey
                  dbPassword h s sql host Hr Hu) as [-> | ->]; exact I.
    + unfold applyMigrations. erewrite run_readFile_bind by exact Hr. cbv zeta.
      unfold bind at 1, hostname_label. rewrite Hu. exact I.
  - unfold applyMigrations, bind at 1, readFile. rewrite Hr. exact I.
Qed.

Lemma copyTemplate_settling env targetDir :
  settling (CopyTemplate.copyTemplate env targetDir).
Proof.
  intros h s. unfold CopyTemplate.copyTemplate.
  destruct (copy_error env h targetDir); exact I.
Qed.

Lemma pipeline_settling env config : settling (CreateProject.pipeline env config).
Proof.
  unfold CreateProject.pipeline, CopyTemplate.setPackageManager, CopyTemplate.writeEnvFile,
    InstallDeps.installDependencies, generateTypes, hasSupabaseCLI.
  repeat first [ apply applyMigrations_settling | apply copyTemplate_settling | settle_step ].
Qed.

(** The materializer leaves the process only by the exit of a declined
    overwrite, with status 0. *)
Lemma createProject_outcome env config h s :
  match outcome (CreateProject.createProject env config h s) with
  | Ret _ | Throw _ => True
  | Exit code => code = 0%Z
  | OutOfFuel => False
  end.
Proof.
  unfold CreateProject.createProject.
  set (body := try_catch (CreateProject.pipeline env config)
                 (fun error => say SpinnerStop "Setup failed" ;; throw error)).
  assert (St : forall hh ss,
             match outcome (body hh ss) with
             | Ret _ | Throw _ => True
             | Exit code => code = 0%Z
             | OutOfFuel => False
             end).
  { intros hh ss.
    assert (X : settling body).
    { subst body. apply settling_try_catch; [apply pipeline_settling|]. intros e.
      repeat settle_step. }
    specialize (X hh ss). destruct (outcome (body hh ss)); simpl in X; tauto. }
  rewrite run_bind. cbv zeta. cbn [fs_exists outcome emitted rest].
  destruct (existsSync env h (targetDir config)).
  - rewrite run_bind. cbv zeta. rewrite run_bind. cbv zeta.
    unfold Prompt.confirm. destruct (Prompt.read_answer s) as [[[]|] s'];
      cbn [outcome emitted rest]; first [ apply St | reflexivity ].
  - rewrite run_bind. cbv zeta. cbn [ret outcome emitted rest]. apply St.
Qed.

(** C4. The exit status of the process, path by path: a setup flow that
    ends without a configuration makes the process exit with status 0 and
    the top level prints nothing more; a pipeline that completes ends the
    run normally after the closing message; a pipeline that throws prints
    the failure message and exits with status 1; an error thrown by the
    setup flow is reported on the error console and exits with status 1;
    the materializer itself exits only with status 0 (a declined
    overwrite); an exit inside the setup flow keeps its own status. *)
Theorem exit_status_by_path env fuel h s :
  let given := option_map Js.trim (hd_error (argv env)) in
  let setup := setupWithSupabaseCLI env fuel given (EClear :: h) s in
  let r := Cli.run env fuel h s in
  match outcome setup with
  | Ret result =>
      match config result with
      | None =>
          Cli.exit_status (outcome r) = Some 0%Z /\
          emitted r = (emitted setup ++ [EClear])%list
      | Some cfg =>
          let build := CreateProject.createProject env cfg
                         (emitted setup ++ EClear :: h)%list (rest setup) in
          match outcome build with
          | Ret _ =>
              Cli.exit_status (outcome r) = Some 0%Z /\
              exists duration,
                hd_error (emitted r) =
                Some (ESay Outro (Cli.done_message env cfg (method result) duration))
          | Throw error =>
              Cli.exit_status (outcome r) = Some 1%Z /\
              hd_error (emitted r) = Some (ESay Outro ("Setup failed: " ++ error))
          | Exit code => code = 0%Z /\ Cli.exit_status (outcome r) = Some 0%Z
          | OutOfFuel => False
          end
      end
  | Throw error =>
      Cli.exit_status (outcome r) = Some 1%Z /\
      hd_error (emitted r) = Some (ESay ConsoleError ("Error: " ++ error))
  | Exit code => Cli.exit_status (outcome r) = Some code
  | OutOfFuel => Cli.exit_status (outcome r) = None
  end.
Proof.
  intros given setup r. subst r. unfold Cli.run, Cli.main. cbv zeta. fold given.
  rewrite run_try_catch. cbv zeta. rewrite run_emit_bind. cbv zeta.
  rewrite run_bind. cbv zeta. fold setup. cbn [outcome emitted rest].
  destruct (outcome setup) as [result|error|code|]; cbn [outcome emitted rest].
  - destruct (config result) as [cfg|]; cbn [outcome emitted rest].
    + rewrite materialize_run. cbv zeta.
      pose proof (createProject_outcome env cfg (emitted setup ++ EClear :: h)%list
                    (rest setup)) as Zero.
      destruct (outcome (CreateProject.createProject env cfg _ _)) as [u|error|code|];
        cbn [outcome emitted rest app hd_error Cli.exit_status].
      * split; [reflexivity | eexists; reflexivity].
      * split; reflexivity.
      * subst code. split; reflexivity.
      * exact Zero.
    + split; [reflexivity|]. reflexivity.
  - split; reflexivity.
  - reflexivity.
  - reflexivity.
Qed.

(** C4, counterexample. A duplicate project name makes the setup flow end
    without a configuration, and the process then exits with status 0. *)
Lemma duplicate_name_abort_exits_with_status_0 :
  outcome (setupWithSupabaseCLI taken_name 2 None [EClear] (Pick 0 :: create_answers))
  = Ret cancelled_result /\
  Cli.exit_status (outcome (Cli.run taken_name 2 [] (Pick 0 :: create_answers)))
  = Some 0%Z.
Proof. split; vm_compute; reflexivity. Qed.

End ExitStatus.

(* ================================================================== *)
(** * Splitting the migration text *)
(* ================================================================== *)

Module MigrationText.
Import Scenarios Properties Measures Rules.
Import ListNotations.
Open Scope string_scope.
Import Constants SupabaseSetup.

Lemma split_statements_nonempty s : split_statements s <> [].
Proof.
  destruct s as [|c s]; cbn [split_statements]; [discriminate|].
  destruct ((c =? ";")%char && negb (dollar_block_ahead s)); [discriminate|].
  destruct (split_statements s); discriminate.
Qed.

Lemma concat_cons sep x l :
  l <> [] -> String.concat sep (x :: l) = x ++ sep ++ String.concat sep l.
Proof. destruct l; [congruence | reflexivity]. Qed.

Lemma concat_push sep c x l :
  String.concat sep (String c x :: l) = String c (String.concat sep (x :: l)).
Proof. destruct l; reflexivity. Qed.

(** X1. Splitting the migration text loses nothing: the pieces joined
    again by semicolons are the text. *)
Theorem split_statements_joined sql :
  String.concat ";" (split_statements sql) = sql.
Proof.
  induction sql as [|c s IH]; [reflexivity|]. cbn [split_statements].
  destruct ((c =? ";")%char && negb (dollar_block_ahead s)) eqn:E.
  - apply andb_prop in E. destruct E as [E _]. apply Ascii.eqb_eq in E. subst c.
    rewrite concat_cons by apply split_statements_nonempty. rewrite IH. reflexivity.
  - destruct (split_statements s) as [|x l] eqn:S.
    + exfalso. exact (split_statements_nonempty s S).
    + rewrite concat_push, IH. reflexivity.
Qed.

Lemma trimEnd_idempotent s : Js.trimEnd (Js.trimEnd s) = Js.trimEnd s.
Proof.
  induction s as [|c s IH]; [reflexivity|]. cbn [Js.trimEnd]. cbv zeta.
  destruct (Js.is_space c && (Js.trimEnd s =? "")) eqn:E; [reflexivity|].
  cbn [Js.trimEnd]. cbv zeta. rewrite IH, E. reflexivity.
Qed.

Lemma trimStart_head s :
  Js.trimStart s = "" \/ exists c t, Js.trimStart s = String c t /\ Js.is_space c = false.
Proof.
  induction s as [|c s IH]; [left; reflexivity|]. cbn [Js.trimStart].
  destruct (Js.is_space c) eqn:E; [exact IH|]. right. eauto.
Qed.

Lemma trim_head s :
  Js.trim s = "" \/ exists c t, Js.trim s = String c t /\ Js.is_space c = false.
Proof.
  unfold Js.trim. destruct (trimStart_head s) as [-> | (c & t & -> & Hc)];
    [left; reflexivity|].
  right. cbn [Js.trimEnd]. cbv zeta. rewrite Hc. cbn [andb]. eauto.
Qed.

Lemma trim_idempotent s : Js.trim (Js.trim s) = Js.trim s.
Proof.
  destruct (trim_head s) as [E | (c & t & E & Hc)].
  - rewrite E. reflexivity.
  - unfold Js.trim at 1. rewrite E. cbn [Js.trimStart]. rewrite Hc.
    rewrite <- E. unfold Js.trim. apply trimEnd_idempotent.
Qed.

Lemma dollar_block_ahead_after prefix tail :
  Js.all_chars (fun c => negb (c =? "$")%char) prefix = true ->
  dollar_block_ahead tail = true ->
  dollar_block_ahead (prefix ++ tail) = true.
Proof.
  intros H T. induction prefix as [|c p IH]; [exact T|].
  cbn [Js.all_chars] in H. apply andb_prop in H. destruct H as [Hc Hp].
  cbn [append]. etransitivity; [|exact (IH Hp)].
  destruct (Ascii.eqb_spec c "$"); [discriminate|].
  destruct c as [[] [] [] [] [] [] [] []]; try reflexivity. exfalso. apply n. reflexivity.
Qed.

(** X2. Text that precedes a dollar-quoted block is never split: when no
    dollar sign occurs before the first [$$], everything up to it, with
    its semicolons, stays in the first piece. *)
Theorem text_before_dollar_block_is_one_piece prefix rest :
  Js.all_chars (fun c => negb (c =? "$")%char) prefix = true ->
  exists first others,
    split_statements ("$$" ++ rest) = first :: others /\
    split_statements (prefix ++ "$$" ++ rest) = (prefix ++ first) :: others.
Proof.
  intros H.
  assert (T : dollar_block_ahead ("$$" ++ rest) = true) by reflexivity.
  remember ("$$" ++ rest) as tail eqn:Etail. clear Etail.
  destruct (split_statements tail) as [|first others] eqn:S.
  { exfalso. exact (split_statements_nonempty _ S). }
  exists first, others. split; [reflexivity|].
  induction prefix as [|c p IH]; [exact S|].
  cbn [Js.all_chars] in H. apply andb_prop in H. destruct H as [Hc Hp].
  cbn [append split_statements].
  rewrite (dollar_block_ahead_after p tail Hp T). cbn [negb]. rewrite andb_false_r.
  rewrite (IH Hp). reflexivity.
Qed.

Lemma text_before_dollar_block_is_one_piece_witness :
  exists first others,
    split_statements ("$$ begin; end $$;") = first :: others /\
    split_statements ("create table a (); create function f() as $$ begin; end $$;")
    = ("create table a (); create function f() as " ++ first) :: others.
Proof.
  exact (text_before_dollar_block_is_one_piece
           "create table a (); create function f() as " " begin; end $$;" eq_refl).
Defined.

End MigrationText.

(* ================================================================== *)
(** * Bounds on the CLI migration strategy *)
(* ================================================================== *)

Module RetryBounds.
Import Scenarios Properties Measures Rules MigrationOutcome.
Import ListNotations.
Open Scope string_scope.
Import Constants SupabaseSetup.

Lemma occurrences_app p (a b : list Event) :
  occurrences p (a ++ b) = (occurrences p a + occurrences p b)%nat.
Proof. unfold occurrences. rewrite filter_app, length_app. reflexivity. Qed.

Lemma slept_app (a b : list Event) : slept (a ++ b) = (slept a + slept b)%Z.
Proof.
  induction a as [|e a IH]; [reflexivity|].
  destruct e; cbn [app slept]; rewrite IH; lia.
Qed.

Ltac count :=
  cbn [outcome emitted rest app occurrences filter is_link is_push slept length
       String.eqb Ascii.eqb Bool.eqb andb throw ret].

Lemma viaCLI_rec_bounds env targetDir projectRef dbPassword fuel :
  forall retryCount h s,
    (MAX_MIGRATION_RETRIES - retryCount < fuel)%nat ->
    let r := applyMigrationsViaCLI_rec env fuel targetDir projectRef dbPassword
               retryCount h s in
    (occurrences is_link (emitted r) <= S (MAX_MIGRATION_RETRIES - retryCount))%nat /\
    (occurrences is_push (emitted r) <= S (MAX_MIGRATION_RETRIES - retryCount))%nat /\
    (0 <= slept (emitted r)
     <= 5000 * Z.of_nat (MAX_MIGRATION_RETRIES - retryCount) * Z.of_nat (4 + retryCount))%Z.
Proof.
  unfold MAX_MIGRATION_RETRIES.
  induction fuel as [|fuel IH]; intros retryCount h s Hf; [lia|].
  assert (NN : (0 <= 5000 * Z.of_nat (3 - retryCount) * Z.of_nat (4 + retryCount))%Z)
    by (apply Z.mul_nonneg_nonneg; lia).
  cbn [applyMigrationsViaCLI_rec]. unfold applyMigrationsViaCLI_body.
  rewrite run_spawn_bind. cbv zeta.
  destruct (succeeded (proc env h _ _ _)); cbn [negb].
  2:{ count. repeat split; lia. }
  rewrite run_spawn_bind. cbv zeta.
  destruct (succeeded (proc env _ "supabase" ["db"; "push"] _)).
  { count. repeat split; lia. }
  unfold MAX_MIGRATION_RETRIES, MIGRATION_RETRY_BASE_DELAY_MS.
  destruct (isProvisioningIssue _ && (retryCount <? 3)%nat) eqn:C.
  2:{ count. repeat split; lia. }
  apply andb_prop in C. destruct C as [_ C]. apply Nat.ltb_lt in C.
  unfold sleep. rewrite run_emit_bind. cbv zeta. cbn [emitted].
  match goal with
  | |- context [applyMigrationsViaCLI_rec env fuel _ _ _ ?rc ?hh ?ss] =>
      destruct (IH rc hh ss ltac:(lia)) as (L & P & Lo & Hi)
  end.
  rewrite <- !app_assoc. rewrite !occurrences_app, !slept_app.
  count.
  assert (R : (retryCount = 0 \/ retryCount = 1 \/ retryCount = 2)%nat) by lia.
  destruct R as [-> | [-> | ->]]; cbn [Nat.sub Nat.add] in *; repeat split; lia.
Qed.

(** X3. However the platform answers, one call of the CLI strategy links
    at most four times, pushes at most four times and sleeps at most 60
    seconds in all, less for a later retry; and it ends by returning or
    throwing. *)
Theorem cli_strategy_is_bounded env targetDir projectRef dbPassword retryCount h s :
  let r := applyMigrationsViaCLI env targetDir projectRef dbPassword retryCount h s in
  settles (outcome r) /\
  (occurrences is_link (emitted r) <= S (MAX_MIGRATION_RETRIES - retryCount))%nat /\
  (occurrences is_push (emitted r) <= S (MAX_MIGRATION_RETRIES - retryCount))%nat /\
  (0 <= slept (emitted r)
   <= 5000 * Z.of_nat (MAX_MIGRATION_RETRIES - retryCount) * Z.of_nat (4 + retryCount))%Z /\
  (slept (emitted r) <= 60000)%Z.
Proof.
  intros r. split; [apply viaCLI_settles|].
  destruct (viaCLI_rec_bounds env targetDir projectRef dbPassword
              (S (MAX_MIGRATION_RETRIES - retryCount)) retryCount h s
              ltac:(lia)) as (L & P & Lo & Hi).
  fold (applyMigrationsViaCLI env targetDir projectRef dbPassword retryCount h s) in L, P, Lo, Hi.
  fold r in L, P, Lo, Hi.
  repeat split; try assumption.
  unfold MAX_MIGRATION_RETRIES in *.
  assert (R : (retryCount = 0 \/ retryCount = 1 \/ retryCount = 2 \/ 3 <= retryCount)%nat) by lia.
  destruct R as [-> | [-> | [-> | R]]]; try lia.
Qed.

End RetryBounds.

(* ================================================================== *)
(** * The edges of [applyMigrations] and [generateTypes] *)
(* ================================================================== *)

Module ApplierEdges.
Import Scenarios Properties Measures Rules MigrationOutcome.
Import ListNotations.
Open Scope string_scope.
Import Constants SupabaseSetup.

(** X4. Without the platform CLI, or without a non-empty database
    password, [applyMigrations] reads the migration file, probes for the
    CLI and returns 'manual': it neither links nor pushes. *)
Theorem applyMigrations_skips_cli env targetDir supabaseUrl serviceKey dbPassword h s
        sql host :
  read_file env h (join targetDir migration_file) = inl sql ->
  url_hostname env supabaseUrl = Some host ->
  succeeded (proc env (readEvent targetDir :: h) "supabase" ["--version"] None) = false \/
  Js.truthy_opt dbPassword = false ->
  applyMigrations env targetDir supabaseUrl serviceKey dbPassword h s
  = mkRes (Ret manual) [versionEvent; readEvent targetDir] s.
Proof.
  intros Hr Hu Skip. erewrite applyMigrations_eval by eassumption.
  destruct Skip as [-> | ->]; rewrite ?andb_false_r; reflexivity.
Qed.

Lemma applyMigrations_skips_cli_witness :
  applyMigrations link_refused "/work/demo-app" "https://abc.supabase.co" "service-key"
                  None [] []
  = mkRes (Ret manual) [versionEvent; readEvent "/work/demo-app"] [].
Proof.
  exact (applyMigrations_skips_cli link_refused "/work/demo-app" "https://abc.supabase.co"
           "service-key" None [] [] "{}" "abc.supabase.co" eq_refl eq_refl
           (or_intror eq_refl)).
Defined.

(** X5. A migration file that cannot be read, or a URL that does not
    parse, makes [applyMigrations] throw, not return 'manual', before any
    process is started. *)
Theorem applyMigrations_throws_early env targetDir supabaseUrl serviceKey dbPassword h s :
  (forall error,
      read_file env h (join targetDir migration_file) = inr error ->
      applyMigrations env targetDir supabaseUrl serviceKey dbPassword h s
      = mkRes (Throw error) [readEvent targetDir] s) /\
  (forall sql,
      read_file env h (join targetDir migration_file) = inl sql ->
      url_hostname env supabaseUrl = None ->
      exists error,
        applyMigrations env targetDir supabaseUrl serviceKey dbPassword h s
        = mkRes (Throw error) [readEvent targetDir] s).
Proof.
  split.
  - intros error Hr. unfold applyMigrations, bind at 1, readFile. rewrite Hr. reflexivity.
  - intros sql Hr Hu. unfold applyMigrations.
    erewrite run_readFile_bind by exact Hr. cbv zeta.
    unfold bind at 1, hostname_label. rewrite Hu. eexists. reflexivity.
Qed.

Lemma applyMigrations_throws_early_witness :
  exists error,
    applyMigrations link_refused "/work/demo-app" "not a url" "service-key" None [] []
    = mkRes (Throw error) [readEvent "/work/demo-app"] [].
Proof.
  exact (proj2 (applyMigrations_throws_early link_refused "/work/demo-app" "not a url"
                  "service-key" None [] [])
               "{}" eq_refl eq_refl).
Defined.

Lemma run_writeFile_bind {B} env path content (f : unit -> M B) h s :
  bind (writeFile env path content) f h s =
  match write_error env h path content with
  | None =>
      let r := f tt (EWriteFile path content :: h) s in
      mkRes (outcome r) (emitted r ++ [EWriteFile path content])%list (rest r)
  | Some e => mkRes (Throw e) [EWriteFile path content] s
  end.
Proof. unfold bind, writeFile. destruct (write_error env h path content); reflexivity. Qed.


End ApplierEdges.

(* ================================================================== *)
(** * The entries of the table parser *)
(* ================================================================== *)

Module TableParser.
Import Scenarios Properties Measures Rules MigrationText.
Import ListNotations.
Open Scope string_scope.
Import SupabaseCli.

Lemma parse_table_line_entries line o :
  In o (parse_table_line line) ->
  is_table_row line = true /\
  exists i n,
    o = mkOrg (Some (JStr i)) (Some (JStr n)) /\
    i <> "" /\ n <> "" /\ trimmed i /\ trimmed n /\
    exists first second others,
      Js.split "|" line = first :: second :: others /\
      i = Js.trim first /\ n = Js.trim second.
Proof.
  unfold parse_table_line. destruct (is_table_row line); [|intros []].
  destruct (Js.split "|" line) as [|first [|second others]] eqn:E;
    cbn [map]; try (intros []).
  unfold Js.truthy.
  destruct (String.eqb_spec (Js.trim first) ""); [intros []|].
  destruct (String.eqb_spec (Js.trim second) ""); [intros []|]. cbn [negb andb].
  intros [<- | []]. split; [reflexivity|].
  exists (Js.trim first), (Js.trim second).
  repeat split; try assumption; try apply trim_idempotent.
  exists first, second, others. repeat split.
Qed.

Lemma parse_table_line_short line : (length (parse_table_line line) <= 1)%nat.
Proof.
  unfold parse_table_line. destruct (is_table_row line); [|cbn; lia].
  destruct (map Js.trim (Js.split "|" line)) as [|i [|n others]]; try (cbn; lia).
  destruct (Js.truthy i && Js.truthy n); cbn; lia.
Qed.

Lemma flat_map_short {A B} (f : A -> list B) l :
  (forall a, length (f a) <= 1)%nat -> (length (flat_map f l) <= length l)%nat.
Proof.
  intros Hf. induction l as [|a l IH]; [reflexivity|].
  cbn [flat_map]. rewrite length_app. specialize (Hf a). cbn [length]. lia.
Qed.


End TableParser.

(* ================================================================== *)
(** * Rewriting the package descriptor *)
(* ================================================================== *)

Module PackageDescriptor.
Import Scenarios Properties Measures Rules ApplierEdges.
Import ListNotations.
Open Scope string_scope.
Import Constants CopyTemplate.

Lemma lookup_set_same k v fields : JsValue.lookup k (set_field k v fields) = Some v.
Proof.
  induction fields as [|[k' v'] more IH]; cbn [set_field JsValue.lookup].
  - rewrite String.eqb_refl. reflexivity.
  - destruct (String.eqb_spec k' k); cbn [JsValue.lookup].
    + rewrite String.eqb_refl. reflexivity.
    + destruct (String.eqb_spec k' k); [contradiction | exact IH].
Qed.

Lemma lookup_set_other k other v fields :
  other <> k -> JsValue.lookup other (set_field k v fields) = JsValue.lookup other fields.
Proof.
  intros N. induction fields as [|[k' v'] more IH]; cbn [set_field JsValue.lookup].
  - destruct (String.eqb_spec k other); [congruence | reflexivity].
  - destruct (String.eqb_spec k' k) as [->|Nk]; cbn [JsValue.lookup].
    + destruct (String.eqb_spec k other); [congruence | reflexivity].
    + rewrite IH. reflexivity.
Qed.

(** X8. [setPackageManager] rewrites the descriptor it read: the
    [packageManager] field holds the chosen manager's version string; for a
    port other than 0 and the default, the [dev] and [start] scripts carry
    the port, and a descriptor whose [scripts] is missing or not an object makes
    it throw before writing; every other field and script is as it was read. *)
Theorem setPackageManager_rewrites env targetDir pm port h s content fields :
  read_file env h (packageJson targetDir) = inl content ->
  JSON_parse env content = Parsed (JObj fields) ->
  let r := setPackageManager env targetDir pm port h s in
  let version := Some (JStr (getPackageManagerVersion pm)) in
  match custom_port port with
  | None =>
      exists written,
        emitted r = [EWriteFile (packageJson targetDir)
                       (JSON_stringify env (JObj written) ++ nl);
                     EReadFile (packageJson targetDir)] /\
        JsValue.lookup "packageManager" written = version /\
        (forall k, k <> "packageManager" ->
                   JsValue.lookup k written = JsValue.lookup k fields)
  | Some p =>
      match JsValue.lookup "scripts" fields with
      | Some (JObj scripts) =>
          exists written scripts',
            emitted r = [EWriteFile (packageJson targetDir)
                           (JSON_stringify env (JObj written) ++ nl);
                         EReadFile (packageJson targetDir)] /\
            JsValue.lookup "packageManager" written = version /\
            JsValue.lookup "scripts" written = Some (JObj scripts') /\
            JsValue.lookup "dev" scripts' = Some (JStr ("next dev -p " ++ Js.string_of_Z p)) /\
            JsValue.lookup "start" scripts'
            = Some (JStr ("next start -p " ++ Js.string_of_Z p)) /\
            (forall k, k <> "dev" -> k <> "start" ->
                       JsValue.lookup k scripts' = JsValue.lookup k scripts) /\
            (forall k, k <> "packageManager" -> k <> "scripts" ->
                       JsValue.lookup k written = JsValue.lookup k fields)
      | Some (JArr _) => True
      | _ =>
          (exists error, outcome r = Throw error) /\
          emitted r = [EReadFile (packageJson targetDir)]
      end
  end.
Proof.
  intros Hr Hp r version. subst r version. unfold setPackageManager. cbv zeta.
  fold (packageJson targetDir).
  erewrite run_readFile_bind by exact Hr. cbv zeta.
  unfold json_parse. rewrite Hp. rewrite run_ret_bind.
  unfold custom_port.
  destruct port as [p|]; [destruct (negb (p =? 0)%Z && negb (p =? DEFAULT_PORT)%Z)|].
  - rewrite lookup_set_other by discriminate.
    destruct (JsValue.lookup "scripts" fields) as [[| | | | |scripts]|];
      try exact I; try (split; [eexists|]; reflexivity).
    rewrite run_ret_bind. unfold writeFile.
    eexists. eexists. split.
    { destruct (write_error env _ _ _); reflexivity. }
    split; [rewrite lookup_set_other by discriminate; apply lookup_set_same|].
    split; [apply lookup_set_same|].
    split; [rewrite lookup_set_other by discriminate; apply lookup_set_same|].
    split; [apply lookup_set_same|].
    split.
    + intros k Kd Ks. rewrite !lookup_set_other by assumption. reflexivity.
    + intros k Kp Ks. rewrite !lookup_set_other by assumption. reflexivity.
  - rewrite run_ret_bind. unfold writeFile. eexists. split.
    { destruct (write_error env _ _ _); reflexivity. }
    split; [apply lookup_set_same|].
    intros k Kp. apply lookup_set_other. assumption.
  - rewrite run_ret_bind. unfold writeFile. eexists. split.
    { destruct (write_error env _ _ _); reflexivity. }
    split; [apply lookup_set_same|].
    intros k Kp. apply lookup_set_other. assumption.
Qed.

Lemma setPackageManager_rewrites_witness :
  exists written,
    emitted (setPackageManager link_refused "/work/demo-app" pnpm (Some 3000%Z) [] [])
    = [EWriteFile "/work/demo-app/package.json"
         (JSON_stringify link_refused (JObj written) ++ nl);
       EReadFile "/work/demo-app/package.json"] /\
    JsValue.lookup "packageManager" written = Some (JStr "pnpm@9.15.4") /\
    (forall k, k <> "packageManager" -> JsValue.lookup k written = JsValue.lookup k []).
Proof.
  exact (setPackageManager_rewrites link_refused "/work/demo-app" pnpm (Some 3000%Z) [] []
           "{}" [] eq_refl eq_refl).
Defined.

End PackageDescriptor.

(* ================================================================== *)
(** * What the setup flow returns and touches *)
(* ================================================================== *)

Module SetupResults.
Import Scenarios Properties Measures Rules AdapterFlows MigrationText.
Import ListNotations.
Open Scope string_scope.
Import Constants SupabaseCli SetupMethod Validate.

Lemma port_text_valid v : port_text v = None -> valid_port (Js.parseInt v).
Proof.
  unfold port_text, valid_port. destruct (Js.parseInt v) as [p|]; [|discriminate].
  destruct ((p <? MIN_PORT)%Z || (p >? MAX_PORT)%Z) eqn:E; [discriminate|].
  intros _. exists p. apply orb_false_elim in E. destruct E as [E1 E2].
  split; [reflexivity|]. lia.
Qed.

Lemma db_password_long v :
  db_password v = None -> (MIN_DB_PASSWORD_LENGTH <= String.length v)%nat.
Proof.
  unfold db_password. destruct (negb (Js.truthy v)); [discriminate|].
  destruct (String.length v <? MIN_DB_PASSWORD_LENGTH)%nat eqn:E; [discriminate|].
  intros _. apply Nat.ltb_ge. exact E.
Qed.

Lemma api_key_long required v : api_key required v = None -> (100 <= String.length v)%nat.
Proof.
  unfold api_key. destruct (negb (Js.truthy v)); [discriminate|].
  destruct (String.length v <? 100)%nat eqn:E; [discriminate|].
  intros _. apply Nat.ltb_ge. exact E.
Qed.

Lemma supabase_url_shape v :
  supabase_url v = None ->
  Js.startsWith v "https://" = true /\ Js.includes v "supabase.co" = true.
Proof.
  unfold supabase_url. destruct (negb (Js.truthy v)); [discriminate|].
  destruct (Js.startsWith v "https://"), (Js.includes v "supabase.co");
    cbn [negb orb]; try discriminate. auto.
Qed.

Lemma adapter_setup_event e : adapter_event e -> setup_event e.
Proof. destruct e; cbn [adapter_event setup_event]; tauto. Qed.
#[export] Hint Resolve adapter_setup_event : flows.

Section Setup.
Variable env : Env.

Lemma collectProjectInfo_sound initial :
  sat (CollectInfo.collectProjectInfo env initial)
      (fun c => forall cfg, c = Some cfg -> sound_config env cfg /\ manual_config cfg)
      setup_event.
Proof.
  unfold CollectInfo.collectProjectInfo. flow.
  all: try (intros cfg E; discriminate).
  intros cfg E. injection E as <-. unfold sound_config, manual_config.
  cbn [port targetDir projectName dbPassword supabaseUrl supabaseAnonKey supabaseServiceKey].
  split; [split; [|split]|split; [|split; [|split; [|split; [|split]]]]].
  - apply port_text_valid. assumption.
  - reflexivity.
  - discriminate.
  - reflexivity.
  - apply trim_idempotent.
  - apply supabase_url_shape. assumption.
  - apply supabase_url_shape. assumption.
  - eapply api_key_long. eassumption.
  - eapply api_key_long. eassumption.
Qed.

Lemma cancelled_sound : sound_result env cancelled_result.
Proof.
  unfold sound_result, cancelled_result. cbn [config method].
  repeat split; intros; discriminate.
Qed.

Lemma manual_result_sound c :
  (forall cfg, c = Some cfg -> sound_config env cfg /\ manual_config cfg) ->
  sound_result env (mkResult c manual).
Proof.
  intros H. unfold sound_result. cbn [config method].
  split; [discriminate|]. split; [discriminate|].
  intros cfg E. destruct (H cfg E).
  split; [assumption|]. split; [intros _; assumption | discriminate].
Qed.

Ltac settle_result :=
  first [ apply cancelled_sound
        | apply manual_result_sound; assumption ].

Lemma finish_sound name credentials password :
  (exists ref, url credentials = "https://" ++ ref ++ ".supabase.co") ->
  (forall p, password = Some p -> (MIN_DB_PASSWORD_LENGTH <= String.length p)%nat) ->
  sat (finish env name credentials password) (sound_result env) setup_event.
Proof.
  intros U L. unfold finish. flow.
  all: try settle_result.
  unfold sound_result, sound_config, automated_config.
  cbn [config method port targetDir projectName dbPassword supabaseUrl].
  split; [discriminate|]. split; [discriminate|].
  intros cfg E. injection E as <-.
  cbn [config method port targetDir projectName dbPassword supabaseUrl].
  split; [split; [|split]|split].
  - apply port_text_valid. assumption.
  - reflexivity.
  - exact L.
  - discriminate.
  - intros _. exact U.
Qed.

Lemma getProjectCredentials_url projectRef :
  sat (getProjectCredentials env projectRef)
      (fun c => url c = "https://" ++ projectRef ++ ".supabase.co") setup_event.
Proof. unfold getProjectCredentials. flow. Qed.

(** The block that fetches the credentials and stops the spinner. *)
Lemma credentials_block projectRef ch msg handler :
  (forall e, sat (handler e) (fun _ : ProjectCredentials => False) setup_event) ->
  sat (try_catch
         (fetched <- getProjectCredentials env projectRef ;; say ch msg ;; ret fetched)
         handler)
      (fun c => exists ref, url c = "https://" ++ ref ++ ".supabase.co") setup_event.
Proof.
  intros Hh. apply sat_try_catch.
  - eapply sat_bind; [apply getProjectCredentials_url|].
    intros c Hc. flow. all: eexists; exact Hc.
  - intros e. eapply sat_weaken; [apply Hh | intros ? []].
Qed.

Ltac credentials_step :=
  lazymatch goal with
  | |- sat (bind (try_catch (bind (getProjectCredentials _ _) _) _) _) _ _ =>
      eapply sat_bind; [ apply credentials_block; intros ?; flow | intros ? ? ]
  end.

Ltac setup_flow :=
  repeat (first [ credentials_step | sat_step | sat_call ];
          try discriminate; try congruence; auto).

Lemma createRemote_setup name orgId region password :
  sat (SupabaseCli.createProject env name orgId region password) (fun _ => True) setup_event.
Proof. unfold SupabaseCli.createProject. flow. Qed.

Lemma find_duplicate_setup projects name :
  sat (find_duplicate projects name) (fun _ => True) setup_event.
Proof. induction projects; simpl; flow. Qed.
Hint Resolve createRemote_setup find_duplicate_setup : flows.

Lemma check_and_create_sound name orgId region password :
  (MIN_DB_PASSWORD_LENGTH <= String.length password)%nat ->
  sat (check_and_create env name orgId region password) (sound_result env) setup_event.
Proof.
  intros L. unfold check_and_create. setup_flow.
  all: try settle_result.
  apply finish_sound; [assumption | intros ? E; injection E as <-; exact L].
Qed.
Hint Resolve check_and_create_sound collectProjectInfo_sound db_password_long : flows.

Lemma handleProjectCreation_sound initial :
  sat (handleProjectCreation env initial) (sound_result env) setup_event.
Proof.
  unfold handleProjectCreation, collectProjectInfo. setup_flow.
  all: try settle_result.
Qed.
Hint Resolve handleProjectCreation_sound : flows.

Lemma handleExistingProject_sound initial :
  sat (handleExistingProject env initial) (sound_result env) setup_event.
Proof.
  unfold handleExistingProject, collectProjectInfo. setup_flow.
  all: try settle_result.
  apply finish_sound; [assumption | intros ? E; discriminate].
Qed.
Hint Resolve handleExistingProject_sound : flows.

Lemma setup_sound fuel :
  forall given, sat (setupWithSupabaseCLI env fuel given) (sound_result env) setup_event.
Proof.
  induction fuel as [|fuel IH]; intros given; cbn [setupWithSupabaseCLI].
  - apply sat_out_of_fuel.
  - unfold collectProjectInfo. setup_flow.
    all: try settle_result.
Qed.

End Setup.





(** X11. The setup flow leaves the file system alone: it starts
    processes, waits, prints, asks and checks whether a path exists, and
    never copies, reads or writes a file or calls the API. *)
Theorem setup_touches_no_file env fuel given h s :
  Forall setup_event (emitted (setupWithSupabaseCLI env fuel given h s)).
Proof. apply setup_sound. Qed.

End SetupResults.

(* ================================================================== *)
(** * The order of the materializer *)
(* ================================================================== *)

Module Materializer.
Import Scenarios Properties Measures Rules AdapterFlows MigrationOutcome EnvFile DuplicateNames ExitStatus.
Import ListNotations.
Open Scope string_scope.
Import Constants SupabaseSetup CopyTemplate.

(** X12. An existing target directory is overwritten only on an explicit
    yes: when the directory exists and the answer to the overwrite prompt
    is anything else, the materializer exits with status 0 having copied,
    read, written and started nothing. *)
Theorem overwrite_needs_confirmation env cfg h s :
  existsSync env h (targetDir cfg) = true ->
  fst (Prompt.read_answer s) <> Some true ->
  let r := CreateProject.createProject env cfg h s in
  outcome r = Exit 0 /\ Forall harmless (emitted r).
Proof.
  intros Hex Hno r. subst r. unfold CreateProject.createProject.
  rewrite run_bind. cbv zeta. cbn [fs_exists outcome emitted rest]. rewrite Hex.
  rewrite run_bind. cbv zeta. rewrite run_bind. cbv zeta. unfold Prompt.confirm.
  destruct (Prompt.read_answer s) as [[[]|] s']; cbn [fst] in Hno;
    try congruence; cbn [outcome emitted rest app];
    rewrite run_emit_bind || (unfold say; rewrite run_emit_bind);
    cbn [outcome emitted rest app exit];
    (split; [reflexivity | repeat constructor]).
Qed.

Lemma overwrite_needs_confirmation_witness :
  outcome (CreateProject.createProject occupied demo_config [] [Answer false]) = Exit 0 /\
  Forall harmless (emitted (CreateProject.createProject occupied demo_config [] [Answer false])).
Proof.
  apply (overwrite_needs_confirmation occupied demo_config [] [Answer false]).
  - reflexivity.
  - discriminate.
Defined.

(** Splitting a list at an event that its first part does not hold. *)
Lemma split_after (p : Event -> bool) (x y post pre : list Event) e :
  p e = true ->
  Forall (fun a => p a = false) x ->
  (x ++ y = post ++ e :: pre)%list ->
  exists post', post = (x ++ post')%list /\ y = (post' ++ e :: pre)%list.
Proof.
  intros He Hx. revert post. induction Hx as [|a x Ha Hx IH]; intros post E.
  - exists post. auto.
  - destruct post as [|b post]; cbn [app] in E; injection E as -> E.
    + congruence.
    + destruct (IH post E) as (post' & -> & ->). exists post'. auto.
Qed.

Section Preceded.
Variable e0 : Event.
Variable p : Event -> bool.

Lemma preceded_quiet {A} (m : M A) :
  sat m (fun _ => True) (fun x => p x = false) -> preceded e0 p m.
Proof.
  intros Hm h s post e pre E He. exfalso.
  destruct (Hm h s) as [Ev _]. rewrite E in Ev. rewrite Forall_forall in Ev.
  specialize (Ev e (in_elt _ _ _)). congruence.
Qed.

Lemma preceded_skip {A B} (m : M A) (f : A -> M B) :
  sat m (fun _ => True) (fun x => p x = false) ->
  (forall a, preceded e0 p (f a)) ->
  preceded e0 p (bind m f).
Proof.
  intros Hm Hf h s post e pre E He. destruct (Hm h s) as [Ev _].
  unfold bind in E. destruct (outcome (m h s)) as [a| | |]; cbn [emitted] in E;
    try (exfalso; rewrite E in Ev; rewrite Forall_forall in Ev;
         specialize (Ev e (in_elt _ _ _)); congruence).
  destruct (split_at_event p _ _ post pre e He Ev E) as (pre' & E' & ->).
  apply in_or_app. left. eapply Hf; eauto.
Qed.

Lemma preceded_after {A B} (m : M A) (f : A -> M B) :
  sat m (fun _ => True) (fun x => p x = false) ->
  always_emits e0 m ->
  preceded e0 p (bind m f).
Proof.
  intros Hm He0 h s post e pre E He. destruct (Hm h s) as [Ev _].
  unfold bind in E. destruct (outcome (m h s)) as [a| | |]; cbn [emitted] in E;
    try (exfalso; rewrite E in Ev; rewrite Forall_forall in Ev;
         specialize (Ev e (in_elt _ _ _)); congruence).
  destruct (split_at_event p _ _ post pre e He Ev E) as (pre' & E' & ->).
  apply in_or_app. right. apply He0.
Qed.

Lemma preceded_try_catch {A} (m : M A) handler :
  preceded e0 p m ->
  (forall x, sat (handler x) (fun _ => True) (fun x => p x = false)) ->
  preceded e0 p (try_catch m handler).
Proof.
  intros Hm Hh h s post e pre E He. unfold try_catch in E.
  destruct (outcome (m h s)) as [a|x| |]; cbn [emitted] in E;
    try (eapply Hm; eauto; fail).
  destruct (Hh x (emitted (m h s) ++ h)%list (rest (m h s))) as [Ev _].
  destruct (split_after p _ _ post pre e He Ev E) as (post' & -> & E').
  eapply Hm; eauto.
Qed.

End Preceded.

Lemma always_emits_copyTemplate env targetDir :
  always_emits (ECopyTemplate targetDir) (copyTemplate env targetDir).
Proof.
  intros h s. unfold copyTemplate. destruct (copy_error env h targetDir); left; reflexivity.
Qed.

Lemma always_emits_readFile env path : always_emits (EReadFile path) (readFile env path).
Proof.
  intros h s. unfold readFile. destruct (read_file env h path); left; reflexivity.
Qed.

Lemma always_emits_writeFile env path content :
  always_emits (EWriteFile path content) (writeFile env path content).
Proof.
  intros h s. unfold writeFile. destruct (write_error env h path content); left; reflexivity.
Qed.

Lemma other_file_is_not_env targetDir content :
  is_env_write targetDir (EWriteFile (join targetDir "package.json") content) = false.
Proof.
  cbn [is_env_write]. apply String.eqb_neq. intros E. apply join_inj in E. discriminate.
Qed.

Ltac sat_event ::=
  first [ exact I | reflexivity | apply other_file_is_not_env ].

Ltac order_step :=
  lazymatch goal with
  | |- preceded _ _ (bind _ _) => apply preceded_skip; [ solve [flow] | intros ? ]
  | |- preceded _ _ (try_catch _ _) => apply preceded_try_catch; [ | intros ?; solve [flow] ]
  end.

(** X13. The materializer works in order: the environment file is written
    only after the template was copied and the package descriptor read,
    and every command run inside the project directory (link, push, type
    generation, dependency install) comes after the write of the
    environment file. *)
Theorem materializer_order env cfg :
  preceded (ECopyTemplate (targetDir cfg)) (is_env_write (targetDir cfg))
           (CreateProject.createProject env cfg) /\
  preceded (EReadFile (packageJson (targetDir cfg))) (is_env_write (targetDir cfg))
           (CreateProject.createProject env cfg) /\
  preceded (envWrite cfg) uses_project (CreateProject.createProject env cfg).
Proof.
  unfold CreateProject.createProject, CreateProject.pipeline. split; [|split].
  - do 4 order_step. apply preceded_after; [flow | apply always_emits_copyTemplate].
  - do 6 order_step. apply preceded_after.
    + unfold setPackageManager. flow.
    + unfold setPackageManager. cbv zeta. apply always_emits_bind_l, always_emits_readFile.
  - unfold setPackageManager. do 8 order_step. apply preceded_after.
    + unfold writeEnvFile. flow.
    + apply always_emits_writeFile.
Qed.

End Materializer.

(* ================================================================== *)
(** * The checks of the platform adapter *)
(* ================================================================== *)

Module AdapterChecks.
Import Scenarios Properties Measures Rules AdapterFlows RetryBounds.
Import ListNotations.
Open Scope string_scope.
Import Constants SupabaseCli.

Section Checks.
Variable env : Env.

Lemma poll_ready_returns ticks projectRef maxWaitTime :
  forall checkCount, returns (poll_ready env ticks projectRef maxWaitTime checkCount).
Proof.
  induction ticks as [|ticks IH]; intros checkCount; cbn [poll_ready]; cbv zeta.
  - apply returns_ret.
  - repeat settle_step. apply IH.
Qed.

Lemma installers_return :
  returns (hasSupabaseCLI env) /\ returns (isAuthenticated env) /\ returns (login env) /\
  returns (installCLI env) /\ returns (installCLIManual env) /\
  (forall projectRef, returns (waitForProjectReady env projectRef)).
Proof.
  unfold hasSupabaseCLI, isAuthenticated, login, installCLI, installCLIManual,
    waitForProjectReady, run_installer, installViaBrew, installViaDirectDownload,
    installViaWindows.
  repeat split; intros; repeat settle_step; apply poll_ready_returns.
Qed.

End Checks.

(** X14. The yes-or-no operations of the platform adapter never throw:
    whatever the commands they start report, probing for the CLI, checking
    the login, logging in, installing the CLI either way and waiting for a
    project return a boolean. *)
Theorem adapter_checks_never_throw env h s :
  (exists b, outcome (hasSupabaseCLI env h s) = Ret b) /\
  (exists b, outcome (isAuthenticated env h s) = Ret b) /\
  (exists b, outcome (login env h s) = Ret b) /\
  (exists b, outcome (installCLI env h s) = Ret b) /\
  (exists b, outcome (installCLIManual env h s) = Ret b) /\
  (forall projectRef, exists b, outcome (waitForProjectReady env projectRef h s) = Ret b).
Proof.
  destruct (installers_return env) as (A & B & C & D & E & F).
  repeat split; intros; first [apply A | apply B | apply C | apply D | apply E | apply F].
Qed.

(** X15. On a platform other than darwin, linux and win32 neither
    installer starts a process: both report failure at once. *)
Theorem no_installer_for_unknown_platform env h s :
  detectOS env = unknown ->
  outcome (installCLI env h s) = Ret false /\
  Forall (fun e => is_spawn_event e = false) (emitted (installCLI env h s)) /\
  installCLIManual env h s = mkRes (Ret false) [] s.
Proof.
  intros U. unfold installCLI, installCLIManual. rewrite U. cbv zeta.
  split; [reflexivity|]. split; [|reflexivity].
  repeat constructor.
Qed.

Lemma no_installer_for_unknown_platform_witness :
  outcome (installCLI (world "freebsd" (fun _ _ _ _ => ok) parse_basic) [] []) = Ret false.
Proof.
  exact (proj1 (no_installer_for_unknown_platform
                  (world "freebsd" (fun _ _ _ _ => ok) parse_basic) [] [] eq_refl)).
Defined.

Lemma hd_error_app {A} (a b : list A) x :
  hd_error a = Some x -> hd_error (a ++ b) = Some x.
Proof. destruct a; [discriminate | auto]. Qed.

Lemma poll_ready_bounds env projectRef ticks :
  forall checkCount h s,
    let r := poll_ready env ticks projectRef MAX_PROJECT_WAIT_TIME_MS checkCount h s in
    (occurrences is_probe (emitted r) <= ticks)%nat /\
    slept (emitted r) = (10000 * Z.of_nat (occurrences is_probe (emitted r)))%Z /\
    (outcome r = Ret true ->
     hd_error (emitted r) = Some (ESay SpinnerStop "Project is ready!")) /\
    ((0 <= checkCount <= 30)%Z -> (checkCount + Z.of_nat ticks >= 31)%Z ->
     outcome r = Ret false ->
     hd_error (emitted r) = Some (ESay SpinnerStop "Project provisioning timed out")).
Proof.
  unfold MAX_PROJECT_WAIT_TIME_MS.
  induction ticks as [|ticks IH]; intros checkCount h s; cbn [poll_ready]; cbv zeta.
  - cbn. repeat split; try lia; try discriminate.
  - unfold sleep. rewrite run_emit_bind. cbv zeta. rewrite run_spawn_bind. cbv zeta.
    unfold PROJECT_CHECK_INTERVAL_MS.
    destruct (succeeded (proc env _ _ _ _)).
    { unfold say. rewrite run_emit_bind. cbv zeta.
      cbn [ret outcome emitted rest app]. 
      cbn [occurrences filter is_probe slept length String.eqb Ascii.eqb Bool.eqb andb].
      repeat split; try lia; try discriminate. }
    destruct ((checkCount + 1) * 10000 >? 300000)%Z eqn:T.
    { unfold say. rewrite run_emit_bind. cbv zeta.
      cbn [ret outcome emitted rest app].
      cbn [occurrences filter is_probe slept length String.eqb Ascii.eqb Bool.eqb andb].
      repeat split; try lia; try discriminate. }
    match goal with
    | |- context [poll_ready env ticks projectRef 300000 ?c ?hh ?ss] =>
        destruct (IH c hh ss) as (N & Sl & Rd & Tm)
    end.
    cbn [outcome emitted rest]. rewrite <- !app_assoc.
    rewrite !occurrences_app, !slept_app.
    cbn [app occurrences filter is_probe slept length String.eqb Ascii.eqb Bool.eqb andb].
    split; [lia|]. split; [lia|]. split.
    + intros E. apply hd_error_app. apply Rd. exact E.
    + intros Lo Hi E. apply hd_error_app. apply Tm; try lia. exact E.
Qed.

(** X16. With the timer firing on time, one interval of ten seconds after
    the other, waiting for a project probes at most 31 times and sleeps one
    interval before each probe; it reports readiness as its last word when
    it returns true, and the timeout when it returns false. *)
Theorem waitForProjectReady_bounded env projectRef h s :
  let r := waitForProjectReady env projectRef h s in
  (occurrences is_probe (emitted r) <= 31)%nat /\
  slept (emitted r) = (PROJECT_CHECK_INTERVAL_MS * Z.of_nat (occurrences is_probe (emitted r)))%Z /\
  (outcome r = Ret true ->
   hd_error (emitted r) = Some (ESay SpinnerStop "Project is ready!")) /\
  (outcome r = Ret false ->
   hd_error (emitted r) = Some (ESay SpinnerStop "Project provisioning timed out")).
Proof.
  intros r. subst r. unfold waitForProjectReady, say.
  change (S (Z.to_nat (MAX_PROJECT_WAIT_TIME_MS / PROJECT_CHECK_INTERVAL_MS))) with 31%nat.
  rewrite run_emit_bind. cbv zeta.
  match goal with
  | |- context [poll_ready env ?t projectRef MAX_PROJECT_WAIT_TIME_MS ?c ?hh ?ss] =>
      destruct (poll_ready_bounds env projectRef t c hh ss) as (N & Sl & Rd & Tm)
  end.
  cbn [outcome emitted rest]. rewrite !occurrences_app, !slept_app.
  cbn [app occurrences filter is_probe slept length].
  unfold PROJECT_CHECK_INTERVAL_MS.
  split; [lia|]. split; [lia|]. split.
  - intros E. apply hd_error_app. apply Rd. exact E.
  - intros E. apply hd_error_app. apply Tm; try lia. exact E.
Qed.

End AdapterChecks.

(* ================================================================== *)
(** * Reading the project reference off a URL *)
(* ================================================================== *)

Module ProjectRef.
Import Scenarios Properties Measures Rules EnvFile.
Import ListNotations.
Open Scope string_scope.
Import CollectInfo.

Lemma substring_all s : String.substring 0 (String.length s) s = s.
Proof. induction s as [|c s IH]; [reflexivity|]. cbn. rewrite IH. reflexivity. Qed.

Lemma substring_after p r :
  String.substring (String.length p) (String.length (p ++ r) - String.length p) (p ++ r) = r.
Proof.
  induction p as [|c p IH]; cbn [append String.length String.substring].
  - rewrite Nat.sub_0_r. apply substring_all.
  - exact IH.
Qed.

Lemma take_non_dot_splits s :
  s = fst (take_non_dot s) ++ snd (take_non_dot s) /\
  dot_free (fst (take_non_dot s)) = true.
Proof.
  induction s as [|c s [IH1 IH2]]; [split; reflexivity|]. cbn [take_non_dot].
  destruct (Ascii.eqb_spec c "."); [split; reflexivity|].
  destruct (take_non_dot s) as [run tail]. cbn [fst snd] in *. split.
  - cbn [append]. congruence.
  - unfold dot_free. cbn [Js.all_chars]. fold (dot_free run). rewrite IH2.
    destruct (Ascii.eqb_spec c "."); [contradiction | reflexivity].
Qed.

Lemma take_non_dot_stops ref tail :
  dot_free ref = true ->
  take_non_dot (ref ++ String "." tail) = (ref, String "." tail).
Proof.
  induction ref as [|c ref IH]; intros D; [reflexivity|].
  unfold dot_free in D. cbn [Js.all_chars] in D. apply andb_prop in D. destruct D as [Dc D].
  cbn [append take_non_dot].
  destruct (c =? ".")%char; [discriminate|]. rewrite (IH D). reflexivity.
Qed.

Lemma project_ref_at_sound s ref :
  project_ref_at s = Some ref ->
  ref <> "" /\ dot_free ref = true /\
  exists rest, s = "https://" ++ ref ++ ".supabase.co" ++ rest.
Proof.
  unfold project_ref_at. destruct (String.prefix "https://" s) eqn:P; [|discriminate].
  apply prefix_app in P. destruct P as [t ->].
  change 8%nat with (String.length "https://").
  rewrite substring_after.
  destruct (take_non_dot_splits t) as [St Dt].
  destruct (take_non_dot t) as [run tail]. cbn [fst snd] in *.
  destruct (Js.truthy run) eqn:T; [|discriminate]. cbn [andb].
  destruct (String.prefix ".supabase.co" tail) eqn:P; [|discriminate].
  intros E. injection E as <-.
  apply prefix_app in P. destruct P as [rest ->].
  split; [intros ->; discriminate|]. split; [exact Dt|].
  exists rest. rewrite St. reflexivity.
Qed.

(** X17. The project reference that the manual path reads off the entered
    URL is never empty and has no dot, and the URL holds it between
    [https://] and [.supabase.co]; and a URL that begins with
    [https://<ref>.supabase.co], for a non-empty [ref] without a dot, gives
    back [ref], which is how [getProjectCredentials] builds its URL. *)
Theorem match_project_ref_extracts :
  (forall url ref,
      match_project_ref url = Some ref ->
      ref <> "" /\ dot_free ref = true /\
      exists before after, url = before ++ "https://" ++ ref ++ ".supabase.co" ++ after) /\
  (forall ref rest,
      ref <> "" -> dot_free ref = true ->
      match_project_ref ("https://" ++ ref ++ ".supabase.co" ++ rest) = Some ref).
Proof.
  split.
  - intros url. induction url as [|c url IH]; intros ref.
    + cbn [match_project_ref]. destruct (project_ref_at "") eqn:P; [|discriminate].
      intros E. injection E as ->. destruct (project_ref_at_sound _ _ P) as (N & D & rest & E).
      split; [exact N|]. split; [exact D|]. exists "", rest. exact E.
    + cbn [match_project_ref]. destruct (project_ref_at (String c url)) eqn:P.
      * intros E. injection E as ->.
        destruct (project_ref_at_sound _ _ P) as (N & D & rest & E).
        split; [exact N|]. split; [exact D|]. exists "", rest. exact E.
      * intros E. destruct (IH ref E) as (N & D & before & after & ->).
        split; [exact N|]. split; [exact D|]. exists (String c before), after. reflexivity.
  - intros ref rest N D.
    assert (P : project_ref_at ("https://" ++ ref ++ ".supabase.co" ++ rest) = Some ref).
    { unfold project_ref_at.
      replace (String.prefix "https://" ("https://" ++ ref ++ ".supabase.co" ++ rest))
        with true by (symmetry; apply prefix_app; eauto).
      change 8%nat with (String.length "https://"). rewrite substring_after.
      change (ref ++ ".supabase.co" ++ rest) with (ref ++ String "." ("supabase.co" ++ rest)).
      rewrite (take_non_dot_stops ref _ D).
      replace (String.prefix ".supabase.co" (String "." ("supabase.co" ++ rest)))
        with true by (symmetry; apply prefix_app; exists rest; reflexivity).
      destruct ref; [congruence|]. reflexivity. }
    remember ("https://" ++ ref ++ ".supabase.co" ++ rest) as url.
    destruct url; cbn [match_project_ref]; rewrite P; reflexivity.
Qed.

Lemma match_project_ref_extracts_witness :
  match_project_ref "https://abc.supabase.co/rest/v1" = Some "abc".
Proof.
  exact (proj2 match_project_ref_extracts "abc" "/rest/v1" ltac:(discriminate) eq_refl).
Defined.

End ProjectRef.

(* ================================================================== *)
(** * The replies [listProjects] and [getProjectCredentials] accept *)
(* ================================================================== *)

Module AdapterReplies.
Import Scenarios Properties Measures Rules DuplicateNames.
Import ListNotations.
Open Scope string_scope.
Import Constants SupabaseCli Validate.

Lemma project_of_json_outcome item h s :
  match outcome (project_of_json item h s) with
  | Ret p => lists_as item p
  | Throw _ => item = JNull
  | _ => False
  end.
Proof.
  unfold lists_as. destruct item; cbn; repeat split; reflexivity.
Qed.

Lemma mapM_project_outcome items h s :
  match outcome (mapM project_of_json items h s) with
  | Ret ps => Forall2 lists_as items ps
  | Throw _ => In JNull items
  | _ => False
  end.
Proof.
  induction items as [|item more IH]; cbn [mapM].
  - cbn. constructor.
  - destruct (pure_project_of_json item) as [o Ho].
    pose proof (project_of_json_outcome item h s) as Hi. rewrite Ho in Hi.
    cbn [outcome] in Hi.
    erewrite bind_pure by apply Ho.
    destruct o as [p|e|c|]; try contradiction.
    + destruct (pure_mapM project_of_json more pure_project_of_json) as [o' Ho'].
      rewrite Ho' in IH. cbn [outcome] in IH.
      erewrite bind_pure by apply Ho'.
      destruct o' as [ps|e|c|]; try contradiction; cbn.
      * constructor; assumption.
      * right; assumption.
    + cbn. left. exact Hi.
Qed.

(** X18. [listProjects] ends in one of three ways.  It returns a listing
    only when the command succeeded and printed a JSON array without a
    [null] element, and then the listing has one entry per element, in
    order, with the element's five fields.  A failed command throws
    "Failed to list projects: " followed by its error output; any other
    output throws "Failed to parse projects list", whatever the parser
    said. *)
Theorem listProjects_outcome env h s :
  let result := proc env h "supabase" ["projects"; "list"; "--output"; "json"] None in
  match outcome (listProjects env h s) with
  | Ret projects =>
      succeeded result = true /\
      exists items, JSON_parse env (stdout result) = Parsed (JArr items) /\
                    Forall2 lists_as items projects
  | Throw message =>
      (succeeded result = false /\
       message = "Failed to list projects: " ++ stderr result) \/
      (succeeded result = true /\ message = "Failed to parse projects list" /\
       forall items, JSON_parse env (stdout result) = Parsed (JArr items) ->
                     In JNull items)
  | _ => False
  end.
Proof.
  intros result. unfold listProjects. rewrite run_spawn_bind. cbv zeta. fold result.
  destruct (succeeded result); cbn [negb outcome emitted rest app].
  2:{ left. split; reflexivity. }
  rewrite run_try_catch. cbv zeta. unfold json_parse.
  destruct (JSON_parse env (stdout result)) as [v|msg].
  2:{ cbn. right. repeat split. intros items E. discriminate E. }
  rewrite run_ret_bind.
  destruct v as [| | | |items|]; try (cbn; right; repeat split; intros ? E; discriminate E).
  pose proof (mapM_project_outcome items (ESpawn "supabase"
              ["projects"; "list"; "--output"; "json"] None :: h) s) as Hm.
  destruct (pure_mapM project_of_json items pure_project_of_json) as [o Ho].
  rewrite Ho in Hm |- *. cbn [outcome] in Hm.
  destruct o as [ps|e|c|]; try contradiction; cbn.
  - split; [reflexivity|]. exists items. split; [reflexivity | exact Hm].
  - right. repeat split. intros items' E. injection E as <-. exact Hm.
Qed.

Lemma find_api_key_outcome wanted keys h s :
  match outcome (find_api_key wanted keys h s) with
  | Ret _ | Throw _ => True
  | _ => False
  end.
Proof.
  induction keys as [|key more IH]; cbn [find_api_key]; [exact I|].
  destruct key; cbn; try exact I; try exact IH.
  destruct (JsValue.lookup "name" fields) as [[| | |n| |]|]; try exact IH.
  destruct (n =? wanted); [exact I | exact IH].
Qed.


End AdapterReplies.

(* ================================================================== *)
(** * The port prompt *)
(* ================================================================== *)

Module PortInput.
Import Scenarios Properties Measures.
Import ListNotations.
Open Scope string_scope.
Import Constants Validate.

Lemma digits_prefix_tail d t acc :
  Js.all_chars Js.is_digit d = true -> ends_number t = true ->
  Js.digits_prefix Js.digit_val 10 acc (d ++ t) = Js.digits_prefix Js.digit_val 10 acc d.
Proof.
  intros Hd Ht. revert acc. induction d as [|c d IH]; intros acc.
  - destruct t as [|x t]; [reflexivity|]. cbn in Ht |- *.
    unfold Js.digit_val. destruct (Js.is_digit x); [discriminate Ht | reflexivity].
  - cbn [Js.all_chars] in Hd. apply andb_prop in Hd. destruct Hd as [Hc Hd].
    cbn [append Js.digits_prefix]. destruct (Js.digit_val c); [apply IH; exact Hd | reflexivity].
Qed.

Lemma parse_magnitude_cases s :
  Js.parse_magnitude s =
  match s with
  | String c (String x s') =>
      if (c =? "0")%char && ((x =? "x")%char || (x =? "X")%char)
      then Js.digits_prefix Js.hex_val 16 None s'
      else Js.digits_prefix Js.digit_val 10 None s
  | _ => Js.digits_prefix Js.digit_val 10 None s
  end.
Proof.
  destruct s as [|c [|x s']]; try reflexivity.
  - destruct c as [[] [] [] [] [] [] [] []]; reflexivity.
  - destruct c as [[] [] [] [] [] [] [] []]; reflexivity.
Qed.

Lemma digit_is_no_prefix_letter x :
  Js.is_digit x = true -> ((x =? "x")%char || (x =? "X")%char) = false.
Proof.
  intros H. destruct (x =? "x")%char eqn:E1.
  - apply Ascii.eqb_eq in E1. subst x. discriminate H.
  - destruct (x =? "X")%char eqn:E2; [|reflexivity].
    apply Ascii.eqb_eq in E2. subst x. discriminate H.
Qed.

Lemma ends_number_no_prefix_letter y t :
  ends_number (String y t) = true -> ((y =? "x")%char || (y =? "X")%char) = false.
Proof.
  cbn [ends_number]. destruct (y =? "x")%char, (y =? "X")%char; try reflexivity;
    rewrite ?andb_false_r; cbn; intros H; discriminate H.
Qed.

Lemma parse_magnitude_tail d t :
  d <> "" -> Js.all_chars Js.is_digit d = true -> ends_number t = true ->
  Js.parse_magnitude (d ++ t) = Js.parse_magnitude d.
Proof.
  intros Hn Hd Ht. rewrite !parse_magnitude_cases.
  destruct d as [|c [|x d]]; [congruence| |].
  - destruct t as [|y t]; [reflexivity|]. cbn [append].
    rewrite (ends_number_no_prefix_letter _ _ Ht), andb_false_r.
    apply (digits_prefix_tail (String c "") (String y t)); assumption.
  - cbn [append]. cbn [Js.all_chars] in Hd.
    assert (Hx : Js.is_digit x = true).
    { apply andb_prop in Hd. destruct Hd as [_ Hd]. apply andb_prop in Hd. tauto. }
    rewrite (digit_is_no_prefix_letter _ Hx), andb_false_r.
    apply (digits_prefix_tail (String c (String x d)) t); assumption.
Qed.

Lemma parseInt_of_digit c s :
  Js.is_digit c = true -> Js.parseInt (String c s) = Js.parse_magnitude (String c s).
Proof.
  intros H. destruct c as [[] [] [] [] [] [] [] []]; try discriminate H; reflexivity.
Qed.

(** X20. The port prompt reads a leading number and ignores what follows
    it: a run of digits followed by text that starts with neither a digit
    nor an [x] is read as the digits alone, so that "8080abc" passes the
    validation whenever "8080" does and configures the same port. *)
Theorem port_input_reads_leading_number (digits text : string) :
  digits <> "" ->
  Js.all_chars Js.is_digit digits = true ->
  ends_number text = true ->
  Js.parseInt (digits ++ text) = Js.parseInt digits /\
  port_text (digits ++ text) = port_text digits.
Proof.
  intros Hn Hd Ht.
  assert (E : Js.parseInt (digits ++ text) = Js.parseInt digits).
  { destruct digits as [|c d]; [congruence|].
    assert (Hc : Js.is_digit c = true).
    { cbn [Js.all_chars] in Hd. apply andb_prop in Hd. tauto. }
    cbn [append]. rewrite !parseInt_of_digit by exact Hc.
    apply (parse_magnitude_tail (String c d) text); assumption. }
  split; [exact E|]. unfold port_text. rewrite E. reflexivity.
Qed.

Lemma port_input_reads_leading_number_witness :
  Js.parseInt "8080abc" = Some 8080%Z /\ port_text "8080abc" = None.
Proof.
  apply (port_input_reads_leading_number "8080" "abc");
    [discriminate | reflexivity | reflexivity].
Defined.

End PortInput.

